(** * Polymarket tool: the resumable approval protocol

    A shallow embedding of [extensions/polymarket/src/polymarket-tool.ts]:
    the safety gate, the outcome resolver, the approval-token codec and the
    [place_order] / [resume] branches of [execute]; then the helpers and the
    other actions of [execute], over the same definitions.

    JavaScript numbers are IEEE 754 binary64 values and are modelled by Rocq's
    primitive [float], which is the same format. *)

From Stdlib Require Import ZArith List Bool Ascii String Lia.
From Stdlib Require Import Floats DecimalString.
Import ListNotations.

Set Warnings "-inexact-float,-register-all".
Local Open Scope string_scope.
Local Open Scope Z_scope.

(** Closed statements are settled by running the definitions. *)
Ltac by_evaluation :=
  repeat match goal with |- _ /\ _ => split end; vm_compute; reflexivity.

(** ** Strings

    A JavaScript string is modelled by the bytes of its UTF-8 encoding, held in
    a Rocq [string]; the model covers the well-formed strings (those without
    lone surrogates). *)

Definition code (c : ascii) : Z := Z.of_N (N_of_ascii c).
Definition chr (n : Z) : ascii := ascii_of_N (Z.to_N n).

Definition between (lo hi : Z) (c : ascii) : bool :=
  (lo <=? code c) && (code c <=? hi).

Definition is_ascii_char (c : ascii) : bool := code c <? 128.

Fixpoint is_ascii (s : string) : bool :=
  match s with
  | EmptyString => true
  | String c r => is_ascii_char c && is_ascii r
  end.

Definition truthy_string (s : string) : bool :=
  match s with EmptyString => false | _ => true end.

Fixpoint string_rev_onto (s acc : string) : string :=
  match s with
  | EmptyString => acc
  | String c r => string_rev_onto r (String c acc)
  end.

Definition string_rev (s : string) : string := string_rev_onto s EmptyString.

Module JSString.

(** The one-byte members of WhiteSpace and LineTerminator: TAB, LF, VT, FF,
    CR and SP. *)
Definition ws1 (c : ascii) : bool := between 9 13 c || (code c =? 32).

(** The third byte of the white space of the block U+2000..U+205F whose
    encoding starts E2 80: U+2000..U+200A, U+2028, U+2029, U+202F. *)
Definition ws_e2_80 (c : ascii) : bool :=
  between 128 138 c || (code c =? 168) || (code c =? 169) || (code c =? 175).

(** [s.trimStart()]: strips the WhiteSpace and LineTerminator code points
    U+0009..U+000D, U+0020, U+00A0, U+1680, U+2000..U+200A, U+2028, U+2029,
    U+202F, U+205F, U+3000 and U+FEFF from the front. *)
Fixpoint trimStart (s : string) : string :=
  match s with
  | EmptyString => EmptyString
  | String c r =>
      if ws1 c then trimStart r
      else
        match r with
        | String c1 r1 =>
            if (code c =? 194) && (code c1 =? 160) then trimStart r1
            else
              match r1 with
              | String c2 r2 =>
                  if ((code c =? 225) && (code c1 =? 154) && (code c2 =? 128))
                     || ((code c =? 226) && (code c1 =? 128) && ws_e2_80 c2)
                     || ((code c =? 226) && (code c1 =? 129) && (code c2 =? 159))
                     || ((code c =? 227) && (code c1 =? 128) && (code c2 =? 128))
                     || ((code c =? 239) && (code c1 =? 187) && (code c2 =? 191))
                  then trimStart r2
                  else s
              | EmptyString => s
              end
        | EmptyString => s
        end
  end.

(** The same scan over the reversed string, where the bytes of a code point
    come last byte first. *)
Fixpoint trimStart_rev (s : string) : string :=
  match s with
  | EmptyString => EmptyString
  | String c r =>
      if ws1 c then trimStart_rev r
      else
        match r with
        | String c1 r1 =>
            if (code c1 =? 194) && (code c =? 160) then trimStart_rev r1
            else
              match r1 with
              | String c2 r2 =>
                  if ((code c2 =? 225) && (code c1 =? 154) && (code c =? 128))
                     || ((code c2 =? 226) && (code c1 =? 128) && ws_e2_80 c)
                     || ((code c2 =? 226) && (code c1 =? 129) && (code c =? 159))
                     || ((code c2 =? 227) && (code c1 =? 128) && (code c =? 128))
                     || ((code c2 =? 239) && (code c1 =? 187) && (code c =? 191))
                  then trimStart_rev r2
                  else s
              | EmptyString => s
              end
        | EmptyString => s
        end
  end.

Definition trimEnd (s : string) : string :=
  string_rev (trimStart_rev (string_rev s)).

(** [s.trim()]. *)
Definition trim (s : string) : string := trimEnd (trimStart s).

(** [s.startsWith(p)]. *)
Definition startsWith (s p : string) : bool := String.prefix p s.

(** [s.split(sep)] for a separator of one character: the pieces between the
    occurrences of [sep], an empty string giving one empty piece. *)
Fixpoint split (sep : ascii) (s : string) : list string :=
  match s with
  | EmptyString => [EmptyString]
  | String c r =>
      if Ascii.eqb c sep then EmptyString :: split sep r
      else
        match split sep r with
        | piece :: pieces => String c piece :: pieces
        | [] => [String c EmptyString]
        end
  end.

(** The ASCII part of [toLowerCase]: A..Z become a..z. *)
Definition lower_ascii_char (c : ascii) : ascii :=
  if between 65 90 c then chr (code c + 32) else c.

Fixpoint lower_ascii (s : string) : string :=
  match s with
  | EmptyString => EmptyString
  | String c r => String (lower_ascii_char c) (lower_ascii r)
  end.

End JSString.

(** [String.prototype.toLowerCase] applies the Unicode case tables, which are
    not part of this development: it is an interface, of which only the
    behaviour on ASCII text is fixed. *)
Class UnicodeCase := {
  toLowerCase : string -> string;
  toLowerCase_ascii :
    forall s, is_ascii s = true -> toLowerCase s = JSString.lower_ascii s
}.

(** ** ECMAScript numbers *)

Module Number.

(** [Number.isFinite(x)] for a value that is already a number. *)
Definition isFinite (x : float) : bool := PrimFloat.is_finite x.

(** JavaScript truthiness of a number: [0], [-0] and [NaN] are falsy. *)
Definition truthy (x : float) : bool :=
  negb (PrimFloat.is_zero x || PrimFloat.is_nan x).

(** The exact integer [n] as a number, for [|n| < 2^53]. *)
Definition ofZ (n : Z) : float :=
  match n with
  | Z0 => PrimFloat.zero
  | Zpos _ => PrimFloat.of_uint63 (Uint63.of_Z n)
  | Zneg p => PrimFloat.opp (PrimFloat.of_uint63 (Uint63.of_Z (Zpos p)))
  end.

(** The nearest number to the rational [num / den] ([0 <= num], [0 < den]),
    ties going to the even significand: the quotient is taken with at least
    63 significant bits and a sticky bit for the remainder, then rounded to
    the format. *)
Definition ofRatio (neg : bool) (num den : Z) : float :=
  if num =? 0 then (if neg then PrimFloat.neg_zero else PrimFloat.zero)
  else
    let k := Z.max 0 (Z.log2 den - Z.log2 num + 64) in
    let q := (num * 2 ^ k) / den in
    let r := (num * 2 ^ k) mod den in
    let m := 2 * q + (if r =? 0 then 0 else 1) in
    SF2Prim (binary_normalize prec emax (if neg then - m else m) (- k - 1) false).

(** The nearest number to [d * 10^e] ([0 <= d]).  Beyond the range of the
    format the result is known without the power of ten: an infinity above
    [10^400], a zero below [10^-400]. *)
Definition ofDecimal (neg : bool) (d e : Z) : float :=
  if d =? 0 then (if neg then PrimFloat.neg_zero else PrimFloat.zero)
  else if 400 <? e then (if neg then PrimFloat.neg_infinity else PrimFloat.infinity)
  else if Z.log2 d + 1 + e <? -400
       then (if neg then PrimFloat.neg_zero else PrimFloat.zero)
  else if 0 <=? e then ofRatio neg (d * 10 ^ e) 1
  else ofRatio neg d (10 ^ (- e)).

(** *** Decimal text *)

Definition is_digit (c : ascii) : bool := between 48 57 c.

(** The decimal digits of [n >= 0]. *)
Definition digits (n : Z) : string :=
  NilZero.string_of_uint (N.to_uint (Z.to_N n)).

(** Reads the decimal digits at the front of [s]: the value they add to
    [acc], how many they are, and what follows them. *)
Fixpoint read_digits (s : string) (acc cnt : Z) : Z * Z * string :=
  match s with
  | String c r =>
      if is_digit c then read_digits r (10 * acc + (code c - 48)) (cnt + 1)
      else (acc, cnt, s)
  | EmptyString => (acc, cnt, s)
  end.

(** Reads an exponent part: [e] or [E], an optional sign and at least one
    digit. *)
Definition read_exponent (s : string) : option (Z * string) :=
  match s with
  | String c r =>
      if (code c =? 101) || (code c =? 69) then
        let '(neg, r1) :=
          match r with
          | String c1 r1 =>
              if code c1 =? 45 then (true, r1)
              else if code c1 =? 43 then (false, r1)
              else (false, r)
          | EmptyString => (false, r)
          end in
        let '(v, cnt, r2) := read_digits r1 0 0 in
        if cnt =? 0 then None else Some (if neg then - v else v, r2)
      else None
  | EmptyString => None
  end.

(** *** [Number::toString], radix 10 *)

(** [10^n <= num / den]. *)
Definition pow10_le (num den n : Z) : bool :=
  if 0 <=? n then 10 ^ n * den <=? num else den <=? num * 10 ^ (- n).

Fixpoint decade_from (fuel : nat) (num den n : Z) : Z :=
  match fuel with
  | O => n
  | S f => if pow10_le num den n then decade_from f num den (n + 1) else n
  end.

(** The [n] with [10^(n-1) <= num / den < 10^n], found upwards from an
    estimate that the binary logarithms put at most four below it. *)
Definition decade (num den : Z) : Z :=
  decade_from 8 num den ((Z.log2 num - Z.log2 den) * 30103 / 100000 - 2).

(** The value of a positive finite number as a fraction. *)
Definition ratio (x : float) : option (Z * Z) :=
  match Prim2SF x with
  | S754_finite _ m e =>
      Some (if 0 <=? e then (Zpos m * 2 ^ e, 1) else (Zpos m, 2 ^ (- e)))
  | _ => None
  end.

(** The two [k]-digit decimals [s * 10^(n0 - k)] around [num / den], and which
    of them, if any, denotes [x]: the nearer one when both do, the even one
    on a tie.  [check = false] takes the nearer one without asking. *)
Definition digits_at (check : bool) (x : float) (num den n0 k : Z)
  : option (Z * Z) :=
  let p := n0 - k in
  let qn := if 0 <=? p then num else num * 10 ^ (- p) in
  let qd := if 0 <=? p then den * 10 ^ p else den in
  let lo := qn / qd in
  let r := qn mod qd in
  let hi := lo + 1 in
  let ok c := negb check || ((0 <? c) && PrimFloat.Leibniz.eqb (ofDecimal false c p) x) in
  let prefer_lo := (2 * r <? qd) || ((2 * r =? qd) && Z.even lo) in
  let pick :=
    if ok lo && ok hi then Some (if prefer_lo then lo else hi)
    else if ok lo then Some lo
    else if ok hi then Some hi
    else None in
  match pick with
  | Some c => Some (if c =? 10 ^ k then (10 ^ (k - 1), n0 + 1) else (c, n0))
  | None => None
  end.

Fixpoint shortest_from (fuel : nat) (x : float) (num den n0 k : Z)
  : option (Z * Z * Z) :=
  match fuel with
  | O => None
  | S f =>
      match digits_at true x num den n0 k with
      | Some (s, n) => Some (s, n, k)
      | None => shortest_from f x num den n0 (k + 1)
      end
  end.

(** The [(s, n, k)] of [Number::toString] for a positive finite [x]: [k] is
    the least number of digits for which some [s * 10^(n-k)] denotes [x].
    Seventeen digits always suffice for binary64; the last line only makes
    the function total. *)
Definition shortest (x : float) : Z * Z * Z :=
  match ratio x with
  | Some (num, den) =>
      let n0 := decade num den in
      match shortest_from 17 x num den n0 1 with
      | Some r => r
      | None =>
          match digits_at false x num den n0 17 with
          | Some (s, n) => (s, n, 17)
          | None => (0, 0, 1)
          end
      end
  | None => (0, 0, 1)
  end.

Fixpoint zeros (n : nat) : string :=
  match n with O => EmptyString | S m => String "0" (zeros m) end.

Definition take (n : Z) (s : string) : string := substring 0 (Z.to_nat n) s.
Definition drop (n : Z) (s : string) : string :=
  substring (Z.to_nat n) (String.length s - Z.to_nat n) s.

(** Steps 6 to 10 of [Number::toString]: where the point goes, and when the
    exponent form is used. *)
Definition layout (ds : string) (n k : Z) : string :=
  if (k <=? n) && (n <=? 21) then ds ++ zeros (Z.to_nat (n - k))
  else if (0 <? n) && (n <=? 21) then take n ds ++ "." ++ drop n ds
  else if (-6 <? n) && (n <=? 0) then "0." ++ zeros (Z.to_nat (- n)) ++ ds
  else
    let e := n - 1 in
    let es := (if e <? 0 then "-" else "+") ++ digits (Z.abs e) in
    if k =? 1 then ds ++ "e" ++ es
    else take 1 ds ++ "." ++ drop 1 ds ++ "e" ++ es.

(** [Number::toString(x)], which is [String(x)] and what [JSON.stringify]
    writes for a finite number. *)
Definition toString (x : float) : string :=
  if PrimFloat.is_nan x then "NaN"
  else if PrimFloat.is_zero x then "0"
  else if PrimFloat.is_infinity x
       then (if PrimFloat.get_sign x then "-Infinity" else "Infinity")
  else
    let '(s, n, k) := shortest (PrimFloat.abs x) in
    (if PrimFloat.get_sign x then "-" else "") ++ layout (digits s) n k.

(** *** Reading numbers *)

(** [Number.parseFloat(s)]: leading white space is skipped and the longest
    prefix that is a StrDecimalLiteral is converted; [NaN] when there is
    none. *)
Definition parseFloat (s : string) : float :=
  let s0 := JSString.trimStart s in
  let '(neg, s1) :=
    match s0 with
    | String c r =>
        if code c =? 45 then (true, r)
        else if code c =? 43 then (false, r)
        else (false, s0)
    | EmptyString => (false, s0)
    end in
  if String.prefix "Infinity" s1
  then (if neg then PrimFloat.neg_infinity else PrimFloat.infinity)
  else
    let '(ip, ic, r1) := read_digits s1 0 0 in
    let '(d, fc, r2, dotted) :=
      match r1 with
      | String c r =>
          if code c =? 46 then
            let '(d, fc, r2) := read_digits r ip 0 in (d, fc, r2, true)
          else (ip, 0, r1, false)
      | EmptyString => (ip, 0, r1, false)
      end in
    if (ic =? 0) && (fc =? 0) then PrimFloat.nan
    else
      match read_exponent r2 with
      | Some (e, _) => ofDecimal neg d (e - fc)
      | None => ofDecimal neg d (- fc)
      end.

(** [Number.parseInt(s, 10)]: white space, a sign and the digits that follow;
    [None] stands for [NaN]. *)
Definition parseInt (s : string) : option Z :=
  let s0 := JSString.trimStart s in
  let '(neg, s1) :=
    match s0 with
    | String c r =>
        if code c =? 45 then (true, r)
        else if code c =? 43 then (false, r)
        else (false, s0)
    | EmptyString => (false, s0)
    end in
  let '(v, cnt, _) := read_digits s1 0 0 in
  if cnt =? 0 then None else Some (if neg then - v else v).

(** The value of a JSON number token: an optional minus, an integer part
    without a superfluous leading zero, an optional fraction and an optional
    exponent, and nothing else. *)
Definition ofJSONToken (s : string) : option float :=
  let '(neg, s1) :=
    match s with
    | String c r => if code c =? 45 then (true, r) else (false, s)
    | EmptyString => (false, s)
    end in
  let '(ip, ic, r1) := read_digits s1 0 0 in
  let leading_zero :=
    match s1 with String c _ => (code c =? 48) && (1 <? ic) | EmptyString => false end in
  if (ic =? 0) || leading_zero then None
  else
    let frac :=
      match r1 with
      | String c r =>
          if code c =? 46 then
            let '(d, fc, r2) := read_digits r ip 0 in
            if fc =? 0 then None else Some (d, fc, r2)
          else Some (ip, 0, r1)
      | EmptyString => Some (ip, 0, r1)
      end in
    match frac with
    | None => None
    | Some (d, fc, r2) =>
        match r2 with
        | EmptyString => Some (ofDecimal neg d (- fc))
        | _ =>
            match read_exponent r2 with
            | Some (e, EmptyString) => Some (ofDecimal neg d (e - fc))
            | _ => None
            end
        end
    end.

(** The integral part of a finite number ([Math.trunc]), as an integer. *)
Definition truncZ (x : float) : option Z :=
  match Prim2SF x with
  | S754_zero _ => Some 0
  | S754_finite s m e =>
      let a := if 0 <=? e then Zpos m * 2 ^ e else Z.shiftr (Zpos m) (- e) in
      Some (if s then - a else a)
  | _ => None
  end.

End Number.

Module Math.

(** [Math.abs]. *)
Definition abs (x : float) : float := PrimFloat.abs x.

(** [Math.round(x)]: the integral number closest to [x], ties going towards
    plus infinity; [NaN], the infinities and the zeros are returned as they
    are, and a negative [x] that rounds to zero gives [-0].  A finite [x] is
    [(-1)^s * m * 2^e]; with [e >= 0] it is integral already, otherwise the
    result is [floor (x + 1/2)], computed on integers. *)
Definition round (x : float) : float :=
  match Prim2SF x with
  | S754_finite s m e =>
      if 0 <=? e then x
      else
        let n := if s then Zneg m else Zpos m in
        let r := Z.shiftr (2 * n + 2 ^ (- e)) (1 - e) in
        if r =? 0 then (if s then PrimFloat.neg_zero else PrimFloat.zero)
        else Number.ofZ r
  | _ => x
  end.

(** [Math.max(a, b)] for two numbers. *)
Definition max (a b : float) : float :=
  if PrimFloat.is_nan a || PrimFloat.is_nan b then PrimFloat.nan
  else if PrimFloat.ltb a b then b
  else if PrimFloat.ltb b a then a
  else if PrimFloat.get_sign a then b else a.

End Math.

(** ** Buffers: UTF-8, base64url, SHA-256 and HMAC

    A [Buffer] is a list of bytes. *)

Definition Buffer := list ascii.

Module Utf8.

(** The ranges a continuation byte can be confined to. *)
Inductive cont := c80_BF | cA0_BF | c80_9F | c90_BF | c80_8F.

Definition in_cont (k : cont) (b : ascii) : bool :=
  match k with
  | c80_BF => between 128 191 b
  | cA0_BF => between 160 191 b
  | c80_9F => between 128 159 b
  | c90_BF => between 144 191 b
  | c80_8F => between 128 143 b
  end.

(** The decoder is at a boundary, or inside a sequence: [more] continuation
    bytes are needed after the next one, which must lie in [next]; [seen]
    holds the bytes of the sequence so far, last first. *)
Inductive state := Start | Pending (more : nat) (next : cont) (seen : list ascii).

(** U+FFFD, encoded. *)
Definition replacement : list ascii := [chr 239; chr 191; chr 189].

(** A byte met at a boundary: what the decoder becomes, what it emits, and
    whether the byte was in error. *)
Definition lead (b : ascii) : state * list ascii * bool :=
  if code b <? 128 then (Start, [b], false)
  else if between 194 223 b then (Pending 0 c80_BF [b], [], false)
  else if between 224 239 b then
    (Pending 1 (if code b =? 224 then cA0_BF
                else if code b =? 237 then c80_9F else c80_BF) [b], [], false)
  else if between 240 244 b then
    (Pending 2 (if code b =? 240 then c90_BF
                else if code b =? 244 then c80_8F else c80_BF) [b], [], false)
  else (Start, replacement, true).

(** One byte of the UTF-8 decoder of the Encoding Standard: a sequence that
    breaks off is replaced by U+FFFD and the offending byte is read again
    at a boundary. *)
Definition step (st : state) (b : ascii) : state * list ascii * bool :=
  match st with
  | Start => lead b
  | Pending more k seen =>
      if in_cont k b then
        match more with
        | O => (Start, rev (b :: seen), false)
        | S m => (Pending m c80_BF (b :: seen), [], false)
        end
      else let '(st', out, _) := lead b in (st', (replacement ++ out)%list, true)
  end.

Fixpoint run (st : state) (bs : list ascii) : state * list ascii * bool :=
  match bs with
  | [] => (st, [], false)
  | b :: r =>
      let '(st1, o1, e1) := step st b in
      let '(st2, o2, e2) := run st1 r in
      (st2, (o1 ++ o2)%list, e1 || e2)
  end.

Definition at_boundary (st : state) : bool :=
  match st with Start => true | Pending _ _ _ => false end.

(** [buf.toString("utf8")]. *)
Definition toString (buf : Buffer) : string :=
  let '(st, out, _) := run Start buf in
  string_of_list_ascii (if at_boundary st then out else (out ++ replacement)%list).

(** [Buffer.from(s, "utf8")]. *)
Definition fromString (s : string) : Buffer := list_ascii_of_string s.

(** The byte strings that are the UTF-8 encoding of some text. *)
Definition well_formed (s : string) : bool :=
  let '(st, _, err) := run Start (list_ascii_of_string s) in
  negb err && at_boundary st.

End Utf8.

Module Base64url.

(** Six bits, most significant first. *)
Definition sextet : Type := bool * bool * bool * bool * bool * bool.

Definition bit (b : bool) : Z := if b then 1 else 0.

Definition index (s : sextet) : Z :=
  let '(b5, b4, b3, b2, b1, b0) := s in
  32 * bit b5 + 16 * bit b4 + 8 * bit b3 + 4 * bit b2 + 2 * bit b1 + bit b0.

Definition of_index (i : Z) : sextet :=
  (Z.testbit i 5, Z.testbit i 4, Z.testbit i 3,
   Z.testbit i 2, Z.testbit i 1, Z.testbit i 0).

(** The URL-safe alphabet: A..Z, a..z, 0..9, [-] and [_]. *)
Definition alphabet (s : sextet) : ascii :=
  let i := index s in
  if i <? 26 then chr (65 + i)
  else if i <? 52 then chr (97 + (i - 26))
  else if i <? 62 then chr (48 + (i - 52))
  else if i =? 62 then "-"%char else "_"%char.

(** Node's decoding table, shared by ["base64"] and ["base64url"]: both
    alphabets are accepted, [+] and [-] for 62, [/] and [_] for 63. *)
Definition unbase64 (c : ascii) : option sextet :=
  if between 65 90 c then Some (of_index (code c - 65))
  else if between 97 122 c then Some (of_index (code c - 97 + 26))
  else if between 48 57 c then Some (of_index (code c - 48 + 52))
  else if (code c =? 43) || (code c =? 45) then Some (of_index 62)
  else if (code c =? 47) || (code c =? 95) then Some (of_index 63)
  else None.

(** [buf.toString("base64url")]: three bytes give four characters; one or two
    bytes left over give two or three, without padding. *)
Fixpoint encode (buf : Buffer) : string :=
  match buf with
  | Ascii a0 a1 a2 a3 a4 a5 a6 a7 :: Ascii b0 b1 b2 b3 b4 b5 b6 b7
      :: Ascii c0 c1 c2 c3 c4 c5 c6 c7 :: r =>
      String (alphabet (a7, a6, a5, a4, a3, a2))
        (String (alphabet (a1, a0, b7, b6, b5, b4))
           (String (alphabet (b3, b2, b1, b0, c7, c6))
              (String (alphabet (c5, c4, c3, c2, c1, c0)) (encode r))))
  | [Ascii a0 a1 a2 a3 a4 a5 a6 a7; Ascii b0 b1 b2 b3 b4 b5 b6 b7] =>
      String (alphabet (a7, a6, a5, a4, a3, a2))
        (String (alphabet (a1, a0, b7, b6, b5, b4))
           (String (alphabet (b3, b2, b1, b0, false, false)) EmptyString))
  | [Ascii a0 a1 a2 a3 a4 a5 a6 a7] =>
      String (alphabet (a7, a6, a5, a4, a3, a2))
        (String (alphabet (a1, a0, false, false, false, false)) EmptyString)
  | [] => EmptyString
  end.

(** The bits read and not yet written out as a byte. *)
Inductive pending :=
| P0
| P6 (b5 b4 b3 b2 b1 b0 : bool)
| P4 (b3 b2 b1 b0 : bool)
| P2 (b1 b0 : bool).

Definition feed (st : pending) (s : sextet) : pending * list ascii :=
  let '(s5, s4, s3, s2, s1, s0) := s in
  match st with
  | P0 => (P6 s5 s4 s3 s2 s1 s0, [])
  | P6 b5 b4 b3 b2 b1 b0 => (P4 s3 s2 s1 s0, [Ascii s4 s5 b0 b1 b2 b3 b4 b5])
  | P4 b3 b2 b1 b0 => (P2 s1 s0, [Ascii s2 s3 s4 s5 b0 b1 b2 b3])
  | P2 b1 b0 => (P0, [Ascii s0 s1 s2 s3 s4 s5 b0 b1])
  end.

(** Node's decoder, over the bytes it reads: a byte outside the table is
    skipped, [=] ends the data, and the bits of the last characters that do
    not fill a byte are dropped. *)
Fixpoint decode_from (st : pending) (s : string) : Buffer :=
  match s with
  | EmptyString => []
  | String c r =>
      if code c =? 61 then []
      else
        match unbase64 c with
        | None => decode_from st r
        | Some sx => let '(st', out) := feed st sx in (out ++ decode_from st' r)%list
        end
  end.

Definition low8 (n : Z) : ascii := chr (n mod 256).

(** The decoder goes through the string one UTF-16 code unit at a time and
    reads a unit through its low eight bits.  [units s] is what it reads: a
    code point up to U+FFFF is one unit, a code point above is the two
    surrogates [D800 + (cp - 10000 >> 10)] and [DC00 + (cp - 10000 & 3FF)]
    (in hexadecimal).  An ASCII character is read as itself; [U+0159], whose
    low byte is that of [Y], is read as [Y].  A byte that does not belong to
    the encoding of a code point stands for itself. *)
Fixpoint units (s : string) : string :=
  match s with
  | EmptyString => EmptyString
  | String b0 r0 =>
      match Utf8.lead b0, r0 with
      | (Utf8.Pending 0 k _, _, _), String b1 r1 =>
          if Utf8.in_cont k b1
          then String (low8 ((code b0 - 192) * 64 + (code b1 - 128))) (units r1)
          else String b0 (units r0)
      | (Utf8.Pending 1 k _, _, _), String b1 (String b2 r2) =>
          if Utf8.in_cont k b1 && Utf8.in_cont Utf8.c80_BF b2
          then String (low8 ((code b0 - 224) * 4096 + (code b1 - 128) * 64
                             + (code b2 - 128))) (units r2)
          else String b0 (units r0)
      | (Utf8.Pending 2 k _, _, _), String b1 (String b2 (String b3 r3)) =>
          if Utf8.in_cont k b1 && Utf8.in_cont Utf8.c80_BF b2
             && Utf8.in_cont Utf8.c80_BF b3
          then
            let cp := (code b0 - 240) * 262144 + (code b1 - 128) * 4096
                      + (code b2 - 128) * 64 + (code b3 - 128) in
            String (low8 (55296 + (cp - 65536) / 1024))
              (String (low8 (56320 + (cp - 65536) mod 1024)) (units r3))
          else String b0 (units r0)
      | _, _ => String b0 (units r0)
      end
  end.

(** [Buffer.from(s, "base64url")]. *)
Definition decode (s : string) : Buffer := decode_from P0 (units s).

End Base64url.

Module SHA256.

Definition w32 (x : Z) : Z := x mod 2 ^ 32.
Definition add32 (x y : Z) : Z := w32 (x + y).
Definition rotr (n x : Z) : Z := Z.lor (Z.shiftr x n) (w32 (Z.shiftl x (32 - n))).
Definition not32 (x : Z) : Z := 2 ^ 32 - 1 - x.

Definition Ch (x y z : Z) : Z := Z.lxor (Z.land x y) (Z.land (not32 x) z).
Definition Maj (x y z : Z) : Z :=
  Z.lxor (Z.lxor (Z.land x y) (Z.land x z)) (Z.land y z).
Definition bsig0 (x : Z) : Z := Z.lxor (Z.lxor (rotr 2 x) (rotr 13 x)) (rotr 22 x).
Definition bsig1 (x : Z) : Z := Z.lxor (Z.lxor (rotr 6 x) (rotr 11 x)) (rotr 25 x).
Definition ssig0 (x : Z) : Z := Z.lxor (Z.lxor (rotr 7 x) (rotr 18 x)) (Z.shiftr x 3).
Definition ssig1 (x : Z) : Z := Z.lxor (Z.lxor (rotr 17 x) (rotr 19 x)) (Z.shiftr x 10).

(** The integer cube root, one bit at a time from [2^(bits-1)] down. *)
Fixpoint cbrt_bits (bits : nat) (n r : Z) : Z :=
  match bits with
  | O => r
  | S b =>
      let r' := r + 2 ^ Z.of_nat b in
      cbrt_bits b n (if r' * r' * r' <=? n then r' else r)
  end.

Definition primes64 : list Z :=
  [2; 3; 5; 7; 11; 13; 17; 19; 23; 29; 31; 37; 41; 43; 47; 53;
   59; 61; 67; 71; 73; 79; 83; 89; 97; 101; 103; 107; 109; 113; 127; 131;
   137; 139; 149; 151; 157; 163; 167; 173; 179; 181; 191; 193; 197; 199; 211; 223;
   227; 229; 233; 239; 241; 251; 257; 263; 269; 271; 277; 281; 283; 293; 307; 311].

(** The round constants: the first 32 bits of the fractional parts of the
    cube roots of the first 64 primes. *)
Definition K : list Z :=
  Eval vm_compute in map (fun p => w32 (cbrt_bits 36 (p * 2 ^ 96) 0)) primes64.

(** The initial hash value: the first 32 bits of the fractional parts of the
    square roots of the first 8 primes. *)
Definition H0 : list Z :=
  Eval vm_compute in map (fun p => w32 (Z.sqrt (p * 2 ^ 64))) (firstn 8 primes64).

Fixpoint be_bytes (n : nat) (x : Z) : list ascii :=
  match n with
  | O => []
  | S m => chr ((x / 2 ^ (8 * Z.of_nat m)) mod 256) :: be_bytes m x
  end.

(** The message, a one bit, zero bits up to 56 bytes modulo 64, and the bit
    length of the message on 8 bytes. *)
Definition pad (msg : list ascii) : list ascii :=
  let len := Z.of_nat (List.length msg) in
  (msg ++ chr 128 :: repeat (chr 0) (Z.to_nat ((55 - len) mod 64))
       ++ be_bytes 8 (8 * len))%list.

Fixpoint words (n : nat) (bs : list ascii) : list Z * list ascii :=
  match n with
  | O => ([], bs)
  | S m =>
      match bs with
      | a :: b :: c :: d :: r =>
          let '(ws, r') := words m r in
          (((code a * 256 + code b) * 256 + code c) * 256 + code d :: ws, r')
      | _ => ([], [])
      end
  end.

(** The message schedule, latest word first. *)
Fixpoint schedule (n : nat) (rw : list Z) : list Z :=
  match n with
  | O => rw
  | S m =>
      let w := add32 (add32 (ssig1 (nth 1 rw 0)) (nth 6 rw 0))
                     (add32 (ssig0 (nth 14 rw 0)) (nth 15 rw 0)) in
      schedule m (w :: rw)
  end.

Definition regs : Type := Z * Z * Z * Z * Z * Z * Z * Z.

Definition round (v : regs) (kw : Z * Z) : regs :=
  let '(a, b, c, d, e, f, g, h) := v in
  let '(k, w) := kw in
  let t1 := add32 (add32 (add32 h (bsig1 e)) (add32 (Ch e f g) k)) w in
  let t2 := add32 (bsig0 a) (Maj a b c) in
  (add32 t1 t2, a, b, c, add32 d t1, e, f, g).

Definition compress (hv : regs) (block : list Z) : regs :=
  let ws := rev (schedule 48 (rev block)) in
  let '(a, b, c, d, e, f, g, h) := fold_left round (combine K ws) hv in
  let '(a0, b0, c0, d0, e0, f0, g0, h0) := hv in
  (add32 a0 a, add32 b0 b, add32 c0 c, add32 d0 d,
   add32 e0 e, add32 f0 f, add32 g0 g, add32 h0 h).

Fixpoint blocks (n : nat) (hv : regs) (bs : list ascii) : regs :=
  match n with
  | O => hv
  | S m => let '(ws, r) := words 16 bs in blocks m (compress hv ws) r
  end.

Definition init : regs :=
  (nth 0 H0 0, nth 1 H0 0, nth 2 H0 0, nth 3 H0 0,
   nth 4 H0 0, nth 5 H0 0, nth 6 H0 0, nth 7 H0 0).

(** [createHash("sha256").update(msg).digest()]. *)
Definition digest (msg : Buffer) : Buffer :=
  let p := pad msg in
  let '(a, b, c, d, e, f, g, h) := blocks (List.length p / 64) init p in
  flat_map (be_bytes 4) [a; b; c; d; e; f; g; h].

Definition xor_with (k : Z) (bs : list ascii) : list ascii :=
  map (fun b => chr (Z.lxor (code b) k)) bs.

(** [createHmac("sha256", key).update(msg).digest()], RFC 2104 with blocks
    of 64 bytes. *)
Definition hmac (key msg : Buffer) : Buffer :=
  let k0 := if (64 <? List.length key)%nat then digest key else key in
  let k := (k0 ++ repeat (chr 0) (64 - List.length k0))%list in
  digest (xor_with 92 k ++ digest (xor_with 54 k ++ msg))%list.

Definition hex (bs : list ascii) : string :=
  let h (n : Z) := if n <? 10 then chr (48 + n) else chr (87 + n) in
  string_of_list_ascii (flat_map (fun b => [h (code b / 16); h (code b mod 16)]) bs).

End SHA256.

(** ** JSON *)

Inductive JValue :=
| JNull
| JBool (b : bool)
| JNumber (x : float)
| JString (s : string)
| JArray (items : list JValue)
| JObject (members : list (string * JValue)).

Module JSON.

Definition dq : ascii := chr 34.
Definition bs : ascii := chr 92.

Definition hex_digit (n : Z) : ascii :=
  if n <? 10 then chr (48 + n) else chr (87 + n).

(** QuoteJSONString, one character: the quote, the backslash and the control
    characters are escaped; every other byte stands for itself. *)
Definition escape_char (c : ascii) : string :=
  let n := code c in
  if n =? 34 then String bs (String dq EmptyString)
  else if n =? 92 then String bs (String bs EmptyString)
  else if n =? 8 then String bs "b"
  else if n =? 9 then String bs "t"
  else if n =? 10 then String bs "n"
  else if n =? 12 then String bs "f"
  else if n =? 13 then String bs "r"
  else if n <? 32 then
    String bs (String "u" (String "0" (String "0"
      (String (hex_digit (n / 16)) (String (hex_digit (n mod 16)) EmptyString)))))
  else String c EmptyString.

Fixpoint escape (s : string) : string :=
  match s with
  | EmptyString => EmptyString
  | String c r => escape_char c ++ escape r
  end.

Definition quote (s : string) : string :=
  String dq (escape s ++ String dq EmptyString).

Definition member_text (k : string) (v : string) : string :=
  quote k ++ ":" ++ v.

(** [JSON.stringify(v)] without indentation.  A number that is not finite is
    written [null]. *)
Fixpoint stringify (v : JValue) : string :=
  match v with
  | JNull => "null"
  | JBool true => "true"
  | JBool false => "false"
  | JNumber x => if Number.isFinite x then Number.toString x else "null"
  | JString s => quote s
  | JArray items => "[" ++ String.concat "," (map stringify items) ++ "]"
  | JObject members =>
      "{" ++ String.concat ","
               (map (fun kv => member_text (fst kv) (stringify (snd kv))) members)
          ++ "}"
  end.

(** *** Parsing *)

Definition is_ws (c : ascii) : bool :=
  (code c =? 32) || (code c =? 9) || (code c =? 10) || (code c =? 13).

Fixpoint skip_ws (s : string) : string :=
  match s with
  | String c r => if is_ws c then skip_ws r else s
  | EmptyString => s
  end.

Definition hex_value (c : ascii) : option Z :=
  if between 48 57 c then Some (code c - 48)
  else if between 97 102 c then Some (code c - 87)
  else if between 65 70 c then Some (code c - 55)
  else None.

Definition hex4 (a b c d : ascii) : option Z :=
  match hex_value a, hex_value b, hex_value c, hex_value d with
  | Some x, Some y, Some z, Some w => Some (((x * 16 + y) * 16 + z) * 16 + w)
  | _, _, _, _ => None
  end.

(** The UTF-8 bytes of a code point, last byte first. *)
Definition utf8_rev (cp : Z) : list ascii :=
  if cp <? 128 then [chr cp]
  else if cp <? 2048 then [chr (128 + cp mod 64); chr (192 + cp / 64)]
  else if cp <? 65536 then
    [chr (128 + cp mod 64); chr (128 + (cp / 64) mod 64); chr (224 + cp / 4096)]
  else
    [chr (128 + cp mod 64); chr (128 + (cp / 64) mod 64);
     chr (128 + (cp / 4096) mod 64); chr (240 + cp / 262144)].

Fixpoint push (cs : list ascii) (acc : string) : string :=
  match cs with
  | [] => acc
  | c :: r => String c (push r acc)
  end.

(** The characters of a string literal after its opening quote, up to the
    closing one; [acc] holds the value read so far, last byte first.  A
    [\u] escape of a high surrogate followed by one of a low surrogate is one
    code point. *)
Fixpoint string_body (s : string) (acc : string) : option (string * string) :=
  match s with
  | EmptyString => None
  | String c r =>
      if code c =? 34 then Some (string_rev acc, r)
      else if code c <? 32 then None
      else if code c =? 92 then
        match r with
        | String e r1 =>
            let n := code e in
            if n =? 34 then string_body r1 (String dq acc)
            else if n =? 92 then string_body r1 (String bs acc)
            else if n =? 47 then string_body r1 (String "/" acc)
            else if n =? 98 then string_body r1 (String (chr 8) acc)
            else if n =? 102 then string_body r1 (String (chr 12) acc)
            else if n =? 110 then string_body r1 (String (chr 10) acc)
            else if n =? 114 then string_body r1 (String (chr 13) acc)
            else if n =? 116 then string_body r1 (String (chr 9) acc)
            else if n =? 117 then
              match r1 with
              | String h1 (String h2 (String h3 (String h4 r2))) =>
                  match hex4 h1 h2 h3 h4 with
                  | None => None
                  | Some u =>
                      match r2 with
                      | String b1 (String b2 (String l1 (String l2 (String l3 (String l4 r3))))) =>
                          match hex4 l1 l2 l3 l4 with
                          | Some lo =>
                              if (code b1 =? 92) && (code b2 =? 117)
                                 && (55296 <=? u) && (u <=? 56319)
                                 && (56320 <=? lo) && (lo <=? 57343)
                              then string_body r3
                                     (push (utf8_rev (65536 + (u - 55296) * 1024 + (lo - 56320))) acc)
                              else string_body r2 (push (utf8_rev u) acc)
                          | None => string_body r2 (push (utf8_rev u) acc)
                          end
                      | _ => string_body r2 (push (utf8_rev u) acc)
                      end
                  end
              | _ => None
              end
            else None
        | EmptyString => None
        end
      else string_body r (String c acc)
  end.

Definition is_numchar (c : ascii) : bool :=
  Number.is_digit c || (code c =? 45) || (code c =? 43) || (code c =? 46)
  || (code c =? 101) || (code c =? 69).

(** The longest run of number characters at the front of [s], last first,
    and what follows it. *)
Fixpoint numchars (s : string) (acc : string) : string * string :=
  match s with
  | String c r => if is_numchar c then numchars r (String c acc) else (string_rev acc, s)
  | EmptyString => (string_rev acc, s)
  end.

Definition literal (word : string) (v : JValue) (s : string) : option (JValue * string) :=
  if String.prefix word s
  then Some (v, substring (String.length word) (String.length s - String.length word) s)
  else None.

(** A recursive-descent reader of the JSON grammar.  A value, the items of an
    array after its bracket, and the members of an object after its brace;
    each returns what it read and the text that follows.  An object is the
    list of its members in the order of the text. *)
Fixpoint value (fuel : nat) (s : string) {struct fuel} : option (JValue * string) :=
  match fuel with
  | O => None
  | S f =>
      match skip_ws s with
      | EmptyString => None
      | String c r =>
          let n := code c in
          if n =? 123 then
            match skip_ws r with
            | String c1 r1 =>
                if code c1 =? 125 then Some (JObject [], r1) else members f r []
            | EmptyString => None
            end
          else if n =? 91 then
            match skip_ws r with
            | String c1 r1 =>
                if code c1 =? 93 then Some (JArray [], r1) else elements f r []
            | EmptyString => None
            end
          else if n =? 34 then
            match string_body r EmptyString with
            | Some (str, r1) => Some (JString str, r1)
            | None => None
            end
          else if (n =? 45) || Number.is_digit c then
            let '(tok, r1) := numchars (String c r) EmptyString in
            match Number.ofJSONToken tok with
            | Some x => Some (JNumber x, r1)
            | None => None
            end
          else if n =? 116 then literal "true" (JBool true) (String c r)
          else if n =? 102 then literal "false" (JBool false) (String c r)
          else if n =? 110 then literal "null" JNull (String c r)
          else None
      end
  end
with elements (fuel : nat) (s : string) (acc : list JValue) {struct fuel}
  : option (JValue * string) :=
  match fuel with
  | O => None
  | S f =>
      match value f s with
      | Some (v, r) =>
          match skip_ws r with
          | String c r1 =>
              if code c =? 44 then elements f r1 (acc ++ [v])
              else if code c =? 93 then Some (JArray (acc ++ [v]), r1)
              else None
          | EmptyString => None
          end
      | None => None
      end
  end
with members (fuel : nat) (s : string) (acc : list (string * JValue)) {struct fuel}
  : option (JValue * string) :=
  match fuel with
  | O => None
  | S f =>
      match skip_ws s with
      | String c r =>
          if code c =? 34 then
            match string_body r EmptyString with
            | Some (key, r1) =>
                match skip_ws r1 with
                | String c1 r2 =>
                    if code c1 =? 58 then
                      match value f r2 with
                      | Some (v, r3) =>
                          match skip_ws r3 with
                          | String c2 r4 =>
                              if code c2 =? 44 then members f r4 (acc ++ [(key, v)])
                              else if code c2 =? 125
                                   then Some (JObject (acc ++ [(key, v)]), r4)
                              else None
                          | EmptyString => None
                          end
                      | None => None
                      end
                    else None
                | EmptyString => None
                end
            | None => None
            end
          else None
      | EmptyString => None
      end
  end.

(** [JSON.parse(text)]; [None] stands for the SyntaxError it throws. *)
Definition parse (text : string) : option JValue :=
  match value (S (String.length text)) text with
  | Some (v, r) =>
      match skip_ws r with
      | EmptyString => Some v
      | _ => None
      end
  | None => None
  end.

(** [obj[key]], the last member of that name; [None] is [undefined]. *)
Fixpoint get (members : list (string * JValue)) (key : string) : option JValue :=
  match members with
  | [] => None
  | (k, v) :: r =>
      match get r key with
      | Some w => Some w
      | None => if String.eqb k key then Some v else None
      end
  end.

(** Single quotes for double ones, to write JSON text in examples. *)
Fixpoint sq (s : string) : string :=
  match s with
  | EmptyString => EmptyString
  | String c r => String (if code c =? 39 then dq else c) (sq r)
  end.

End JSON.

(** [isRecord(value)]: an object that is neither [null] nor an array. *)
Definition isRecord (v : JValue) : bool :=
  match v with JObject _ => true | _ => false end.

(** ** Errors, results and the calls the tool makes *)

(** What a [throw] carries: an [Error] with its message, or the SyntaxError
    of [JSON.parse], whose message is the engine's. *)
Inductive Exception :=
| Error (message : string)
| SyntaxError.

(** [Side] and the order handed to the order-matching client. *)
Inductive Side := BUY | SELL.

Record UserOrder := {
  tokenID : string;
  order_price : float;
  order_size : float;
  order_side : Side
}.

Record OrderOptions := {
  tickSize : string;
  negRisk : bool
}.

Record OrderResponse := {
  orderID : option JValue;
  status : option JValue
}.

Record GammaMarket := {
  gm_id : option string;
  gm_slug : option string;
  gm_question : option string;
  gm_outcomes : option string;
  gm_clobTokenIds : option string
}.

(** The requests that leave the process, in the order they are made. *)
Inductive Call :=
| FetchMarketBySlug (slug : string)
| FetchMarketById (id : string)
| CreateOrDeriveApiKey
| GetTickSize (tokenId : string)
| GetNegRisk (tokenId : string)
| CreateAndPostOrder (order : UserOrder) (options : OrderOptions).

Definition is_submission (c : Call) : bool :=
  match c with CreateAndPostOrder _ _ => true | _ => false end.

(** What lies outside the tool: the clock, the environment of the process,
    the Gamma API and the CLOB client.  [None] is [undefined]; [inl] is a
    rejected promise or a thrown error. *)
Record World := {
  Date_now : float;
  process_env : string -> option string;
  fetchMarketBySlug : string -> Exception + GammaMarket;
  fetchMarketById : string -> Exception + GammaMarket;
  walletAddress : string -> Exception + string;
  createOrDeriveApiKey : Exception + unit;
  getTickSize : string -> Exception + string;
  getNegRisk : string -> Exception + bool;
  createAndPostOrder : UserOrder -> OrderOptions -> Exception + OrderResponse
}.

(** ** The pending order *)

Record MarketSnapshot := {
  market_id : option string;
  market_slug : option string;
  market_question : option string
}.

Record PendingOrder := {
  action : string;
  createdAtMs : float;
  expiresAtMs : float;
  sessionKey : option string;
  market : MarketSnapshot;
  tokenId : string;
  side : string;
  outcome : option string;
  price : float;
  size : float;
  approxNotionalUsd : float
}.

(** A property whose value is [undefined] is left out by [JSON.stringify]. *)
Definition optional (key : string) (v : option string) : list (string * JValue) :=
  match v with
  | Some s => [(key, JString s)]
  | None => []
  end.

(** The object that [JSON.stringify] sees for a pending order: the properties
    in the order of the object literal, the undefined ones left out. *)
Definition PendingOrder_toJS (o : PendingOrder) : JValue :=
  JObject
    ([("action", JString (action o));
      ("createdAtMs", JNumber (createdAtMs o));
      ("expiresAtMs", JNumber (expiresAtMs o))]
     ++ optional "sessionKey" (sessionKey o)
     ++ [("market",
          JObject (optional "id" (market_id (market o))
                   ++ optional "slug" (market_slug (market o))
                   ++ optional "question" (market_question (market o))))]
     ++ [("tokenId", JString (tokenId o)); ("side", JString (side o))]
     ++ optional "outcome" (outcome o)
     ++ [("price", JNumber (price o)); ("size", JNumber (size o));
         ("approxNotionalUsd", JNumber (approxNotionalUsd o))])%list.

Definition get_string (ms : list (string * JValue)) (k : string) : option string :=
  match JSON.get ms k with Some (JString s) => Some s | _ => None end.

Definition get_number (ms : list (string * JValue)) (k : string) : option float :=
  match JSON.get ms k with Some (JNumber x) => Some x | _ => None end.

(** An optional string property: absent, or a string. *)
Definition get_optional (ms : list (string * JValue)) (k : string)
  : option (option string) :=
  match JSON.get ms k with
  | None => Some None
  | Some (JString s) => Some (Some s)
  | Some _ => None
  end.

(** The cast [parsed as PendingOrder] is not checked by the program.  The
    model follows the declared type: a record that has the shape of
    [PendingOrder] is read as one, and any other record is left outside the
    model (see [Unmodelled] below). *)
Definition PendingOrder_ofJS (v : JValue) : option PendingOrder :=
  match v with
  | JObject ms =>
      match get_string ms "action", get_number ms "createdAtMs",
            get_number ms "expiresAtMs", get_optional ms "sessionKey",
            JSON.get ms "market", get_string ms "tokenId", get_string ms "side",
            get_optional ms "outcome", get_number ms "price",
            get_number ms "size", get_number ms "approxNotionalUsd" with
      | Some a, Some c, Some e, Some sk, Some (JObject mk), Some t, Some sd,
        Some oc, Some p, Some sz, Some ap =>
          match get_optional mk "id", get_optional mk "slug",
                get_optional mk "question" with
          | Some i, Some sl, Some q =>
              Some {| action := a; createdAtMs := c; expiresAtMs := e;
                      sessionKey := sk;
                      market := {| market_id := i; market_slug := sl;
                                   market_question := q |};
                      tokenId := t; side := sd; outcome := oc;
                      price := p; size := sz; approxNotionalUsd := ap |}
          | _, _, _ => None
          end
      | _, _, _, _, _, _, _, _, _, _, _ => None
      end
  | _ => None
  end.

(** What [execute] answers. *)
Inductive ToolResult :=
| Failure (type : string)
    (** [{ ok: false, error: { type, message } }], answered by the code *)
| Caught (e : Exception)
    (** the same with type ["error"], made by the [catch] around [execute] *)
| NeedsApproval (order : PendingOrder) (resumeToken : string)
    (** [{ ok: true, status: "needs_approval", requiresApproval: ... }] *)
| Cancelled
    (** [{ ok: true, status: "cancelled" }] *)
| Placed (response : OrderResponse)
    (** [{ ok: true, status: "ok", output: [{ orderID, status }] }] *)
| Unmodelled.
    (** an action or a payload that this development does not cover *)

Definition error_type (r : ToolResult) : option string :=
  match r with
  | Failure t => Some t
  | Caught _ => Some "error"
  | _ => None
  end.

(** ** Control flow: early answers, exceptions and the log of calls *)

Inductive Outcome (A : Type) :=
| Normal (a : A)
| Responded (r : ToolResult)
| Threw (e : Exception).

Arguments Normal {A} a.
Arguments Responded {A} r.
Arguments Threw {A} e.

Definition M (A : Type) : Type := Outcome A * list Call.

Definition ret {A} (a : A) : M A := (Normal a, []).
Definition respond {A} (r : ToolResult) : M A := (Responded r, []).
Definition throw {A} (e : Exception) : M A := (Threw e, []).

Definition bind {A B} (m : M A) (k : A -> M B) : M B :=
  match m with
  | (Normal a, t) => let '(o, t') := k a in (o, (t ++ t')%list)
  | (Responded r, t) => (Responded r, t)
  | (Threw e, t) => (Threw e, t)
  end.

Notation "x <- m ;; k" := (bind m (fun x => k))
  (at level 61, m at next level, right associativity).
Notation "m ;;; k" := (bind m (fun _ => k))
  (at level 61, right associativity).

(** A value or a throw, without a call. *)
Definition lift {A} (x : Exception + A) : M A :=
  match x with inl e => throw e | inr a => ret a end.

(** [await] of a request: it is logged, and resolves or rejects. *)
Definition await {A} (c : Call) (x : Exception + A) : M A :=
  (match x with inl e => Threw e | inr a => Normal a end, [c]).

(** [if (c) return respond(r);] *)
Definition answer_if (c : bool) (r : ToolResult) : M unit :=
  if c then respond r else ret tt.

(** [if (c) throw new Error(msg);] *)
Definition throw_if (c : bool) (msg : string) : M unit :=
  if c then throw (Error msg) else ret tt.

(** The [try] ... [catch] of [execute]. *)
Definition settle (m : M ToolResult) : ToolResult * list Call :=
  match m with
  | (Normal r, t) => (r, t)
  | (Responded r, t) => (r, t)
  | (Threw e, t) => (Caught e, t)
  end.

(** ** Parameters and configuration *)

Definition Record_unknown := list (string * JValue).

(** [readStringParam(params, key, { required })], with the defaults
    [trim = true] and [allowEmpty = false]. *)
Definition readStringParam (params : Record_unknown) (key : string) (required : bool)
  : Exception + string :=
  match JSON.get params key with
  | Some (JString raw) =>
      let value := JSString.trim raw in
      if negb (truthy_string value)
      then (if required then inl (Error (key ++ " required")) else inr "")
      else inr value
  | _ => if required then inl (Error (key ++ " required")) else inr ""
  end.

(** [readNumberParam(params, key, { required })], with [integer = false]. *)
Definition readNumberParam (params : Record_unknown) (key : string)
  : Exception + float :=
  let value :=
    match JSON.get params key with
    | Some (JNumber raw) => if Number.isFinite raw then Some raw else None
    | Some (JString raw) =>
        let trimmed := JSString.trim raw in
        if truthy_string trimmed then
          let parsed := Number.parseFloat trimmed in
          if Number.isFinite parsed then Some parsed else None
        else None
    | _ => None
    end in
  match value with
  | Some v => inr v
  | None => inl (Error (key ++ " required"))
  end.

Record ToolContext := {
  sandboxed : bool;
  ctx_sessionKey : option string
}.

(** The fields of the configuration that the two flows read; the hosts and
    the chain id only reach the external clients. *)
Record PluginConfig := {
  privateKeyEnvVar : string;
  signatureType : Z;
  funderAddress : option string;
  tradeEnabled : bool;
  maxNotionalUsd : float;
  allowedMarketSlugs : option (list string)
}.

Definition normalizeEnvVarName (value : option JValue) (fallback : string) : string :=
  let raw := match value with Some (JString v) => JSString.trim v | _ => "" end in
  if truthy_string raw then raw else fallback.

Definition normalizeSignatureType (value : option JValue) (fallback : Z) : Z :=
  let num :=
    match value with
    | Some (JNumber v) => if Number.isFinite v then Number.truncZ v else None
    | Some (JString v) =>
        if truthy_string (JSString.trim v) then Number.parseInt (JSString.trim v) else None
    | _ => None
    end in
  match num with
  | Some n => if (n =? 0) || (n =? 1) || (n =? 2) then n else fallback
  | None => fallback
  end.

Definition normalizeNumber (value : option JValue) (fallback : float) : float :=
  let num :=
    match value with
    | Some (JNumber v) => if Number.isFinite v then v else PrimFloat.nan
    | Some (JString v) =>
        if truthy_string (JSString.trim v) then Number.parseFloat (JSString.trim v)
        else PrimFloat.nan
    | _ => PrimFloat.nan
    end in
  if negb (Number.isFinite num) then fallback else num.

Definition normalizeBoolean (value : option JValue) (fallback : bool) : bool :=
  match value with Some (JBool b) => b | _ => fallback end.

Definition normalizeStringList (value : option JValue) : option (list string) :=
  match value with
  | Some (JArray entries) =>
      let items :=
        filter truthy_string
          (map (fun entry => match entry with JString e => JSString.trim e | _ => "" end)
               entries) in
      match items with [] => None | _ => Some items end
  | Some (JString v) =>
      if truthy_string (JSString.trim v) then Some [JSString.trim v] else None
  | _ => None
  end.

(** [resolvePluginConfig(api)], on the fields kept in [PluginConfig]. *)
Definition resolvePluginConfig (pluginConfig : option JValue) : PluginConfig :=
  let raw := match pluginConfig with Some (JObject ms) => ms | _ => [] end in
  let funder :=
    match JSON.get raw "funderAddress" with
    | Some (JString v) => JSString.trim v
    | _ => ""
    end in
  {| privateKeyEnvVar :=
       normalizeEnvVarName (JSON.get raw "privateKeyEnvVar") "POLYMARKET_PRIVATE_KEY";
     signatureType := normalizeSignatureType (JSON.get raw "signatureType") 0;
     funderAddress := if truthy_string funder then Some funder else None;
     tradeEnabled := normalizeBoolean (JSON.get raw "tradeEnabled") false;
     maxNotionalUsd := Math.max 0 (normalizeNumber (JSON.get raw "maxNotionalUsd") 25);
     allowedMarketSlugs := normalizeStringList (JSON.get raw "allowedMarketSlugs") |}.

Definition env_trimmed (w : World) (name : string) : string :=
  JSString.trim (match process_env w name with Some v => v | None => "" end).

(** [resolvePrivateKey(config)]. *)
Definition resolvePrivateKey (w : World) (config : PluginConfig) : option string :=
  let fromPrimary := env_trimmed w (privateKeyEnvVar config) in
  let fromFallback := env_trimmed w "POLYMARKET_PRIVATE_KEY" in
  let fromDocs := env_trimmed w "PRIVATE_KEY" in
  let raw :=
    if truthy_string fromPrimary then fromPrimary
    else if truthy_string fromFallback then fromFallback
    else fromDocs in
  if negb (truthy_string raw) then None
  else Some (if JSString.startsWith raw "0x" then raw else "0x" ++ raw).

(** ** Approval token codec *)

(** [createTokenKey(privateKey)]. *)
Definition createTokenKey (privateKey : string) : Buffer :=
  SHA256.digest (Utf8.fromString privateKey).

(** [signToken(payloadJson, key)]. *)
Definition signToken (payloadJson : string) (key : Buffer) : string :=
  Base64url.encode (SHA256.hmac key (Utf8.fromString payloadJson)).

(** [encodeResumeToken(payload, privateKey)]. *)
Definition encodeResumeToken (payload : PendingOrder) (privateKey : string) : string :=
  let payloadJson := JSON.stringify (PendingOrder_toJS payload) in
  let key := createTokenKey privateKey in
  let sig := signToken payloadJson key in
  let body := Base64url.encode (Utf8.fromString payloadJson) in
  body ++ "." ++ sig.

Definition Buffer_eqb (a b : Buffer) : bool :=
  String.eqb (string_of_list_ascii a) (string_of_list_ascii b).

(** [decodeResumeToken(token, privateKey)]: the record that was parsed, or
    what was thrown. *)
Definition decodeResumeToken (token : string) (privateKey : string)
  : Exception + JValue :=
  match JSString.split "." token with
  | [body; sig] =>
      let json := Utf8.toString (Base64url.decode body) in
      let key := createTokenKey privateKey in
      let expected := signToken json key in
      let a := Utf8.fromString sig in
      let b := Utf8.fromString expected in
      if negb (Nat.eqb (List.length a) (List.length b)) || negb (Buffer_eqb a b)
      then inl (Error "Invalid token signature")
      else
        match JSON.parse json with
        | None => inl SyntaxError
        | Some parsed =>
            if negb (isRecord parsed) then inl (Error "Invalid token payload")
            else inr parsed
        end
  | _ => inl (Error "Invalid token format")
  end.

(** ** Safety gate: tick alignment *)

(** [isMultipleOfTick(value, tickSize)]. *)
Definition isMultipleOfTick (value tickSize : float) : bool :=
  if negb (Number.isFinite tickSize) || (tickSize <=? 0)%float then true
  else
    let scaled := (value / tickSize)%float in
    let rounded := Math.round scaled in
    (Math.abs (rounded - scaled) <? 1e-9)%float.

(** ** Safety gate: allowlist and notional limit *)

Definition truthy_option (v : option string) : bool :=
  match v with Some s => truthy_string s | None => false end.

(** [isAllowedMarket({ config, marketSlug })]. *)
Definition isAllowedMarket (config : PluginConfig) (marketSlug : option string) : bool :=
  match allowedMarketSlugs config with
  | None => true
  | Some [] => true
  | Some allow =>
      let slug := JSString.trim (match marketSlug with Some v => v | None => "" end) in
      if negb (truthy_string slug) then false
      else existsb (fun entry => String.eqb (JSString.trim entry) slug) allow
  end.

(** [Boolean(config.allowedMarketSlugs && config.allowedMarketSlugs.length > 0)]. *)
Definition hasAllowlist (config : PluginConfig) : bool :=
  match allowedMarketSlugs config with
  | Some (_ :: _) => true
  | _ => false
  end.

(** [approxNotionalUsd(price, size)]. *)
Definition approxNotionalUsd_of (price size : float) : float := (price * size)%float.

(** The condition under which [place_order] answers [notional_limit]:
    [config.maxNotionalUsd > 0 && approx > config.maxNotionalUsd]. *)
Definition exceedsNotionalLimit (config : PluginConfig) (approx : float) : bool :=
  (0 <? maxNotionalUsd config)%float && (maxNotionalUsd config <? approx)%float.

(** ** Outcome resolver *)

Fixpoint findIndex {A} (p : A -> bool) (l : list A) : option nat :=
  match l with
  | [] => None
  | x :: r => if p x then Some O else option_map S (findIndex p r)
  end.

(** [parseJsonStringArray(value)]. *)
Definition parseJsonStringArray (value : option string) : option (list string) :=
  match value with
  | None => None
  | Some v =>
      let trimmed := JSString.trim v in
      if negb (truthy_string trimmed) then None
      else
        match JSON.parse trimmed with
        | Some (JArray parsed) =>
            let out :=
              filter truthy_string
                (map (fun e => match e with JString x => x | _ => "" end) parsed) in
            match out with [] => None | _ => Some out end
        | _ => None
        end
  end.

Definition or_empty (l : option (list string)) : list string :=
  match l with Some x => x | None => [] end.

Section Tool.

Context {U : UnicodeCase}.

(** [normalizeOutcomeLabel(value)]. *)
Definition normalizeOutcomeLabel (value : string) : string :=
  toLowerCase (JSString.trim value).

(** The body of [resolveOutcomeToken] once [tokens] and [outcomes] have been
    read from the market: the instrument id and the label, or the error
    thrown. *)
Definition resolveOutcomeIn (tokens outcomes : list string) (outcome : option string)
  : Exception + (string * option string) :=
  match tokens with
  | [] => inl (Error "Market is missing clobTokenIds; cannot trade via CLOB")
  | _ =>
      let normalizedOutcome :=
        if truthy_option outcome
        then Some (normalizeOutcomeLabel (match outcome with Some o => o | None => "" end))
        else None in
      if truthy_option normalizedOutcome
         && Nat.eqb (List.length outcomes) (List.length tokens)
         && Nat.ltb 0 (List.length outcomes)
      then
        let n := match normalizedOutcome with Some n => n | None => "" end in
        match findIndex (fun o => String.eqb (normalizeOutcomeLabel o) n) outcomes with
        | Some idx =>
            if truthy_option (nth_error tokens idx)
            then inr (nth idx tokens "", nth_error outcomes idx)
            else inl (Error ("Unknown outcome: "
                             ++ match outcome with Some o => o | None => "" end))
        | None =>
            inl (Error ("Unknown outcome: "
                        ++ match outcome with Some o => o | None => "" end))
        end
      else if match normalizedOutcome with Some n => String.eqb n "yes" | None => false end
              && truthy_option (nth_error tokens 0)
      then inr (nth 0 tokens "", Some "Yes")
      else if match normalizedOutcome with Some n => String.eqb n "no" | None => false end
              && truthy_option (nth_error tokens 1)
      then inr (nth 1 tokens "", Some "No")
      else if negb (truthy_option normalizedOutcome) && truthy_option (nth_error tokens 0)
      then inr (nth 0 tokens "", nth_error outcomes 0)
      else inl (Error "Provide tokenId (or a resolvable outcome) to place an order")
  end.

(** [resolveOutcomeToken({ market, outcome })]. *)
Definition resolveOutcomeToken (market : GammaMarket) (outcome : option string)
  : Exception + (string * option string) :=
  resolveOutcomeIn (or_empty (parseJsonStringArray (gm_clobTokenIds market)))
                   (or_empty (parseJsonStringArray (gm_outcomes market)))
                   outcome.

(** ** Order staging state machine *)

(** [resolveGammaMarket({ config, marketId, marketSlug })].  The call
    [FetchMarketBySlug slug] is the [fetchJson] of the address made of the
    Gamma host, [/markets/slug/] and [encodeURIComponent(slug)], and
    [FetchMarketById id] is that of the host, [/markets/] and
    [encodeURIComponent(id)]; the host is one for a run, so the log names the
    fetch by the slug or the id, and [address_of] gives its address. *)
Definition resolveGammaMarket (w : World) (marketId marketSlug : string) : M GammaMarket :=
  if truthy_string marketSlug
  then await (FetchMarketBySlug marketSlug) (fetchMarketBySlug w marketSlug)
  else if truthy_string marketId
  then await (FetchMarketById marketId) (fetchMarketById w marketId)
  else throw (Error "marketSlug or marketId required").

(** [resolveClobClient({ config, privateKey })]: the wallet, the API key that
    is created or derived over the network, and the funder address. *)
Definition resolveClobClient (w : World) (config : PluginConfig) (privateKey : string)
  : M unit :=
  address <- lift (walletAddress w privateKey) ;;
  await CreateOrDeriveApiKey (createOrDeriveApiKey w) ;;;
  let funder :=
    match funderAddress config with
    | Some f => Some f
    | None => if signatureType config =? 0 then Some address else None
    end in
  throw_if (negb (truthy_option funder))
    "Missing funderAddress for signatureType 1/2. Set plugins.entries.polymarket.config.funderAddress.".

Definition or_else (a b : option string) : option string :=
  match a with Some _ => a | None => b end.

(** What [place_order] holds once the request has passed the gates that
    come before the notional limit: the key, the market it fetched, the
    instrument, and the side, price and size it validated. *)
Record Draft := {
  draft_privateKey : string;
  draft_market : option GammaMarket;
  draft_marketSlug : string;
  draft_outcome : string;
  draft_tokenId : string;
  draft_resolvedOutcome : option string;
  draft_side : string;
  draft_price : float;
  draft_size : float
}.

(** The [place_order] branch of [execute], up to the validated price and
    size. *)
Definition draft_order (w : World) (config : PluginConfig) (ctx : ToolContext)
  (rawParams : Record_unknown) : M Draft :=
  answer_if (negb (tradeEnabled config)) (Failure "trading_disabled") ;;;
  answer_if (sandboxed ctx) (Failure "sandboxed") ;;;
  match resolvePrivateKey w config with
  | None => respond (Failure "missing_private_key")
  | Some privateKey =>
      tokenIdFromArgs <- lift (readStringParam rawParams "tokenId" false) ;;
      marketSlug <- lift (readStringParam rawParams "marketSlug" false) ;;
      marketId <- lift (readStringParam rawParams "marketId" false) ;;
      outcome <- lift (readStringParam rawParams "outcome" false) ;;
      market <-
        (if truthy_string marketSlug || truthy_string marketId
         then m <- resolveGammaMarket w marketId marketSlug ;; ret (Some m)
         else if hasAllowlist config then respond (Failure "market_required")
         else ret None) ;;
      answer_if
        match market with
        | Some m => negb (isAllowedMarket config (gm_slug m))
        | None => false
        end (Failure "market_not_allowed") ;;;
      resolved <-
        (if truthy_string tokenIdFromArgs then ret (tokenIdFromArgs, None)
         else
           match market with
           | Some m => lift (resolveOutcomeToken m (Some outcome))
           | None =>
               throw (Error
                 "Provide tokenId (or provide marketSlug/marketId and outcome) to place an order")
           end) ;;
      rawSide <- lift (readStringParam rawParams "side" true) ;;
      let side := toLowerCase rawSide in
      throw_if (negb (String.eqb side "buy") && negb (String.eqb side "sell"))
        "side must be buy or sell" ;;;
      price <- lift (readNumberParam rawParams "price") ;;
      size <- lift (readNumberParam rawParams "size") ;;
      throw_if ((price <=? 0)%float || (1 <=? price)%float)
        "price must be between 0 and 1 (exclusive)" ;;;
      throw_if (size <=? 0)%float "size must be > 0" ;;;
      ret {| draft_privateKey := privateKey;
             draft_market := market;
             draft_marketSlug := marketSlug;
             draft_outcome := outcome;
             draft_tokenId := fst resolved;
             draft_resolvedOutcome := snd resolved;
             draft_side := side;
             draft_price := price;
             draft_size := size |}
  end.

(** The order that [place_order] builds from a draft at the time [now]. *)
Definition pending_order (ctx : ToolContext) (d : Draft) (now : float) : PendingOrder :=
  {| action := "place_order";
     createdAtMs := now;
     expiresAtMs := (now + 5 * 60 * 1000)%float;
     sessionKey := ctx_sessionKey ctx;
     market :=
       {| market_id := match draft_market d with Some m => gm_id m | None => None end;
          market_slug :=
            or_else (match draft_market d with Some m => gm_slug m | None => None end)
                    (Some (draft_marketSlug d));
          market_question :=
            match draft_market d with Some m => gm_question m | None => None end |};
     tokenId := draft_tokenId d;
     side := draft_side d;
     outcome := or_else (draft_resolvedOutcome d) (Some (draft_outcome d));
     price := draft_price d;
     size := draft_size d;
     approxNotionalUsd := approxNotionalUsd_of (draft_price d) (draft_size d) |}.

(** The [place_order] branch of [execute], from the notional limit on. *)
Definition stage_order (w : World) (config : PluginConfig) (ctx : ToolContext)
  (d : Draft) : M ToolResult :=
  let approx := approxNotionalUsd_of (draft_price d) (draft_size d) in
  answer_if (exceedsNotionalLimit config approx) (Failure "notional_limit") ;;;
  let now := Date_now w in
  let order := pending_order ctx d now in
  let resumeToken := encodeResumeToken order (draft_privateKey d) in
  ret (NeedsApproval order resumeToken).

(** The [place_order] branch of [execute]. *)
Definition place_order (w : World) (config : PluginConfig) (ctx : ToolContext)
  (rawParams : Record_unknown) : M ToolResult :=
  d <- draft_order w config ctx rawParams ;;
  stage_order w config ctx d.

(** [pending.expiresAtMs && now > pending.expiresAtMs]. *)
Definition expired (pending : PendingOrder) (now : float) : bool :=
  Number.truthy (expiresAtMs pending) && (expiresAtMs pending <? now)%float.

(** [pending.sessionKey && params.ctx.sessionKey
     && pending.sessionKey !== params.ctx.sessionKey]. *)
Definition sessionMismatch (pending : PendingOrder) (ctx : ToolContext) : bool :=
  match sessionKey pending, ctx_sessionKey ctx with
  | Some a, Some b => truthy_string a && truthy_string b && negb (String.eqb a b)
  | _, _ => false
  end.

(** The [resume] branch of [execute], from the decoded order on: the
    lifecycle checks, the safety gate again, and the submission. *)
Definition resume_pending (w : World) (config : PluginConfig) (ctx : ToolContext)
  (privateKey : string) (approve : bool) (pending : PendingOrder) : M ToolResult :=
  let now := Date_now w in
  answer_if (expired pending now) (Failure "expired") ;;;
  answer_if (sessionMismatch pending ctx) (Failure "session_mismatch") ;;;
  answer_if (negb approve) Cancelled ;;;
  answer_if (negb (tradeEnabled config)) (Failure "trading_disabled") ;;;
  answer_if (negb (String.eqb (action pending) "place_order"))
    (Failure "unsupported") ;;;
  answer_if
    (hasAllowlist config
     && negb (isAllowedMarket config (market_slug (market pending))))
    (Failure "market_not_allowed") ;;;
  resolveClobClient w config privateKey ;;;
  tickSizeStr <-
    await (GetTickSize (tokenId pending)) (getTickSize w (tokenId pending)) ;;
  let tickSizeNum := Number.parseFloat tickSizeStr in
  answer_if
    (Number.isFinite tickSizeNum
     && negb (isMultipleOfTick (price pending) tickSizeNum))
    (Failure "invalid_tick") ;;;
  negRisk <-
    await (GetNegRisk (tokenId pending)) (getNegRisk w (tokenId pending)) ;;
  let order :=
    {| tokenID := tokenId pending;
       order_price := price pending;
       order_size := size pending;
       order_side := if String.eqb (side pending) "buy" then BUY else SELL |} in
  let options := {| tickSize := tickSizeStr; negRisk := negRisk |} in
  response <-
    await (CreateAndPostOrder order options) (createAndPostOrder w order options) ;;
  ret (Placed response).

(** The [resume] branch of [execute], up to the decoded order.  The code
    does not check the cast of the decoded record: with a record that is not
    a [PendingOrder] it goes on to the lifecycle checks and to the client
    with the record as it is.  The model stops there, with [Unmodelled] and
    no call, and says nothing of what the code then does: a statement about
    every request of [resume] is one about the tokens whose record is a
    pending order. *)
Definition resume (w : World) (config : PluginConfig) (ctx : ToolContext)
  (rawParams : Record_unknown) : M ToolResult :=
  answer_if (sandboxed ctx) (Failure "sandboxed") ;;;
  token <- lift (readStringParam rawParams "token" true) ;;
  approve <-
    match JSON.get rawParams "approve" with
    | Some (JBool b) => ret b
    | _ => throw (Error "approve required (boolean)")
    end ;;
  match resolvePrivateKey w config with
  | None => respond (Failure "missing_private_key")
  | Some privateKey =>
      parsed <- lift (decodeResumeToken token privateKey) ;;
      match PendingOrder_ofJS parsed with
      | None => respond Unmodelled
      | Some pending => resume_pending w config ctx privateKey approve pending
      end
  end.

(** The actions of [execute] that are not part of the approval protocol. *)
Definition other_actions : list string :=
  ["status"; "balances"; "positions"; "open_orders"; "trades"; "order";
   "cancel_order"; "cancel_all"; "search"; "market"; "orderbook"].

(** [createPolymarketTool({ api, ctx }).execute(_, rawParams)]: the answer and
    the requests that were made. *)
Definition execute (w : World) (pluginConfig : option JValue) (ctx : ToolContext)
  (rawParams : Record_unknown) : ToolResult * list Call :=
  let config := resolvePluginConfig pluginConfig in
  settle
    (action <- lift (readStringParam rawParams "action" true) ;;
     if String.eqb action "place_order" then place_order w config ctx rawParams
     else if String.eqb action "resume" then resume w config ctx rawParams
     else if existsb (String.eqb action) other_actions then respond Unmodelled
     else respond (Failure "unknown_action")).

End Tool.

(** ** Requests and tokens, as the claims speak of them *)

(** A [resume] request that carries [token] and the decision [approve]:
    the three parameters as [execute] reads them. *)
Definition resume_request (rawParams : Record_unknown) (token : string) (approve : bool)
  : Prop :=
  readStringParam rawParams "action" true = inr "resume"
  /\ readStringParam rawParams "token" true = inr token
  /\ JSON.get rawParams "approve" = Some (JBool approve).

(** The token is decodable: the trading key is configured, the token
    verifies under it, and its payload is a pending order. *)
Definition decodes_to (w : World) (config : PluginConfig) (token key : string)
  (pending : PendingOrder) : Prop :=
  resolvePrivateKey w config = Some key
  /\ exists parsed,
       decodeResumeToken token key = inr parsed
       /\ PendingOrder_ofJS parsed = Some pending.

(** The order is not bound to a session, or to the session of the context. *)
Definition session_matches (pending : PendingOrder) (ctx : ToolContext) : Prop :=
  sessionKey pending = None \/ sessionKey pending = ctx_sessionKey ctx.

(** The client can be built: the wallet, the API key and the funder address. *)
Definition client_ready (w : World) (config : PluginConfig) (key : string) : Prop :=
  resolveClobClient w config key = (Normal tt, [CreateOrDeriveApiKey]).

(** The case conversion restricted to ASCII is one instance of the
    interface; the examples below run with it. *)
#[export] Instance ascii_case : UnicodeCase :=
  {| toLowerCase := JSString.lower_ascii;
     toLowerCase_ascii := fun s _ => eq_refl |}.

(** ** The outcome resolver as the specification words it

    The five steps of the specification, on the list of outcome labels and
    the parallel list of instrument ids, with the error kinds it names. *)
Module Spec.

Inductive ResolveError :=
| NoTradableInstruments
| UnknownOutcome
| OutcomeUnresolvable.

Section Resolver.

Context {U : UnicodeCase}.

(** A case-insensitive, trimmed comparison of two labels. *)
Definition same_label (a b : string) : bool :=
  String.eqb (toLowerCase (JSString.trim a)) (toLowerCase (JSString.trim b)).

Definition resolveOutcome (labels instruments : list string) (label : option string)
  : ResolveError + (string * option string) :=
  match instruments with
  | [] => inl NoTradableInstruments
  | first :: _ =>
      match label with
      | Some l =>
          if Nat.eqb (List.length labels) (List.length instruments)
             && negb (Nat.eqb (List.length labels) 0)
          then
            match find (fun pair => same_label (fst pair) l) (combine labels instruments) with
            | Some (lab, ins) => inr (ins, Some lab)
            | None => inl UnknownOutcome
            end
          else if String.eqb (toLowerCase (JSString.trim l)) "yes"
          then inr (first, Some "Yes")
          else if String.eqb (toLowerCase (JSString.trim l)) "no"
          then
            match nth_error instruments 1 with
            | Some second => inr (second, Some "No")
            | None => inl OutcomeUnresolvable
            end
          else inl OutcomeUnresolvable
      | None => inr (first, nth_error labels 0)
      end
  end.

End Resolver.

End Spec.

(** The error thrown by [resolveOutcomeToken] for each kind of the
    specification. *)
Definition resolve_error (outcome : option string) (e : Spec.ResolveError) : Exception :=
  match e with
  | Spec.NoTradableInstruments =>
      Error "Market is missing clobTokenIds; cannot trade via CLOB"
  | Spec.UnknownOutcome =>
      Error ("Unknown outcome: " ++ match outcome with Some o => o | None => "" end)
  | Spec.OutcomeUnresolvable =>
      Error "Provide tokenId (or a resolvable outcome) to place an order"
  end.

(** The caller gave a label: an outcome that is not blank. *)
Definition given_label {U : UnicodeCase} (outcome : option string) : option string :=
  match outcome with
  | Some o =>
      if truthy_string o && truthy_string (normalizeOutcomeLabel o) then Some o else None
  | None => None
  end.

(** The market of the claim: labels Yes and No, instruments T1 and T2. *)
Definition yes_no_market : GammaMarket :=
  {| gm_id := None; gm_slug := None; gm_question := None;
     gm_outcomes := Some (JSON.sq "['Yes','No']");
     gm_clobTokenIds := Some (JSON.sq "['T1','T2']") |}.

(** ** Notions for the properties of the flows *)

(** The order that [resume] hands to the client for a pending order. *)
Definition submitted_order (pending : PendingOrder) : UserOrder :=
  {| tokenID := tokenId pending;
     order_price := price pending;
     order_size := size pending;
     order_side := if String.eqb (side pending) "buy" then BUY else SELL |}.

(** The condition under which [resume] answers [invalid_tick]. *)
Definition tick_misaligned (pending : PendingOrder) (tickSizeStr : string) : bool :=
  Number.isFinite (Number.parseFloat tickSizeStr)
  && negb (isMultipleOfTick (price pending) (Number.parseFloat tickSizeStr)).

(** Whether an answer is a staged order. *)
Definition is_staging (r : ToolResult) : bool :=
  match r with NeedsApproval _ _ => true | _ => false end.

(** No early answer of [m] is a staged order. *)
Definition never_stages {A} (m : M A) : Prop :=
  forall r t, m = (Responded r, t) -> is_staging r = false.

(** Nor is its final value. *)
Definition never_returns_staging (m : M ToolResult) : Prop :=
  forall r t, m = (Normal r, t) -> is_staging r = false.

(** [m] makes no submission, however it ends. *)
Definition quiet {A} (m : M A) : Prop :=
  forallb (fun c => negb (is_submission c)) (snd m) = true.

(** ** Notions for the properties of the numbers *)

(** A number counted in units of [2^-1074], the least positive number: every
    finite number is a whole number of them, [(-1)^s * m * 2^(e + 1074)]. *)
Definition quanta (x : float) : Z :=
  match Prim2SF x with
  | S754_finite s m e => cond_Zopp s (Zpos m * 2 ^ (e + 1074))
  | _ => 0
  end.

(** The integer nearest to a finite number, the greater one of two that are
    as near: [floor (x + 1/2)]. *)
Definition nearest (x : float) : Z :=
  match Prim2SF x with
  | S754_finite s m e =>
      if 0 <=? e then cond_Zopp s (Zpos m * 2 ^ e)
      else (2 * cond_Zopp s (Zpos m) + 2 ^ (- e)) / 2 ^ (1 - e)
  | _ => 0
  end.

(** ** Notions for the properties of the codec *)








(** The payload segment and the signature segment of the token of [o]. *)
Definition payload_segment (o : PendingOrder) : string :=
  Base64url.encode (Utf8.fromString (JSON.stringify (PendingOrder_toJS o))).

Definition signature_segment (o : PendingOrder) (secret : string) : string :=
  signToken (JSON.stringify (PendingOrder_toJS o)) (createTokenKey secret).

(** A string without the separator of the token. *)
Fixpoint dotless (s : string) : bool :=
  match s with
  | EmptyString => true
  | String c r => negb (Ascii.eqb c ".") && dotless r
  end.

(** [s] with its character at [i] changed to [c]. *)
Fixpoint replace_at (i : nat) (c : ascii) (s : string) : string :=
  match s with
  | EmptyString => EmptyString
  | String a r =>
      match i with
      | O => String c r
      | S j => String a (replace_at j c r)
      end
  end.

(** [s] with its character at [i] replaced by the text [r]. *)
Fixpoint splice_at (i : nat) (r : string) (s : string) : string :=
  match s with
  | EmptyString => EmptyString
  | String a rest =>
      match i with
      | O => r ++ rest
      | S j => String a (splice_at j r rest)
      end
  end.

(** The texts of one character: the UTF-8 encoding of one code point. *)
Definition one_character (r : string) : bool :=
  match r with
  | EmptyString => false
  | String b0 rest =>
      match Utf8.lead b0, rest with
      | (Utf8.Start, _, false), EmptyString => true
      | (Utf8.Pending 0 k _, _, _), String b1 EmptyString => Utf8.in_cont k b1
      | (Utf8.Pending 1 k _, _, _), String b1 (String b2 EmptyString) =>
          Utf8.in_cont k b1 && Utf8.in_cont Utf8.c80_BF b2
      | (Utf8.Pending 2 k _, _, _), String b1 (String b2 (String b3 EmptyString)) =>
          Utf8.in_cont k b1 && Utf8.in_cont Utf8.c80_BF b2 && Utf8.in_cont Utf8.c80_BF b3
      | _, _ => false
      end
  end.





(** The text that follows a value does not continue a number. *)
Definition stops (rest : string) : Prop :=
  match rest with
  | EmptyString => True
  | String c _ => JSON.is_numchar c = false
  end.

(** [v] is read back from its text, given fuel for the length of the text. *)
Definition value_ok (v : JValue) : Prop :=
  forall fuel rest,
    (String.length (JSON.stringify v) <= fuel)%nat -> stops rest ->
    JSON.value (S fuel) (JSON.stringify v ++ rest) = Some (v, rest).


(** ** A concrete deployment, for the evaluated statements

    The key, configuration and request of the test suite; the clock and the
    client answers are fixed values. *)
Module Scenario.

Definition privateKey : string :=
  "0x1111111111111111111111111111111111111111111111111111111111111111".

Definition offline {A} : Exception + A := inl (Error "offline").

Definition world (now : float) : World :=
  {| Date_now := now;
     process_env :=
       fun name => if String.eqb name "POLYMARKET_PRIVATE_KEY" then Some privateKey else None;
     fetchMarketBySlug := fun _ => offline;
     fetchMarketById := fun _ => offline;
     walletAddress := fun _ => inr "0xf39Fd6e51aad88F6F4ce6aB8827279cffFb92266";
     createOrDeriveApiKey := inr tt;
     getTickSize := fun _ => inr "0.01";
     getNegRisk := fun _ => inr false;
     createAndPostOrder :=
       fun _ _ => inr {| orderID := Some (JString "order-1");
                         status := Some (JString "live") |} |}.

Definition staged_at : float := 1769655600000.
Definition one_minute_later : float := 1769655660000.
Definition ten_minutes_later : float := 1769656200000.

Definition pluginConfig : option JValue :=
  Some (JObject [("tradeEnabled", JBool true); ("maxNotionalUsd", JNumber 100)]).

Definition ctx : ToolContext :=
  {| sandboxed := false; ctx_sessionKey := Some "sess" |}.

Definition propose (price size : float) : Record_unknown :=
  [("action", JString "place_order"); ("tokenId", JString "token");
   ("side", JString "buy"); ("price", JNumber price); ("size", JNumber size)].

(** The order that [propose 0.62 10] stages at [staged_at]. *)
Definition order : PendingOrder :=
  {| action := "place_order";
     createdAtMs := 1769655600000;
     expiresAtMs := 1769655900000;
     sessionKey := Some "sess";
     market := {| market_id := None; market_slug := Some ""; market_question := None |};
     tokenId := "token";
     side := "buy";
     outcome := Some "";
     price := 0.62;
     size := 10;
     approxNotionalUsd := 6.2 |}.

Definition token : string := Eval vm_compute in encodeResumeToken order privateKey.

(** The same order without an expiry, signed with the same key. *)
Definition order_without_expiry : PendingOrder :=
  {| action := "place_order";
     createdAtMs := 1769655600000;
     expiresAtMs := 0;
     sessionKey := Some "sess";
     market := {| market_id := None; market_slug := Some ""; market_question := None |};
     tokenId := "token";
     side := "buy";
     outcome := Some "";
     price := 0.62;
     size := 10;
     approxNotionalUsd := 6.2 |}.

Definition token_without_expiry : string :=
  Eval vm_compute in encodeResumeToken order_without_expiry privateKey.

Definition resume_with (token : string) (approve : bool) : Record_unknown :=
  [("action", JString "resume"); ("token", JString token); ("approve", JBool approve)].

(** The staged token with the last character of its payload segment, [0],
    changed to [1]: the two differ in the low bits that no byte takes. *)
Definition token_retouched : string := Eval vm_compute in replace_at 282 "1" token.

Definition sandbox : ToolContext :=
  {| sandboxed := true; ctx_sessionKey := Some "sess" |}.

Definition other_session : ToolContext :=
  {| sandboxed := false; ctx_sessionKey := Some "other" |}.

Definition no_session : ToolContext :=
  {| sandboxed := false; ctx_sessionKey := None |}.

End Scenario.

(** * The rest of the tool

    The helpers and the actions of [polymarket-tool.ts] that the approval
    protocol does not go through. *)

(** ** More of the numbers *)

(** [Math.trunc(x)]: the integral part of [x]; a result that is zero keeps
    the sign of [x]. *)
Definition Math_trunc (x : float) : float :=
  match Prim2SF x with
  | S754_finite s m e =>
      if 0 <=? e then x
      else
        let a := Z.shiftr (Zpos m) (- e) in
        if a =? 0 then (if s then PrimFloat.neg_zero else PrimFloat.zero)
        else Number.ofZ (if s then - a else a)
  | _ => x
  end.

(** [Math.min(a, b)] for two numbers; [-0] is below [+0]. *)
Definition Math_min (a b : float) : float :=
  if PrimFloat.is_nan a || PrimFloat.is_nan b then PrimFloat.nan
  else if PrimFloat.ltb a b then a
  else if PrimFloat.ltb b a then b
  else if PrimFloat.get_sign a then a else b.

(** [Number.parseInt(s, 10)] as a number: the digits that follow the white
    space and the sign, rounded to the nearest number; [NaN] without a
    digit. *)
Definition Number_parseInt (s : string) : float :=
  let s0 := JSString.trimStart s in
  let '(neg, s1) :=
    match s0 with
    | String c r =>
        if code c =? 45 then (true, r)
        else if code c =? 43 then (false, r)
        else (false, s0)
    | EmptyString => (false, s0)
    end in
  let '(v, cnt, _) := Number.read_digits s1 0 0 in
  if cnt =? 0 then PrimFloat.nan else Number.ofDecimal neg v 0.

(** ** Helpers of the read-only actions *)

(** [c] repeated [n] times. *)
Fixpoint run_of (c : ascii) (n : nat) : string :=
  match n with O => EmptyString | S m => String c (run_of c m) end.

Fixpoint drop_leading (c : ascii) (s : string) : string :=
  match s with
  | String a r => if Ascii.eqb a c then drop_leading c r else s
  | EmptyString => s
  end.

(** [s.replace(/c+$/, "")] for a character [c]: the run of [c] at the end of
    [s] is removed. *)
Definition drop_trailing (c : ascii) (s : string) : string :=
  string_rev (drop_leading c (string_rev s)).

(** A printable ASCII character that is no white space. *)
Definition plain (c : ascii) : bool := between 33 126 c.

(** [normalizeUrl(value, fallback)]. *)
Definition normalizeUrl (value : option JValue) (fallback : string) : string :=
  let raw := match value with Some (JString v) => JSString.trim v | _ => "" end in
  if negb (truthy_string raw) then fallback else drop_trailing "/" raw.

(** The fields of the configuration that the approval protocol does not
    read. *)
Record Endpoints := {
  clobHost : string;
  gammaHost : string;
  chainId : float
}.

(** [resolvePluginConfig(api)], on the fields kept in [Endpoints]. *)
Definition resolveEndpoints (pluginConfig : option JValue) : Endpoints :=
  let raw := match pluginConfig with Some (JObject ms) => ms | _ => [] end in
  {| clobHost := normalizeUrl (JSON.get raw "clobHost") "https://clob.polymarket.com";
     gammaHost := normalizeUrl (JSON.get raw "gammaHost") "https://gamma-api.polymarket.com";
     chainId := Math_trunc (normalizeNumber (JSON.get raw "chainId") 137) |}.

Fixpoint all_digits (s : string) : bool :=
  match s with
  | EmptyString => true
  | String c r => Number.is_digit c && all_digits r
  end.

(** [/^[0-9]+$/.test(s)]. *)
Definition is_digits (s : string) : bool := truthy_string s && all_digits s.

(** [s.padStart(n, "0")]. *)
Definition padStart0 (s : string) (n : Z) : string :=
  Number.zeros (Z.to_nat n - String.length s) ++ s.

(** [formatUnits(raw, decimals)], for a number of decimals that is an
    integer. *)
Definition formatUnits (raw : string) (decimals : Z) : string :=
  let trimmed := JSString.trim raw in
  if negb (is_digits trimmed) then trimmed
  else if decimals <=? 0 then trimmed
  else
    let pad := padStart0 trimmed (decimals + 1) in
    let cut := (String.length pad - Z.to_nat decimals)%nat in
    let whole := substring 0 cut pad in
    let frac := drop_trailing "0" (substring cut (Z.to_nat decimals) pad) in
    if truthy_string frac then whole ++ "." ++ frac else whole.

(** The natural number that a string of decimal digits denotes. *)
Fixpoint decimal_from (acc : Z) (s : string) : Z :=
  match s with
  | EmptyString => acc
  | String c r => decimal_from (10 * acc + (code c - 48)) r
  end.

Definition decimal (s : string) : Z := decimal_from 0 s.

(** [clampLimit(value, min, max)]. *)
Definition clampLimit (value min max : float) : float :=
  Math.max min (Math_min max value).

(** [normalizeLimit(value)]. *)
Definition normalizeLimit (value : option JValue) : float :=
  let num :=
    match value with
    | Some (JNumber v) => if Number.isFinite v then v else PrimFloat.nan
    | Some (JString v) =>
        if truthy_string (JSString.trim v) then Number_parseInt (JSString.trim v)
        else PrimFloat.nan
    | _ => PrimFloat.nan
    end in
  if negb (Number.isFinite num) then 5%float
  else Math_trunc (clampLimit num 1 25).

(** [items.slice(0, end)] for a number [end]. *)
Definition slice0 {A} (items : list A) (stop : float) : list A :=
  let len := Z.of_nat (List.length items) in
  let k :=
    match Prim2SF stop with
    | S754_nan => 0
    | S754_zero _ => 0
    | S754_infinity s => if s then 0 else len
    | S754_finite _ _ _ =>
        match Number.truncZ stop with
        | Some n => if n <? 0 then Z.max (len + n) 0 else Z.min n len
        | None => 0
        end
    end in
  firstn (Z.to_nat k) items.

(** The alphabet of the tokens: letters, digits, [-] and [_]. *)
Definition is_base64url (c : ascii) : bool :=
  between 65 90 c || between 97 122 c || between 48 57 c
  || (code c =? 45) || (code c =? 95).

Fixpoint base64url_text (s : string) : bool :=
  match s with
  | EmptyString => true
  | String c r => is_base64url c && base64url_text r
  end.

(** How many times [c] occurs in [s]. *)
Fixpoint count_char (c : ascii) (s : string) : nat :=
  match s with
  | EmptyString => O
  | String a r => ((if Ascii.eqb a c then 1 else 0) + count_char c r)%nat
  end.

Definition strings (l : list string) : JValue := JArray (map JString l).

(** The text between the brackets of an array. *)
Definition items_text (items : list JValue) : string :=
  String.concat "," (map JSON.stringify items).

(** ** The venue: what lies outside the tool, for every action *)

Inductive AssetType := COLLATERAL | CONDITIONAL.

(** The answer of [getBalanceAllowance], as the code casts it. *)
Record BalanceAllowance := {
  balance : option string;
  allowances : option JValue
}.

(** The requests of the tool: those of the approval protocol, and those the
    other actions make of the client and of the two hosts. *)
Inductive Request :=
| Asked (c : Call)
| GetBalanceAllowance (asset_type : AssetType) (token_id : option string)
| GetOpenOrders (asset_id : option string)
| GetTrades (asset_id : option string)
| GetOrder (orderId : string)
| CancelOrder (orderID : string)
| CancelAll
| FetchJson (url : string).

(** A request that changes something at the venue. *)
Definition is_mutation (q : Request) : bool :=
  match q with
  | Asked c => is_submission c
  | CancelOrder _ | CancelAll => true
  | _ => false
  end.

(** A request made in the name of the trading key: all but the reads of the
    market data and of the public endpoints. *)
Definition needs_key (q : Request) : bool :=
  match q with
  | Asked (FetchMarketBySlug _) | Asked (FetchMarketById _) | FetchJson _ => false
  | _ => true
  end.

(** The clock, the environment, the market data as the objects that the
    Gamma API sends, the wallet and the client, the constants of the client
    library, and the [URL] class with [fetchJson] behind it. *)
Record Venue := {
  clock : float;
  environment : string -> option string;
  gammaMarketBySlug : string -> Exception + Record_unknown;
  gammaMarketById : string -> Exception + Record_unknown;
  wallet : string -> Exception + string;
  apiKey : Exception + unit;
  tickSizeOf : string -> Exception + string;
  negRiskOf : string -> Exception + bool;
  postOrder : UserOrder -> OrderOptions -> Exception + OrderResponse;
  COLLATERAL_TOKEN_DECIMALS : Z;
  CONDITIONAL_TOKEN_DECIMALS : Z;
  getBalanceAllowance : AssetType -> option string -> Exception + option BalanceAllowance;
  getOpenOrders : option string -> Exception + JValue;
  getTrades : option string -> Exception + list JValue;
  getOrder : string -> Exception + JValue;
  cancelOrder : string -> Exception + JValue;
  cancelAll : Exception + JValue;
  newURL : string -> list (string * string) -> Exception + string;
  fetchJson : string -> Exception + JValue
}.

(** The object that the Gamma API sent, read at the type [GammaMarket]. *)
Definition GammaMarket_ofJS (ms : Record_unknown) : GammaMarket :=
  {| gm_id := get_string ms "id";
     gm_slug := get_string ms "slug";
     gm_question := get_string ms "question";
     gm_outcomes := get_string ms "outcomes";
     gm_clobTokenIds := get_string ms "clobTokenIds" |}.

Definition typed (x : Exception + Record_unknown) : Exception + GammaMarket :=
  match x with inl e => inl e | inr ms => inr (GammaMarket_ofJS ms) end.

(** The part of the venue that the approval protocol meets. *)
Definition world_of (v : Venue) : World :=
  {| Date_now := clock v;
     process_env := environment v;
     fetchMarketBySlug := fun slug => typed (gammaMarketBySlug v slug);
     fetchMarketById := fun id => typed (gammaMarketById v id);
     walletAddress := wallet v;
     createOrDeriveApiKey := apiKey v;
     getTickSize := tickSizeOf v;
     getNegRisk := negRiskOf v;
     createAndPostOrder := postOrder v |}.

(** ** Control flow of the other actions *)

(** What [execute] answers, for every action. *)
Inductive Reply :=
| Told (r : ToolResult)
    (** a failure, or an answer of [place_order] or [resume] *)
| Details (payload : JValue).
    (** the payload of an action that succeeded *)

Inductive Step (A : Type) :=
| Went (a : A)
| Replied (r : Reply)
| Raised (e : Exception).

Arguments Went {A} a.
Arguments Replied {A} r.
Arguments Raised {A} e.

Definition Run (A : Type) : Type := Step A * list Request.

Definition went {A} (a : A) : Run A := (Went a, []).
Definition reply {A} (r : Reply) : Run A := (Replied r, []).
Definition fail {A} (type : string) : Run A := reply (Told (Failure type)).
Definition raise {A} (e : Exception) : Run A := (Raised e, []).

Definition andThen {A B} (m : Run A) (k : A -> Run B) : Run B :=
  match m with
  | (Went a, t) => let '(o, t') := k a in (o, (t ++ t')%list)
  | (Replied r, t) => (Replied r, t)
  | (Raised e, t) => (Raised e, t)
  end.

Notation "x <~ m ;; k" := (andThen m (fun x => k))
  (at level 61, m at next level, right associativity).
Notation "m ~;; k" := (andThen m (fun _ => k))
  (at level 61, right associativity).

(** A step of the approval protocol, taken by another action. *)
Definition embed {A} (m : M A) : Run A :=
  (match fst m with
   | Normal a => Went a
   | Responded r => Replied (Told r)
   | Threw e => Raised e
   end, map Asked (snd m)).

Definition read {A} (x : Exception + A) : Run A :=
  match x with inl e => raise e | inr a => went a end.

Definition ask {A} (q : Request) (x : Exception + A) : Run A :=
  (match x with inl e => Raised e | inr a => Went a end, [q]).

Definition fail_if (c : bool) (type : string) : Run unit :=
  if c then fail type else went tt.

(** The [try] ... [catch] of [execute]. *)
Definition finish (m : Run Reply) : Reply * list Request :=
  match m with
  | (Went r, t) => (r, t)
  | (Replied r, t) => (r, t)
  | (Raised e, t) => (Told (Caught e), t)
  end.

Definition ok (fields : list (string * JValue)) : Reply :=
  Details (JObject ([("ok", JBool true); ("status", JString "ok")] ++ fields)%list).

(** [{ id: market.id ?? undefined, slug: ..., question: ... }]. *)
Definition market_summary (market : GammaMarket) : JValue :=
  JObject (optional "id" (gm_id market) ++ optional "slug" (gm_slug market)
           ++ optional "question" (gm_question market))%list.

Section Actions.

Context {U : UnicodeCase}.

Variable v : Venue.
Variable pluginConfig : option JValue.
Variable ctx : ToolContext.
Variable rawParams : Record_unknown.

Let w := world_of v.
Let config := resolvePluginConfig pluginConfig.
Let endpoints := resolveEndpoints pluginConfig.

(** The client of an action that needs the trading key. *)
Definition with_client : Run unit :=
  match resolvePrivateKey w config with
  | None => fail "missing_private_key"
  | Some privateKey => embed (resolveClobClient w config privateKey)
  end.

(** The [status] action. *)
Definition status_action : Run Reply :=
  let envVarPresent := match resolvePrivateKey w config with Some _ => true | None => false end in
  let allow := or_empty (allowedMarketSlugs config) in
  let shown :=
    if (25 <? List.length allow)%nat
    then filter truthy_string
           [nth 0 allow ""; nth 1 allow ""; nth 2 allow "";
            "..." ++ Number.digits (Z.of_nat (List.length allow)) ++ " total slugs..."]
    else allow in
  went (ok [("config",
             JObject
               [("clobHost", JString (clobHost endpoints));
                ("gammaHost", JString (gammaHost endpoints));
                ("chainId", JNumber (chainId endpoints));
                ("signatureType", JNumber (Number.ofZ (signatureType config)));
                ("funderAddress",
                 JString (if truthy_option (funderAddress config)
                          then "(configured)" else "(unset)"));
                ("tradeEnabled", JBool (tradeEnabled config));
                ("maxNotionalUsd", JNumber (maxNotionalUsd config));
                ("allowedMarketSlugs", strings shown);
                ("privateKeyEnvVar", JString (privateKeyEnvVar config));
                ("privateKeyPresent", JBool envVarPresent)])]).

Definition balance_of (b : option BalanceAllowance) : string :=
  match b with
  | Some {| balance := Some raw |} => raw
  | _ => "0"
  end.

(** The [balances] action. *)
Definition balances_action : Run Reply :=
  with_client ~;;
  collateral <~ ask (GetBalanceAllowance COLLATERAL None)
                    (getBalanceAllowance v COLLATERAL None) ;;
  let raw := balance_of collateral in
  went (ok [("collateral",
             JObject
               [("balanceRaw", JString raw);
                ("balance", JString (formatUnits raw (COLLATERAL_TOKEN_DECIMALS v)));
                ("allowances",
                 match collateral with
                 | Some {| allowances := Some a |} => a
                 | _ => JObject []
                 end)])]).

(** The body of the loop of [positions], once for each index of [outcomes]. *)
Fixpoint position_entries (normalizedOutcome : option string)
  (pairs : list (string * string)) : Run (list JValue) :=
  match pairs with
  | [] => went []
  | (label, tokenId) :: rest =>
      if negb (truthy_string label) || negb (truthy_string tokenId)
      then position_entries normalizedOutcome rest
      else if truthy_option normalizedOutcome
              && negb (String.eqb (normalizeOutcomeLabel label)
                         (match normalizedOutcome with Some n => n | None => "" end))
      then position_entries normalizedOutcome rest
      else
        bal <~ ask (GetBalanceAllowance CONDITIONAL (Some tokenId))
                   (getBalanceAllowance v CONDITIONAL (Some tokenId)) ;;
        let raw := balance_of bal in
        entries <~ position_entries normalizedOutcome rest ;;
        went (JObject [("outcome", JString label); ("tokenId", JString tokenId);
                       ("balanceRaw", JString raw);
                       ("balance", JString (formatUnits raw (CONDITIONAL_TOKEN_DECIMALS v)))]
              :: entries)
  end.

(** [(outcomes[i] ?? "", tokenIds[i] ?? "")] for each index [i] of [over]. *)
Definition by_index (over outcomes tokenIds : list string) : list (string * string) :=
  map (fun i => (nth i outcomes "", nth i tokenIds "")) (seq 0 (List.length over)).

(** The [positions] action. *)
Definition positions_action : Run Reply :=
  marketSlug <~ read (readStringParam rawParams "marketSlug" false) ;;
  marketId <~ read (readStringParam rawParams "marketId" false) ;;
  outcome <~ read (readStringParam rawParams "outcome" false) ;;
  market <~ embed (resolveGammaMarket w marketId marketSlug) ;;
  let outcomes := or_empty (parseJsonStringArray (gm_outcomes market)) in
  let tokenIds := or_empty (parseJsonStringArray (gm_clobTokenIds market)) in
  fail_if (Nat.eqb (List.length outcomes) 0 || Nat.eqb (List.length tokenIds) 0
           || negb (Nat.eqb (List.length outcomes) (List.length tokenIds)))
    "missing_tokens" ~;;
  with_client ~;;
  let normalizedOutcome :=
    if truthy_string outcome then Some (normalizeOutcomeLabel outcome) else None in
  entries <~ position_entries normalizedOutcome (by_index outcomes outcomes tokenIds) ;;
  went (ok [("market", market_summary market); ("positions", JArray entries)]).

(** The instruments that [open_orders] and [trades] look at for a market:
    the one of the outcome that was given, or all of them. *)
Definition targets (marketId marketSlug outcome : string)
  : Run (GammaMarket * list (string * option string)) :=
  market <~ embed (resolveGammaMarket w marketId marketSlug) ;;
  let outcomes := or_empty (parseJsonStringArray (gm_outcomes market)) in
  let tokenIds := or_empty (parseJsonStringArray (gm_clobTokenIds market)) in
  fail_if (Nat.eqb (List.length outcomes) 0 || Nat.eqb (List.length tokenIds) 0
           || negb (Nat.eqb (List.length outcomes) (List.length tokenIds)))
    "missing_tokens" ~;;
  if truthy_string outcome then
    resolved <~ read (resolveOutcomeToken market (Some outcome)) ;;
    went (market, [resolved])
  else
    went (market,
          map (fun i => (nth i tokenIds "", nth_error outcomes i))
              (seq 0 (List.length tokenIds))).

Definition target_fields (entry : string * option string) : list (string * JValue) :=
  (("tokenId", JString (fst entry)) :: optional "outcome" (snd entry))%list.

(** The loop of [open_orders] over its targets. *)
Fixpoint open_orders_of (entries : list (string * option string)) : Run (list JValue) :=
  match entries with
  | [] => went []
  | entry :: rest =>
      if negb (truthy_string (fst entry)) then open_orders_of rest
      else
        orders <~ ask (GetOpenOrders (Some (fst entry)))
                      (getOpenOrders v (Some (fst entry))) ;;
        results <~ open_orders_of rest ;;
        went (JObject (target_fields entry ++ [("orders", orders)])%list :: results)
  end.

(** The [open_orders] action. *)
Definition open_orders_action : Run Reply :=
  with_client ~;;
  tokenId <~ read (readStringParam rawParams "tokenId" false) ;;
  marketSlug <~ read (readStringParam rawParams "marketSlug" false) ;;
  marketId <~ read (readStringParam rawParams "marketId" false) ;;
  outcome <~ read (readStringParam rawParams "outcome" false) ;;
  if truthy_string tokenId then
    orders <~ ask (GetOpenOrders (Some tokenId)) (getOpenOrders v (Some tokenId)) ;;
    went (ok [("tokenId", JString tokenId); ("orders", orders)])
  else if truthy_string marketSlug || truthy_string marketId then
    found <~ targets marketId marketSlug outcome ;;
    results <~ open_orders_of (snd found) ;;
    went (ok [("market", market_summary (fst found)); ("results", JArray results)])
  else
    orders <~ ask (GetOpenOrders None) (getOpenOrders v None) ;;
    went (ok [("orders", orders)]).

(** The loop of [trades] over its targets. *)
Fixpoint trades_of (limit : float) (entries : list (string * option string))
  : Run (list JValue) :=
  match entries with
  | [] => went []
  | entry :: rest =>
      if negb (truthy_string (fst entry)) then trades_of limit rest
      else
        trades <~ ask (GetTrades (Some (fst entry))) (getTrades v (Some (fst entry))) ;;
        results <~ trades_of limit rest ;;
        went (JObject (target_fields entry
                       ++ [("trades", JArray (slice0 trades limit))])%list :: results)
  end.

(** The [trades] action. *)
Definition trades_action : Run Reply :=
  with_client ~;;
  tokenId <~ read (readStringParam rawParams "tokenId" false) ;;
  marketSlug <~ read (readStringParam rawParams "marketSlug" false) ;;
  marketId <~ read (readStringParam rawParams "marketId" false) ;;
  outcome <~ read (readStringParam rawParams "outcome" false) ;;
  let limit := normalizeLimit (JSON.get rawParams "limit") in
  if truthy_string tokenId then
    trades <~ ask (GetTrades (Some tokenId)) (getTrades v (Some tokenId)) ;;
    went (ok [("tokenId", JString tokenId); ("trades", JArray (slice0 trades limit))])
  else if truthy_string marketSlug || truthy_string marketId then
    found <~ targets marketId marketSlug outcome ;;
    results <~ trades_of limit (snd found) ;;
    went (ok [("market", market_summary (fst found)); ("results", JArray results)])
  else
    trades <~ ask (GetTrades None) (getTrades v None) ;;
    went (ok [("trades", JArray (slice0 trades limit))]).

(** The [order] action. *)
Definition order_action : Run Reply :=
  orderId <~ read (readStringParam rawParams "orderId" true) ;;
  with_client ~;;
  order <~ ask (GetOrder orderId) (getOrder v orderId) ;;
  went (ok [("orderId", JString orderId); ("order", order)]).

(** The [cancel_order] action. *)
Definition cancel_order_action : Run Reply :=
  fail_if (sandboxed ctx) "sandboxed" ~;;
  orderId <~ read (readStringParam rawParams "orderId" true) ;;
  with_client ~;;
  result <~ ask (CancelOrder orderId) (cancelOrder v orderId) ;;
  went (ok [("orderId", JString orderId); ("result", result)]).

(** The [cancel_all] action. *)
Definition cancel_all_action : Run Reply :=
  fail_if (sandboxed ctx) "sandboxed" ~;;
  fail_if (negb match JSON.get rawParams "confirm" with
                | Some (JBool true) => true
                | _ => false
                end) "confirmation_required" ~;;
  with_client ~;;
  result <~ ask CancelAll (cancelAll v) ;;
  went (ok [("result", result)]).

(** The [search] action. *)
Definition search_action : Run Reply :=
  query <~ read (readStringParam rawParams "query" true) ;;
  let limit := normalizeLimit (JSON.get rawParams "limit") in
  url <~ read (newURL v (gammaHost endpoints ++ "/public-search")
                 [("q", query); ("limit_per_type", Number.toString limit);
                  ("search_profiles", "false"); ("search_tags", "false")]) ;;
  data <~ ask (FetchJson url) (fetchJson v url) ;;
  went (ok [("query", JString query); ("results", data)]).

(** The object that [resolveGammaMarket] resolves to, for the [market]
    action, which spreads it. *)
Definition resolveGammaObject (marketId marketSlug : string) : Run Record_unknown :=
  if truthy_string marketSlug
  then ask (Asked (FetchMarketBySlug marketSlug)) (gammaMarketBySlug v marketSlug)
  else if truthy_string marketId
  then ask (Asked (FetchMarketById marketId)) (gammaMarketById v marketId)
  else raise (Error "marketSlug or marketId required").

(** The members of [{ ...market, k: x }]: a property [k] of [market] takes
    the new value where it stands, and a new property comes last. *)
Definition assign (ms : list (string * JValue)) (k : string) (x : JValue)
  : list (string * JValue) :=
  if existsb (fun kv => String.eqb (fst kv) k) ms
  then map (fun kv => if String.eqb (fst kv) k then (k, x) else kv) ms
  else (ms ++ [(k, x)])%list.

(** The [market] action. *)
Definition market_action : Run Reply :=
  marketSlug <~ read (readStringParam rawParams "marketSlug" false) ;;
  marketId <~ read (readStringParam rawParams "marketId" false) ;;
  market <~ resolveGammaObject marketId marketSlug ;;
  let parsed k := strings (or_empty (parseJsonStringArray (get_string market k))) in
  went (ok [("market",
             JObject
               (assign (assign (assign market "outcomesParsed" (parsed "outcomes"))
                          "outcomePricesParsed" (parsed "outcomePrices"))
                  "clobTokenIdsParsed" (parsed "clobTokenIds")))]).

(** The [orderbook] action. *)
Definition orderbook_action : Run Reply :=
  tokenId <~ read (readStringParam rawParams "tokenId" true) ;;
  url <~ read (newURL v (clobHost endpoints ++ "/book") [("token_id", tokenId)]) ;;
  book <~ ask (FetchJson url) (fetchJson v url) ;;
  went (ok [("tokenId", JString tokenId); ("book", book)]).

(** The answer of an action of the approval protocol, among the others. *)
Definition protocol (m : M ToolResult) : Run Reply :=
  r <~ embed m ;; went (Told r).

(** [createPolymarketTool({ api, ctx }).execute(_, rawParams)], for every
    action. *)
Definition execute_action : Reply * list Request :=
  finish
    (action <~ read (readStringParam rawParams "action" true) ;;
     if String.eqb action "status" then status_action
     else if String.eqb action "balances" then balances_action
     else if String.eqb action "positions" then positions_action
     else if String.eqb action "open_orders" then open_orders_action
     else if String.eqb action "trades" then trades_action
     else if String.eqb action "order" then order_action
     else if String.eqb action "cancel_order" then cancel_order_action
     else if String.eqb action "cancel_all" then cancel_all_action
     else if String.eqb action "search" then search_action
     else if String.eqb action "market" then market_action
     else if String.eqb action "orderbook" then orderbook_action
     else if String.eqb action "place_order" then protocol (place_order w config ctx rawParams)
     else if String.eqb action "resume" then protocol (resume w config ctx rawParams)
     else fail "unknown_action").

End Actions.

(** ** Notions for the properties of the other actions *)

(** A read of the account: an order, the open orders, the trades or the
    balance of the collateral. *)
Definition is_account_read (q : Request) : bool :=
  match q with
  | GetOrder _ | GetOpenOrders _ | GetTrades _ | GetBalanceAllowance COLLATERAL _ => true
  | _ => false
  end.


Definition is_unreserved (c : ascii) : bool :=
  let n := nat_of_ascii c in
  ((48 <=? n) && (n <=? 57) || (65 <=? n) && (n <=? 90) || (97 <=? n) && (n <=? 122)
   || existsb (Nat.eqb n) [45; 95; 46; 33; 126; 42; 39; 40; 41])%nat.

Definition hex_digit (n : nat) : ascii :=
  nth n (list_ascii_of_string "0123456789ABCDEF") "0"%char.

(** [encodeURIComponent(s)] for a well-formed string, over its UTF-8 bytes:
    a letter, a digit and each of [- _ . ! ~ * ' ( )] stands for itself,
    every other byte is [%XX] in upper-case hexadecimal. *)
Fixpoint encodeURIComponent (s : string) : string :=
  match s with
  | EmptyString => EmptyString
  | String c rest =>
      (if is_unreserved c then String c EmptyString
       else String "%" (String (hex_digit (nat_of_ascii c / 16))
                          (String (hex_digit (nat_of_ascii c mod 16)) EmptyString)))
      ++ encodeURIComponent rest
  end.


(** The instruments that a reading of a market looks at: those that the
    market lists, or the one of the outcome when one is given. *)
Definition in_scope_of {U : UnicodeCase} (w : World) (marketId marketSlug outcome : string)
  (t : string) : Prop :=
  exists market,
    fst (resolveGammaMarket w marketId marketSlug) = Normal market
    /\ if truthy_string outcome
       then exists label, resolveOutcomeToken market (Some outcome) = inr (t, label)
       else In t (or_empty (parseJsonStringArray (gm_clobTokenIds market))).

(** What [open_orders] and [trades] may ask for, given their parameters: the
    instrument that is named, or those of the market that is named, or
    everything. *)
Definition asset_in_scope {U : UnicodeCase} (w : World) (rawParams : Record_unknown)
  (asset_id : option string) : Prop :=
  exists tokenId marketSlug marketId outcome,
    readStringParam rawParams "tokenId" false = inr tokenId
    /\ readStringParam rawParams "marketSlug" false = inr marketSlug
    /\ readStringParam rawParams "marketId" false = inr marketId
    /\ readStringParam rawParams "outcome" false = inr outcome
    /\ if truthy_string tokenId then asset_id = Some tokenId
       else if truthy_string marketSlug || truthy_string marketId
       then exists t, asset_id = Some t /\ t <> ""
                      /\ in_scope_of w marketId marketSlug outcome t
       else asset_id = None.

(** ** A venue for the examples *)

Module Desk.

(** The object that the Gamma API sends for the market of the examples. *)
Definition rain : Record_unknown :=
  [("id", JString "512"); ("slug", JString "will-it-rain");
   ("question", JString "Will it rain?");
   ("outcomes", JString (JSON.sq "['Yes','No']"));
   ("outcomePrices", JString (JSON.sq "['0.62','0.38']"));
   ("clobTokenIds", JString (JSON.sq "['T1','T2']"));
   ("active", JBool true)].

Definition keyed (name : string) : option string :=
  if String.eqb name "POLYMARKET_PRIVATE_KEY" then Some Scenario.privateKey else None.

Definition keyless (name : string) : option string := None.

Definition venue (now : float) (env : string -> option string) : Venue :=
  {| clock := now;
     environment := env;
     gammaMarketBySlug :=
       fun slug => if String.eqb slug "will-it-rain" then inr rain
                   else inl (Error "HTTP 404: Not Found");
     gammaMarketById :=
       fun id => if String.eqb id "512" then inr rain
                 else inl (Error "HTTP 404: Not Found");
     wallet := fun _ => inr "0xf39Fd6e51aad88F6F4ce6aB8827279cffFb92266";
     apiKey := inr tt;
     tickSizeOf := fun _ => inr "0.01";
     negRiskOf := fun _ => inr false;
     postOrder :=
       fun _ _ => inr {| orderID := Some (JString "order-1");
                         status := Some (JString "live") |};
     COLLATERAL_TOKEN_DECIMALS := 6;
     CONDITIONAL_TOKEN_DECIMALS := 6;
     getBalanceAllowance :=
       fun _ _ => inr (Some {| balance := Some "1234500"; allowances := None |});
     getOpenOrders := fun _ => inr (JArray []);
     getTrades := fun _ => inr [];
     getOrder := fun _ => inr (JObject []);
     cancelOrder := fun _ => inr (JObject []);
     cancelAll := inr (JObject []);
     newURL :=
       fun base query =>
         inr (base ++ "?"
              ++ String.concat "&" (map (fun kv => fst kv ++ "=" ++ snd kv) query));
     fetchJson := fun _ => inr (JObject []) |}.

(** Trading enabled, for the one market of the examples. *)
Definition pluginConfig : option JValue :=
  Some (JObject [("tradeEnabled", JBool true); ("maxNotionalUsd", JNumber 100);
                 ("allowedMarketSlugs", JArray [JString "will-it-rain"])]).

(** A proposal to buy the outcome [No] of that market. *)
Definition propose : Record_unknown :=
  [("action", JString "place_order"); ("marketSlug", JString "will-it-rain");
   ("outcome", JString "no"); ("side", JString "BUY");
   ("price", JNumber 0.62); ("size", JNumber 10)].

(** The order that [propose] stages at [Scenario.staged_at]. *)
Definition order : PendingOrder :=
  {| action := "place_order";
     createdAtMs := 1769655600000;
     expiresAtMs := 1769655900000;
     sessionKey := Some "sess";
     market := {| market_id := Some "512"; market_slug := Some "will-it-rain";
                  market_question := Some "Will it rain?" |};
     tokenId := "T2";
     side := "buy";
     outcome := Some "No";
     price := 0.62;
     size := 10;
     approxNotionalUsd := 6.2 |}.

Definition token : string :=
  Eval vm_compute in encodeResumeToken order Scenario.privateKey.

Definition request (action : string) (more : Record_unknown) : Record_unknown :=
  ("action", JString action) :: more.

Definition cancel : Record_unknown :=
  request "cancel_order" [("orderId", JString " order-1 ")].

Definition positions : Record_unknown :=
  request "positions" [("marketSlug", JString "will-it-rain"); ("outcome", JString " NO ")].

Definition market_by_id : Record_unknown :=
  request "market" [("marketId", JString "512")].


Definition trades : Record_unknown :=
  request "trades" [("marketId", JString "512"); ("outcome", JString "Yes");
                    ("limit", JNumber 2)].

Definition search : Record_unknown :=
  request "search" [("query", JString " rain "); ("limit", JString "1000")].

(** An approval that is not a boolean. *)
Definition unapproved : Record_unknown :=
  request "resume" [("token", JString token); ("approve", JString "true")].

Definition desk : Venue := venue Scenario.staged_at keyed.
Definition later : Venue := venue Scenario.one_minute_later keyed.
Definition unkeyed : Venue := venue Scenario.staged_at keyless.

End Desk.

(** * Checks of the model against known values *)

Example trim_examples :
  JSString.trim "  Yes  " = "Yes" /\
  JSString.trim (String (chr 9) (String (chr 194) (String (chr 160) "a b"))) = "a b" /\
  JSString.trim ("x" ++ String (chr 226) (String (chr 128) (String (chr 168) ""))) = "x" /\
  JSString.trim "   " = "" /\
  JSString.split "." "ab.cd" = ["ab"; "cd"] /\
  JSString.split "." "" = [""] /\
  JSString.split "." "a..b" = ["a"; ""; "b"].
Proof. by_evaluation. Qed.

Example number_text_examples :
  Number.toString 0.62%float = "0.62" /\
  Number.toString 6.2%float = "6.2" /\
  Number.toString 10%float = "10" /\
  Number.toString 1769655600000%float = "1769655600000" /\
  Number.toString 1e21%float = "1e+21" /\
  Number.toString 123456789012345680000%float = "123456789012345680000" /\
  Number.toString 1e-7%float = "1e-7" /\
  Number.toString 0.000001%float = "0.000001" /\
  Number.toString 1.5e-10%float = "1.5e-10" /\
  Number.toString (0.1 + 0.2)%float = "0.30000000000000004" /\
  Number.toString 5e-324%float = "5e-324" /\
  Number.toString 1.7976931348623157e308%float = "1.7976931348623157e+308" /\
  Number.toString (-0.5)%float = "-0.5" /\
  Number.toString 9007199254740993%float = "9007199254740992" /\
  Number.toString 100%float = "100" /\
  Number.toString 0.3%float = "0.3".
Proof. by_evaluation. Qed.

Example number_read_examples :
  Number.parseFloat "0.01" = 0.01%float /\
  Number.parseFloat " 0.001abc" = 0.001%float /\
  Number.parseFloat "1e-2" = 0.01%float /\
  Number.parseFloat ".5" = 0.5%float /\
  Number.parseFloat "5." = 5%float /\
  Number.parseFloat "-Infinity" = PrimFloat.neg_infinity /\
  PrimFloat.is_nan (Number.parseFloat "abc") = true /\
  PrimFloat.is_nan (Number.parseFloat ".") = true /\
  Number.parseFloat "0" = 0%float /\
  Number.parseFloat "1e999" = PrimFloat.infinity /\
  Number.parseFloat "2.2250738585072011e-308" = 2.2250738585072011e-308%float /\
  Number.parseFloat "0.30000000000000004" = (0.1 + 0.2)%float /\
  Number.ofJSONToken "01" = None /\
  Number.ofJSONToken "1." = None /\
  Number.ofJSONToken "-0.5e1" = Some (-5)%float /\
  Number.ofJSONToken "1769655600000" = Some 1769655600000%float /\
  Number.parseInt " 12px" = Some 12 /\
  Number.parseInt "x" = None.
Proof. by_evaluation. Qed.

Example sha256_test_vectors :
  SHA256.hex (SHA256.digest (Utf8.fromString "abc"))
  = "ba7816bf8f01cfea414140de5dae2223b00361a396177a9cb410ff61f20015ad" /\
  SHA256.hex (SHA256.digest [])
  = "e3b0c44298fc1c149afbf4c8996fb92427ae41e4649b934ca495991b7852b855" /\
  SHA256.hex (SHA256.digest (Utf8.fromString
      "abcdbcdecdefdefgefghfghighijhijkijkljklmklmnlmnomnopnopq"))
  = "248d6a61d20638b8e5c026930c3e6039a33ce45964ff2167f6ecedd419db06c1" /\
  SHA256.hex (SHA256.hmac (Utf8.fromString "key")
      (Utf8.fromString "The quick brown fox jumps over the lazy dog"))
  = "f7bc83f430538424b13298e6aa6fb143ef4d59a14946175997479dbc2d1a3cd8" /\
  SHA256.hex (SHA256.hmac (Utf8.fromString "Jefe")
      (Utf8.fromString "what do ya want for nothing?"))
  = "5bdcc146bf60754e6a042426089575c75a003f089d2739839dec58b964ec3843".
Proof. by_evaluation. Qed.

Example base64url_examples :
  Base64url.encode (Utf8.fromString "a") = "YQ" /\
  Base64url.encode (Utf8.fromString "ab") = "YWI" /\
  Base64url.encode (Utf8.fromString "abc") = "YWJj" /\
  Base64url.encode [chr 251; chr 255] = "-_8" /\
  Base64url.decode "YWJj" = Utf8.fromString "abc" /\
  Base64url.decode "YQ" = Utf8.fromString "a" /\
  Base64url.decode "YR" = Utf8.fromString "a" /\
  Base64url.decode "+/8" = [chr 251; chr 255] /\
  Base64url.decode "Y W.Jj" = Utf8.fromString "abc" /\
  Base64url.decode "YQ==YWJj" = Utf8.fromString "a" /\
  Base64url.units (String (chr 195) (String (chr 169) "Q")) = String (chr 233) "Q" /\
  Base64url.decode (String "Y" (String (chr 195) (String (chr 169) "Q")))
  = Utf8.fromString "a" /\
  Base64url.units (String (chr 197) (String (chr 153) "Q")) = "YQ" /\
  Base64url.decode (String (chr 197) (String (chr 153) "Q")) = Utf8.fromString "a" /\
  Base64url.units (String (chr 226) (String (chr 129) (String (chr 153) "Q"))) = "YQ" /\
  Base64url.units
    (String (chr 240) (String (chr 159) (String (chr 152) (String (chr 128) "Q"))))
  = String "=" (String (chr 0) "Q") /\
  Base64url.units (String (chr 195) "Q") = String (chr 195) "Q".
Proof. by_evaluation. Qed.

Example utf8_examples :
  Utf8.toString [chr 97; chr 195; chr 169] = String "a" (String (chr 195) (String (chr 169) "")) /\
  Utf8.toString [chr 97; chr 195] = String "a" (string_of_list_ascii Utf8.replacement) /\
  Utf8.toString [chr 195; chr 97] = string_of_list_ascii (Utf8.replacement ++ [chr 97])%list /\
  Utf8.toString [chr 237; chr 160; chr 128]
  = string_of_list_ascii (Utf8.replacement ++ Utf8.replacement ++ Utf8.replacement)%list /\
  Utf8.well_formed (String (chr 226) (String (chr 130) (String (chr 172) "x"))) = true /\
  Utf8.well_formed (String (chr 192) (String (chr 128) "")) = false.
Proof. by_evaluation. Qed.

Example json_examples :
  JSON.parse (JSON.sq "['Yes','No']") = Some (JArray [JString "Yes"; JString "No"]) /\
  JSON.parse (JSON.sq " { 'a' : 1.5 , 'b' : [ true , null , {} ] } ")
  = Some (JObject [("a", JNumber 1.5); ("b", JArray [JBool true; JNull; JObject []])]) /\
  JSON.parse (JSON.sq "'a\u00e9\n\ud83d\ude00'")
  = Some (JString (String "a" (String (chr 195) (String (chr 169) (String (chr 10)
       (String (chr 240) (String (chr 159) (String (chr 152) (String (chr 128) "")))))))))  /\
  JSON.parse "[1,]" = None /\
  JSON.parse "01" = None /\
  JSON.parse "1 2" = None /\
  JSON.parse "" = None /\
  JSON.parse "nulll" = None /\
  JSON.parse "-0" = Some (JNumber (-0)%float) /\
  JSON.stringify (JObject [("a", JNumber 0.5); ("b", JString (JSON.sq "x'y")); ("c", JArray [JNull; JBool false])])
  = JSON.sq "{'a':0.5,'b':'x\'y','c':[null,false]}" /\
  JSON.stringify (JString (String (chr 1) (String (chr 10) "z"))) = JSON.sq "'\u0001\nz'".
Proof. by_evaluation. Qed.

Example round_examples :
  Math.round 61.5%float = 62%float /\
  Math.round 2.5%float = 3%float /\
  Math.round (-2.5)%float = (-2)%float /\
  Math.round 0.49999999999999994%float = 0%float /\
  Math.round (-0.2)%float = PrimFloat.neg_zero /\
  Math.round 4503599627370497%float = 4503599627370497%float.
Proof. by_evaluation. Qed.

Example tick_examples :
  isMultipleOfTick 0.615%float 0.01%float = false /\
  isMultipleOfTick 0.61%float 0.01%float = true /\
  isMultipleOfTick 0.614%float 0.01%float = false /\
  isMultipleOfTick (-0.61)%float 0.01%float = true /\
  quanta 1%float = 2 ^ 1074 /\
  quanta (-1.5)%float = - (3 * 2 ^ 1073) /\
  quanta 1e-9%float = 4835703278458517 * 2 ^ 992 /\
  nearest (0.61 / 0.01)%float = 61 /\
  quanta (0.61 / 0.01)%float - 61 * 2 ^ 1074 = 0 /\
  isMultipleOfTick 0.07%float 0.01%float = true /\
  quanta (0.07 / 0.01)%float - 7 * 2 ^ 1074 = 2 ^ 1024 /\
  isMultipleOfTick 0.29%float 0.01%float = true /\
  quanta (0.29 / 0.01)%float - 29 * 2 ^ 1074 = - 2 ^ 1026 /\
  nearest (0.615 / 0.01)%float = 62 /\
  quanta (0.615 / 0.01)%float - 62 * 2 ^ 1074 = - 2 ^ 1073 /\
  nearest (-2.5)%float = -2 /\
  nearest 0.49999999999999994%float = 0.
Proof. by_evaluation. Qed.

Example encodeURIComponent_examples :
  encodeURIComponent "will-it-rain" = "will-it-rain" /\
  encodeURIComponent "will it rain?" = "will%20it%20rain%3F" /\
  encodeURIComponent "a/b&c=d" = "a%2Fb%26c%3Dd" /\
  encodeURIComponent "A-Z_a.z!~*'()09" = "A-Z_a.z!~*'()09" /\
  encodeURIComponent (String (chr 195) (String (chr 169) "")) = "%C3%A9".
Proof. by_evaluation. Qed.

(** * Properties *)

(** ** Numbers *)

Lemma SFcompare_antisym a b :
  SFcompare b a = option_map CompOpp (SFcompare a b).
Proof.
  destruct a as [[]|[]| |[] ma ea], b as [[]|[]| |[] mb eb]; simpl; try reflexivity;
    rewrite (Z.compare_antisym ea eb);
    destruct (ea ?= eb) eqn:E; simpl; try reflexivity;
    try rewrite CompOpp_involutive; f_equal;
    try (symmetry; exact (Pos.compare_cont_antisym ma mb Eq));
    try (rewrite <- (CompOpp_involutive (PosDef.Pos.compare_cont Eq ma mb)) at 1;
         f_equal; symmetry; exact (Pos.compare_cont_antisym ma mb Eq)).
Qed.

Lemma SFcompare_total a b :
  a <> S754_nan -> b <> S754_nan -> SFcompare a b <> None.
Proof.
  destruct a as [[]|[]| |[] ma ea], b as [[]|[]| |[] mb eb]; simpl; intros; congruence.
Qed.

Lemma is_nan_spec x : PrimFloat.is_nan x = true <-> Prim2SF x = S754_nan.
Proof.
  unfold PrimFloat.is_nan. rewrite eqb_spec. unfold SFeqb.
  destruct (Prim2SF x) as [[]|[]| |[] m e]; simpl;
    try (split; [discriminate|discriminate]); try tauto.
  all: rewrite Z.compare_refl, Pos.compare_cont_refl; simpl; split; discriminate.
Qed.

Lemma not_nan_spec x : PrimFloat.is_nan x = false -> Prim2SF x <> S754_nan.
Proof. intros H E. apply is_nan_spec in E. congruence. Qed.

(** Away from [NaN] the order is total: [a < b] is the negation of [b <= a]. *)
Lemma ltb_negb_leb a b :
  PrimFloat.is_nan a = false -> PrimFloat.is_nan b = false ->
  (a <? b)%float = negb (b <=? a)%float.
Proof.
  intros Ha Hb. rewrite ltb_spec, leb_spec. unfold SFltb, SFleb.
  rewrite (SFcompare_antisym (Prim2SF a) (Prim2SF b)).
  pose proof (SFcompare_total _ _ (not_nan_spec _ Ha) (not_nan_spec _ Hb)).
  destruct (SFcompare (Prim2SF a) (Prim2SF b)) as [[]|]; simpl; congruence.
Qed.

(** [a <= b] excludes [b < a], also when one of them is [NaN]. *)
Lemma leb_not_ltb a b : (a <=? b)%float = true -> (b <? a)%float = false.
Proof.
  rewrite ltb_spec, leb_spec. unfold SFltb, SFleb.
  rewrite (SFcompare_antisym (Prim2SF a) (Prim2SF b)).
  destruct (SFcompare (Prim2SF a) (Prim2SF b)) as [[]|]; simpl; congruence.
Qed.

Lemma finite_not_nan x : Number.isFinite x = true -> PrimFloat.is_nan x = false.
Proof.
  unfold Number.isFinite, PrimFloat.is_finite.
  destruct (PrimFloat.is_nan x); simpl; congruence.
Qed.

(** A finite number is a zero or has a significand and an exponent. *)
Lemma is_finite_spec x :
  Number.isFinite x = true ->
  match Prim2SF x with S754_zero _ | S754_finite _ _ _ => True | _ => False end.
Proof.
  unfold Number.isFinite, PrimFloat.is_finite. intro H.
  apply negb_true_iff, orb_false_iff in H. destruct H as [Hn Hi].
  pose proof (not_nan_spec _ Hn) as N.
  unfold PrimFloat.is_infinity in Hi. rewrite eqb_spec, abs_spec in Hi.
  destruct (Prim2SF x) as [[]|[]| |[] m e]; try exact I; try congruence;
    vm_compute in Hi; discriminate.
Qed.

(** Rounding keeps a significand that is not negative so: the shifts and
    the step to the next significand never leave the natural numbers. *)
Lemma iter_pos_invariant {A} (P : A -> Prop) (f : A -> A) :
  (forall x, P x -> P (f x)) -> forall n x, P x -> P (iter_pos f n x).
Proof.
  intros Hf. induction n as [n IH|n IH|]; intros x Hx; simpl; auto.
Qed.

Lemma shr_1_nonneg mrs : 0 <= shr_m mrs -> 0 <= shr_m (shr_1 mrs).
Proof.
  destruct mrs as [m r s]. simpl. destruct m as [|[p|p|]|p]; simpl; lia.
Qed.

Lemma shr_nonneg mrs e n : 0 <= shr_m mrs -> 0 <= shr_m (fst (shr mrs e n)).
Proof.
  intro H. destruct n as [|p|p]; simpl; auto.
  apply (iter_pos_invariant (fun x => 0 <= shr_m x)); auto using shr_1_nonneg.
Qed.

Lemma shr_fexp_nonneg p e m x l :
  0 <= x -> 0 <= shr_m (fst (shr_fexp p e x m l)).
Proof.
  intro H. unfold shr_fexp. apply shr_nonneg.
  destruct l as [|[]]; exact H.
Qed.

Lemma round_nearest_even_nonneg m l : 0 <= m -> 0 <= round_nearest_even m l.
Proof.
  intro H. destruct l as [|[]]; simpl; try lia. destruct (Z.even m); lia.
Qed.

Lemma binary_round_aux_not_nan p e s m x l :
  0 <= m -> binary_round_aux p e s m x l <> S754_nan.
Proof.
  intro H. unfold binary_round_aux.
  pose proof (shr_fexp_nonneg p e x m l H) as H1.
  destruct (shr_fexp p e m x l) as [mrs' e'] eqn:E1. simpl in H1.
  pose proof (shr_fexp_nonneg p e e'
                (round_nearest_even (shr_m mrs') (loc_of_shr_record mrs')) loc_Exact
                (round_nearest_even_nonneg _ _ H1)) as H2.
  destruct (shr_fexp p e _ e' loc_Exact) as [mrs'' e''] eqn:E2. simpl in H2.
  destruct (shr_m mrs'') as [|q|q]; try discriminate; try lia.
  destruct (e'' <=? e - p); discriminate.
Qed.

(** The product of two finite numbers is a number: it may overflow to an
    infinity, never to [NaN]. *)
Lemma mul_finite_not_nan a b :
  Number.isFinite a = true -> Number.isFinite b = true ->
  PrimFloat.is_nan (a * b)%float = false.
Proof.
  intros Ha Hb. apply is_finite_spec in Ha. apply is_finite_spec in Hb.
  destruct (PrimFloat.is_nan (a * b)%float) eqn:E; [|reflexivity].
  apply is_nan_spec in E. rewrite mul_spec in E.
  destruct (Prim2SF a) as [sa|sa| |sa ma ea], (Prim2SF b) as [sb|sb| |sb mb eb];
    try contradiction; simpl in E; try discriminate.
  exfalso. revert E. apply binary_round_aux_not_nan. lia.
Qed.

(** ** Exact results of the rounding of the format *)

Lemma digits2_pos_bounds m :
  2 ^ (Zpos (digits2_pos m) - 1) <= Zpos m < 2 ^ Zpos (digits2_pos m).
Proof.
  induction m as [m IH|m IH|]; cbn [digits2_pos].
  - rewrite Pos2Z.inj_succ.
    replace (Z.succ (Zpos (digits2_pos m)) - 1) with (Z.succ (Zpos (digits2_pos m) - 1)) by lia.
    rewrite !Z.pow_succ_r by lia. lia.
  - rewrite Pos2Z.inj_succ.
    replace (Z.succ (Zpos (digits2_pos m)) - 1) with (Z.succ (Zpos (digits2_pos m) - 1)) by lia.
    rewrite !Z.pow_succ_r by lia. lia.
  - simpl. lia.
Qed.


Lemma digits2_pos_unique m k :
  2 ^ (k - 1) <= Zpos m < 2 ^ k -> Zpos (digits2_pos m) = k.
Proof.
  intros [L U]. pose proof (digits2_pos_bounds m) as [L' U'].
  assert (0 < k).
  { destruct (Z_lt_le_dec 0 k) as [|N]; [assumption|].
    assert (2 ^ k <= 2 ^ 0) by (destruct (Z_lt_le_dec k 0);
      [rewrite Z.pow_neg_r by assumption; simpl; lia
      |apply Z.pow_le_mono_r; lia]).
    simpl in *. lia. }
  destruct (Z_lt_le_dec (Zpos (digits2_pos m)) k) as [Lt|Ge].
  - assert (2 ^ Zpos (digits2_pos m) <= 2 ^ (k - 1)) by (apply Z.pow_le_mono_r; lia). lia.
  - destruct (Z_lt_le_dec k (Zpos (digits2_pos m))) as [Lt|Le]; [|lia].
    assert (2 ^ k <= 2 ^ (Zpos (digits2_pos m) - 1)) by (apply Z.pow_le_mono_r; lia). lia.
Qed.

Lemma iter_xO m d : Zpos (Pos.iter xO m d) = Zpos m * 2 ^ Zpos d.
Proof.
  revert m. induction d as [|d IH] using Pos.peano_ind; intro m.
  - cbn [Pos.iter]. rewrite Pos2Z.inj_xO. change (2 ^ 1) with 2. lia.
  - rewrite Pos.iter_succ, Pos2Z.inj_succ, Z.pow_succ_r by lia.
    rewrite Pos2Z.inj_xO, IH. lia.
Qed.

Lemma digits2_pos_shift m d :
  0 <= d -> forall q, Zpos q = Zpos m * 2 ^ d ->
  Zpos (digits2_pos q) = Zpos (digits2_pos m) + d.
Proof.
  intros Hd q E. apply digits2_pos_unique.
  pose proof (digits2_pos_bounds m) as [L U]. rewrite E.
  replace (Zpos (digits2_pos m) + d - 1) with ((Zpos (digits2_pos m) - 1) + d) by lia.
  assert (0 <= Zpos (digits2_pos m) - 1) by lia.
  rewrite !Z.pow_add_r by lia.
  assert (0 < 2 ^ d) by (apply Z.pow_pos_nonneg; lia). nia.
Qed.

(** Shifting an exact record right over zero bits keeps it exact. *)
Lemma shr_1_even q :
  shr_1 {| shr_m := Zpos (xO q); shr_r := false; shr_s := false |}
  = {| shr_m := Zpos q; shr_r := false; shr_s := false |}.
Proof. reflexivity. Qed.

Lemma pow2_xI p : 2 ^ Zpos p~1 = 2 * (2 ^ Zpos p * 2 ^ Zpos p).
Proof.
  replace (Zpos p~1) with (Zpos p + Zpos p + 1) by lia.
  rewrite !Z.pow_add_r by lia. change (2 ^ 1) with 2. lia.
Qed.

Lemma pow2_xO p : 2 ^ Zpos p~0 = 2 ^ Zpos p * 2 ^ Zpos p.
Proof.
  replace (Zpos p~0) with (Zpos p + Zpos p) by lia.
  now rewrite Z.pow_add_r by lia.
Qed.

Lemma iter_shr_1 p : forall q m,
  Zpos q = Zpos m * 2 ^ Zpos p ->
  iter_pos shr_1 p {| shr_m := Zpos q; shr_r := false; shr_s := false |}
  = {| shr_m := Zpos m; shr_r := false; shr_s := false |}.
Proof.
  induction p as [p IH|p IH|]; intros q m E; cbn [iter_pos].
  - assert (E1 : Zpos q = Zpos (xO (Pos.iter xO (Pos.iter xO m p) p))).
    { rewrite Pos2Z.inj_xO, !iter_xO, E, pow2_xI. lia. }
    injection E1 as ->. rewrite shr_1_even.
    rewrite (IH _ (Pos.iter xO m p)) by (rewrite !iter_xO; reflexivity).
    apply IH. apply iter_xO.
  - assert (E1 : Zpos q = Zpos (Pos.iter xO (Pos.iter xO m p) p)).
    { rewrite !iter_xO, E, pow2_xO. lia. }
    injection E1 as ->.
    rewrite (IH _ (Pos.iter xO m p)) by (rewrite !iter_xO; reflexivity).
    apply IH. apply iter_xO.
  - assert (E1 : Zpos q = Zpos (xO m)) by (rewrite E; change (2 ^ 1) with 2; lia).
    injection E1 as ->. reflexivity.
Qed.

(** The rounding of a value that the format holds is that value: when
    [mx * 2^ex] is [m * 2^e] with [e] the exponent that the format gives to
    a number of this size, [binary_round] answers [m] and [e]. *)
Lemma binary_round_exact sx mx ex m e :
  Zpos mx * 2 ^ (ex - Z.min ex e) = Zpos m * 2 ^ (e - Z.min ex e) ->
  fexp prec emax (Zpos (digits2_pos m) + e) = e ->
  e <= emax - prec ->
  binary_round prec emax sx mx ex = S754_finite sx m e.
Proof.
  intros V C B.
  assert (Done : binary_round_aux prec emax sx (Zpos m) e loc_Exact = S754_finite sx m e).
  { unfold binary_round_aux, shr_fexp. cbn [Zdigits2 shr_record_of_loc].
    rewrite C, Z.sub_diag. cbn [shr shr_m loc_of_shr_record round_nearest_even Zdigits2
                                shr_record_of_loc].
    rewrite C, Z.sub_diag. cbn [shr shr_m].
    apply Z.leb_le in B. now rewrite B. }
  unfold binary_round.
  destruct (Z_lt_le_dec e ex) as [Lt|Ge].
  - (* the significand is shifted left *)
    rewrite Z.min_r in V by lia. rewrite Z.sub_diag, Z.mul_1_r in V.
    assert (D : Zpos (digits2_pos m) = Zpos (digits2_pos mx) + (ex - e))
      by (apply digits2_pos_shift; [lia|now symmetry]).
    assert (F : fexp prec emax (Zpos (digits2_pos mx) + ex) = e)
      by (rewrite <- C; f_equal; lia).
    rewrite F. unfold shl_align.
    destruct (e - ex) as [|d|d] eqn:S; try lia.
    assert (Em : Pos.iter xO mx d = m).
    { apply Pos2Z.inj. rewrite iter_xO, <- V. do 2 f_equal. lia. }
    rewrite Em. exact Done.
  - rewrite Z.min_l in V by lia. rewrite Z.sub_diag, Z.mul_1_r in V.
    destruct (Z.eq_dec e ex) as [->|Ne].
    + rewrite Z.sub_diag, Z.mul_1_r in V. injection V as ->.
      rewrite C. unfold shl_align. rewrite Z.sub_diag. exact Done.
    + (* the significand is shifted right, over zero bits *)
      assert (D : Zpos (digits2_pos mx) = Zpos (digits2_pos m) + (e - ex))
        by (apply digits2_pos_shift; [lia|assumption]).
      assert (F : fexp prec emax (Zpos (digits2_pos mx) + ex) = e)
        by (rewrite <- C; f_equal; lia).
      rewrite F. unfold shl_align.
      destruct (e - ex) as [|d|d] eqn:S; try lia.
      unfold binary_round_aux, shr_fexp. cbn [Zdigits2 shr_record_of_loc].
      rewrite F, S. cbn [shr]. rewrite (iter_shr_1 d mx m V).
      cbn [shr_m loc_of_shr_record round_nearest_even Zdigits2 shr_record_of_loc].
      replace (ex + Zpos d) with e by lia.
      rewrite C, Z.sub_diag. cbn [shr shr_m].
      apply Z.leb_le in B. now rewrite B.
Qed.

(** With the exponent of the format for its size, or a lower one, a
    significand needs no rounding. *)
Lemma binary_round_small sx mx ex :
  let e := fexp prec emax (Zpos (digits2_pos mx) + ex) in
  e <= ex -> e <= emax - prec ->
  exists m, Zpos m = Zpos mx * 2 ^ (ex - e)
            /\ binary_round prec emax sx mx ex = S754_finite sx m e.
Proof.
  intros e Le B.
  assert (P : 0 < Zpos mx * 2 ^ (ex - e))
    by (apply Z.mul_pos_pos; [lia|apply Z.pow_pos_nonneg; lia]).
  destruct (Zpos mx * 2 ^ (ex - e)) as [|m|m] eqn:E; try lia.
  exists m. split; [reflexivity|].
  apply binary_round_exact; [| |exact B].
  - rewrite Z.min_r by lia. now rewrite Z.sub_diag, Z.mul_1_r.
  - rewrite (digits2_pos_shift mx (ex - e)) by (lia || now symmetry).
    replace (Zpos (digits2_pos mx) + (ex - e) + e) with (Zpos (digits2_pos mx) + ex) by lia.
    reflexivity.
Qed.

Lemma bounded_inv m e :
  bounded prec emax m e = true ->
  -1074 <= e <= 971
  /\ Zpos m < 2 ^ 53
  /\ (e = -1074 \/ 2 ^ 52 <= Zpos m).
Proof.
  unfold bounded, canonical_mantissa, fexp, FloatOps.emin, SpecFloat.emin.
  change prec with 53. change emax with 1024. intro H.
  apply andb_true_iff in H. destruct H as [C B].
  apply Z.eqb_eq in C. apply Z.leb_le in B.
  pose proof (digits2_pos_bounds m) as [L U].
  assert (D : Zpos (digits2_pos m) <= 53) by lia.
  split; [lia|]. split.
  - assert (2 ^ Zpos (digits2_pos m) <= 2 ^ 53) by (apply Z.pow_le_mono_r; lia). lia.
  - destruct (Z.eq_dec e (-1074)) as [|N]; [now left|right].
    assert (Zpos (digits2_pos m) = 53) by lia.
    replace 52 with (Zpos (digits2_pos m) - 1) by lia. exact L.
Qed.

Lemma pow2_pos n : 0 <= n -> 0 < 2 ^ n.
Proof. intro H. apply Z.pow_pos_nonneg; lia. Qed.

(** On the numbers of the format, the order of the exponents and then of
    the significands is the order of the values. *)
Lemma compare_bounded m1 e1 m2 e2 :
  bounded prec emax m1 e1 = true -> bounded prec emax m2 e2 = true ->
  match e1 ?= e2 with
  | Lt => Lt
  | Gt => Gt
  | Eq => Pos.compare_cont Eq m1 m2
  end = (Zpos m1 * 2 ^ (e1 + 1074) ?= Zpos m2 * 2 ^ (e2 + 1074)).
Proof.
  intros B1 B2. apply bounded_inv in B1, B2.
  destruct B1 as (R1 & U1 & N1), B2 as (R2 & U2 & N2).
  destruct (Z.compare_spec e1 e2) as [->|Lt|Gt].
  - change (Pos.compare_cont Eq m1 m2) with (Zpos m1 ?= Zpos m2).
    pose proof (pow2_pos (e2 + 1074) ltac:(lia)).
    destruct (Z.compare_spec (Zpos m1) (Zpos m2)) as [E|L|G]; symmetry.
    + apply Z.compare_eq_iff. now rewrite E.
    + apply Z.compare_lt_iff. nia.
    + apply Z.compare_gt_iff. nia.
  - symmetry. apply Z.compare_lt_iff.
    destruct N2 as [->|N2]; [lia|].
    replace (e2 + 1074) with ((e1 + 1074) + 1 + (e2 - e1 - 1)) by lia.
    rewrite (Z.pow_add_r 2 (e1 + 1074 + 1)), (Z.pow_add_r 2 (e1 + 1074) 1) by lia.
    change (2 ^ 1) with 2.
    pose proof (pow2_pos (e1 + 1074) ltac:(lia)).
    pose proof (pow2_pos (e2 - e1 - 1) ltac:(lia)).
    change (2 ^ 53) with 9007199254740992 in U1.
    change (2 ^ 52) with 4503599627370496 in N2.
    set (A := 2 ^ (e1 + 1074)) in *. set (B := 2 ^ (e2 - e1 - 1)) in *.
    assert (A <= A * B) by nia.
    assert (Zpos m1 * A < 9007199254740992 * A) by nia.
    assert (4503599627370496 * (A * B) <= Zpos m2 * (A * B)) by nia.
    lia.
  - symmetry. apply Z.compare_gt_iff.
    destruct N1 as [->|N1]; [lia|].
    replace (e1 + 1074) with ((e2 + 1074) + 1 + (e1 - e2 - 1)) by lia.
    rewrite (Z.pow_add_r 2 (e2 + 1074 + 1)), (Z.pow_add_r 2 (e2 + 1074) 1) by lia.
    change (2 ^ 1) with 2.
    pose proof (pow2_pos (e2 + 1074) ltac:(lia)).
    pose proof (pow2_pos (e1 - e2 - 1) ltac:(lia)).
    change (2 ^ 53) with 9007199254740992 in U2.
    change (2 ^ 52) with 4503599627370496 in N1.
    set (A := 2 ^ (e2 + 1074)) in *. set (B := 2 ^ (e1 - e2 - 1)) in *.
    assert (A <= A * B) by nia.
    assert (Zpos m2 * A < 9007199254740992 * A) by nia.
    assert (4503599627370496 * (A * B) <= Zpos m1 * (A * B)) by nia.
    lia.
Qed.

Lemma isFinite_iff x :
  Number.isFinite x = true
  <-> match Prim2SF x with S754_zero _ | S754_finite _ _ _ => True | _ => False end.
Proof.
  split; [apply is_finite_spec|].
  unfold Number.isFinite, PrimFloat.is_finite, PrimFloat.is_infinity, PrimFloat.is_nan.
  rewrite !eqb_spec, abs_spec.
  destruct (Prim2SF x) as [[]|[]| |[] m e]; try contradiction; intros _;
    unfold SFeqb; cbn [SFabs SFcompare];
    rewrite ?Z.compare_refl, ?Pos.compare_cont_refl; try reflexivity;
    now destruct (Prim2SF infinity).
Qed.

(** The absolute value of a finite number is below a positive number when
    it is so in quanta. *)
Lemma abs_ltb_quanta x c mc ec :
  Number.isFinite x = true ->
  Prim2SF c = S754_finite false mc ec ->
  (PrimFloat.abs x <? c)%float = (Z.abs (quanta x) <? quanta c).
Proof.
  intros F C. rewrite ltb_spec, abs_spec. unfold quanta. rewrite C.
  pose proof (Prim2SF_valid c) as Vc. rewrite C in Vc. cbn [valid_binary] in Vc.
  pose proof (Prim2SF_valid x) as Vx.
  apply is_finite_spec in F.
  destruct (Prim2SF x) as [s|s| |s m e]; try contradiction.
  - cbn [SFabs cond_Zopp Z.abs]. unfold SFltb. cbn [SFcompare]. symmetry.
    apply Z.ltb_lt. apply bounded_inv in Vc.
    apply Z.mul_pos_pos; [lia|apply pow2_pos; lia].
  - cbn [valid_binary] in Vx. cbn [SFabs cond_Zopp]. unfold SFltb. cbn [SFcompare].
    rewrite (compare_bounded m e mc ec Vx Vc).
    apply bounded_inv in Vx. pose proof (pow2_pos (e + 1074) ltac:(lia)).
    replace (Z.abs (cond_Zopp s (Zpos m * 2 ^ (e + 1074)))) with (Zpos m * 2 ^ (e + 1074))
      by (destruct s; cbn [cond_Zopp]; lia).
    unfold Z.ltb. now destruct (_ ?= _).
Qed.

Lemma shl_align_fst mx ex ez :
  ez <= ex -> Zpos (fst (shl_align mx ex ez)) = Zpos mx * 2 ^ (ex - ez).
Proof.
  intro L. unfold shl_align. destruct (ez - ex) as [|d|d] eqn:E; try lia; cbn [fst].
  - replace (ex - ez) with 0 by lia. lia.
  - rewrite iter_xO. do 2 f_equal. lia.
Qed.

Lemma digits_below m k : 0 <= k -> Zpos m < 2 ^ k -> Zpos (digits2_pos m) <= k.
Proof.
  intros Hk U. pose proof (digits2_pos_bounds m) as [L _].
  destruct (Z_lt_le_dec k (Zpos (digits2_pos m))) as [Lt|]; [|assumption].
  assert (2 ^ k <= 2 ^ (Zpos (digits2_pos m) - 1)) by (apply Z.pow_le_mono_r; lia). lia.
Qed.

(** A significand of at most 53 bits, with an exponent of the format, is
    a number of the format. *)
Lemma binary_normalize_exact K ez :
  K <> 0 -> Z.abs K < 2 ^ 53 -> -1074 <= ez <= 971 ->
  exists m e,
    binary_normalize prec emax K ez false = S754_finite (K <? 0) m e
    /\ -1074 <= e <= ez
    /\ Zpos m * 2 ^ (e + 1074) = Z.abs K * 2 ^ (ez + 1074).
Proof.
  intros N U R.
  assert (G : forall s k, Zpos k < 2 ^ 53 ->
              exists m e, binary_round prec emax s k ez = S754_finite s m e
                          /\ -1074 <= e <= ez
                          /\ Zpos m * 2 ^ (e + 1074) = Zpos k * 2 ^ (ez + 1074)).
  { intros s k Uk. pose proof (digits_below k 53 ltac:(lia) Uk) as D.
    assert (Le : fexp prec emax (Zpos (digits2_pos k) + ez) <= ez).
    { unfold fexp, FloatOps.emin, SpecFloat.emin. change prec with 53.
      change emax with 1024. lia. }
    assert (Ge : -1074 <= fexp prec emax (Zpos (digits2_pos k) + ez)).
    { unfold fexp, FloatOps.emin, SpecFloat.emin. change prec with 53.
      change emax with 1024. lia. }
    destruct (binary_round_small s k ez Le) as (m & Em & Eb).
    { change (emax - prec) with 971. lia. }
    exists m, (fexp prec emax (Zpos (digits2_pos k) + ez)).
    split; [exact Eb|]. split; [lia|].
    rewrite Em, <- Z.mul_assoc, <- Z.pow_add_r by lia. do 2 f_equal. lia. }
  destruct K as [|k|k]; [congruence| |]; cbn [binary_normalize Z.ltb Z.compare Z.abs] in *.
  - apply G. exact U.
  - apply G. exact U.
Qed.

(** The difference of two numbers of the format is exact when it has no
    more than 53 bits at the lower of their exponents. *)
Lemma SFsub_exact sa ma ea sb mb eb :
  bounded prec emax ma ea = true -> bounded prec emax mb eb = true ->
  let D := cond_Zopp sa (Zpos ma * 2 ^ (ea + 1074))
           - cond_Zopp sb (Zpos mb * 2 ^ (eb + 1074)) in
  Z.abs D < 2 ^ 53 * 2 ^ (Z.min ea eb + 1074) ->
  (D = 0 /\ SFsub prec emax (S754_finite sa ma ea) (S754_finite sb mb eb) = S754_zero false)
  \/ exists m e,
       SFsub prec emax (S754_finite sa ma ea) (S754_finite sb mb eb)
       = S754_finite (D <? 0) m e
       /\ Zpos m * 2 ^ (e + 1074) = Z.abs D.
Proof.
  intros Ba Bb D U. apply bounded_inv in Ba, Bb.
  destruct Ba as (Ra & _ & _), Bb as (Rb & _ & _).
  cbn [SFsub]. set (ez := Z.min ea eb) in *.
  rewrite !shl_align_fst by (unfold ez; lia).
  set (K := cond_Zopp sa (Zpos ma * 2 ^ (ea - ez)) - cond_Zopp sb (Zpos mb * 2 ^ (eb - ez))).
  assert (Q : 0 < 2 ^ (ez + 1074)) by (apply pow2_pos; unfold ez; lia).
  assert (EK : D = K * 2 ^ (ez + 1074)).
  { unfold D, K. rewrite Z.mul_sub_distr_r.
    assert (S : forall s m e, ez <= e ->
                cond_Zopp s (Zpos m * 2 ^ (e - ez)) * 2 ^ (ez + 1074)
                = cond_Zopp s (Zpos m * 2 ^ (e + 1074))).
    { intros s m e L. replace (e + 1074) with ((e - ez) + (ez + 1074)) by lia.
      rewrite (Z.pow_add_r 2 (e - ez) (ez + 1074)) by (unfold ez in *; lia).
      destruct s; cbn [cond_Zopp]; lia. }
    rewrite !S by (unfold ez; lia). reflexivity. }
  destruct (Z.eq_dec K 0) as [Z0|NZ].
  - left. split; [rewrite EK, Z0; reflexivity|]. now rewrite Z0.
  - right.
    assert (UK : Z.abs K < 2 ^ 53).
    { rewrite EK, Z.abs_mul, (Z.abs_eq (2 ^ _)) in U by lia. nia. }
    destruct (binary_normalize_exact K ez NZ UK ltac:(unfold ez; lia))
      as (m & e & E & Re & V).
    exists m, e. split.
    + rewrite E. f_equal. rewrite EK. unfold Z.ltb.
      destruct K; try congruence; cbn; destruct (2 ^ (ez + 1074)); try lia; reflexivity.
    + rewrite V, EK, Z.abs_mul, (Z.abs_eq (2 ^ _)) by lia. reflexivity.
Qed.

(** An integer of at most 53 bits is a number. *)
Lemma ofZ_exact r :
  r <> 0 -> Z.abs r < 2 ^ 53 ->
  exists m e,
    Prim2SF (Number.ofZ r) = S754_finite (r <? 0) m e
    /\ -1074 <= e <= 0
    /\ Zpos m * 2 ^ (e + 1074) = Z.abs r * 2 ^ 1074.
Proof.
  intros N U.
  assert (G : forall p, Zpos p < 2 ^ 53 ->
              Prim2SF (PrimFloat.of_uint63 (Uint63.of_Z (Zpos p)))
              = binary_normalize prec emax (Zpos p) 0 false).
  { intros p Up. rewrite of_uint63_spec, Uint63.of_Z_spec. f_equal.
    apply Z.mod_small. split; [lia|].
    eapply Z.lt_trans; [exact Up|]. reflexivity. }
  destruct r as [|p|p]; [congruence| |]; cbn [Z.abs] in U; unfold Number.ofZ.
  - rewrite (G p U).
    destruct (binary_normalize_exact (Zpos p) 0 ltac:(lia) U ltac:(lia))
      as (m & e & E & Re & V).
    exists m, e. repeat split; try assumption; lia.
  - rewrite opp_spec, (G p U).
    destruct (binary_normalize_exact (Zpos p) 0 ltac:(lia) U ltac:(lia))
      as (m & e & E & Re & V).
    exists m, e. rewrite E. repeat split; try assumption; lia.
Qed.

Lemma quanta_zero x s : Prim2SF x = S754_zero s -> quanta x = 0.
Proof. unfold quanta. now intros ->. Qed.

(** [nearest x] is the one integer at most a half away from [x], the half
    counting below only. *)
Lemma nearest_bounds x :
  Number.isFinite x = true ->
  - 2 ^ 1073 <= quanta x - nearest x * 2 ^ 1074 < 2 ^ 1073.
Proof.
  intro F. apply is_finite_spec in F. unfold quanta, nearest.
  pose proof (Prim2SF_valid x) as V.
  destruct (Prim2SF x) as [s|s| |s m e]; try contradiction.
  - cbn. lia.
  - cbn [valid_binary] in V. apply bounded_inv in V. destruct V as (R & _ & _).
    destruct (Z.leb_spec 0 e) as [P|Ng].
    + replace (cond_Zopp s (Zpos m * 2 ^ e) * 2 ^ 1074)
        with (cond_Zopp s (Zpos m * 2 ^ (e + 1074)))
        by (rewrite Z.pow_add_r by lia; destruct s; cbn [cond_Zopp]; lia).
      change (2 ^ 1073) with (Z.pow_pos 2 1073). lia.
    + set (n := cond_Zopp s (Zpos m)). set (t := 2 ^ (- e)).
      assert (T : 0 < t) by (apply pow2_pos; lia).
      replace (2 ^ (1 - e)) with (2 * t)
        by (unfold t; replace (1 - e) with (1 + - e) by lia;
            rewrite Z.pow_add_r by lia; reflexivity).
      set (q := 2 ^ (e + 1074)). assert (Hq : 0 < q) by (apply pow2_pos; lia).
      assert (TQ : t * q = 2 ^ 1074)
        by (unfold t, q; rewrite <- Z.pow_add_r by lia; f_equal; lia).
      replace (cond_Zopp s (Zpos m * q)) with (n * q)
        by (unfold n; destruct s; cbn [cond_Zopp]; lia).
      pose proof (Z.div_mod (2 * n + t) (2 * t) ltac:(lia)) as DM.
      pose proof (Z.mod_pos_bound (2 * n + t) (2 * t) ltac:(lia)) as MB.
      set (r := (2 * n + t) / (2 * t)) in *.
      assert (H2 : 2 ^ 1074 = 2 * 2 ^ 1073) by reflexivity.
      rewrite <- TQ. 
      assert (E1 : 2 * (n * q - r * (t * q)) = (2 * n - 2 * t * r) * q) by lia.
      assert (E2 : 2 ^ 1073 * 2 = t * q) by (rewrite TQ; reflexivity).
      nia.
Qed.

Lemma nearest_unique x n :
  Number.isFinite x = true ->
  Z.abs (quanta x - n * 2 ^ 1074) < 2 ^ 1073 -> n = nearest x.
Proof.
  intros F H. pose proof (nearest_bounds x F) as B.
  assert (P : 0 < 2 ^ 1073) by reflexivity.
  assert (H2 : 2 ^ 1074 = 2 * 2 ^ 1073) by reflexivity.
  rewrite H2 in *. set (h := 2 ^ 1073) in *. nia.
Qed.

Lemma quanta_finite x s m e :
  Prim2SF x = S754_finite s m e -> quanta x = cond_Zopp s (Zpos m * 2 ^ (e + 1074)).
Proof. unfold quanta. now intros ->. Qed.

Lemma isFinite_zero x s : Prim2SF x = S754_zero s -> Number.isFinite x = true.
Proof. intro E. apply isFinite_iff. now rewrite E. Qed.

Lemma isFinite_finite x s m e :
  Prim2SF x = S754_finite s m e -> Number.isFinite x = true.
Proof. intro E. apply isFinite_iff. now rewrite E. Qed.

Lemma pow2_lt_inv a b : 0 <= b -> 2 ^ a < 2 ^ b -> a < b.
Proof.
  intros Hb H. destruct (Z_lt_le_dec a b) as [|Ge]; [assumption|].
  assert (2 ^ b <= 2 ^ a) by (apply Z.pow_le_mono_r; lia). lia.
Qed.

(** What [Math.round(x) - x] is, for a finite [x]: the difference is
    computed without rounding. *)
Lemma round_distance x :
  Number.isFinite x = true ->
  Number.isFinite (Math.round x - x) = true
  /\ quanta (Math.round x - x) = nearest x * 2 ^ 1074 - quanta x.
Proof.
  intro F. pose proof (nearest_bounds x F) as NB.
  pose proof (fun n => nearest_unique x n F) as NU.
  pose proof (Prim2SF_valid x) as V.
  pose proof (is_finite_spec x F) as Sx.
  destruct (Prim2SF x) as [s|s| |s m e] eqn:E; try contradiction.
  - (* a zero *)
    assert (R : Math.round x = x) by (unfold Math.round; now rewrite E).
    assert (S : Prim2SF (Math.round x - x) = S754_zero false).
    { rewrite R, sub_spec, E. now destruct s. }
    split; [exact (isFinite_zero _ _ S)|].
    rewrite (quanta_zero _ _ S), (quanta_zero _ _ E).
    unfold nearest. rewrite E. reflexivity.
  - cbn [valid_binary] in V. pose proof (bounded_inv _ _ V) as (Re & Um & _).
    rewrite (quanta_finite _ _ _ _ E) in *.
    assert (Q : 0 < 2 ^ (e + 1074)) by (apply pow2_pos; lia).
    assert (Exact : forall y sy my ey,
               Prim2SF y = S754_finite sy my ey ->
               cond_Zopp sy (Zpos my * 2 ^ (ey + 1074)) = nearest x * 2 ^ 1074 ->
               -53 <= Z.min ey e ->
               Number.isFinite (y - x) = true
               /\ quanta (y - x)
                  = nearest x * 2 ^ 1074 - cond_Zopp s (Zpos m * 2 ^ (e + 1074))).
    { intros y sy my ey Ey Vy Lo.
      pose proof (Prim2SF_valid y) as Vy'. rewrite Ey in Vy'. cbn [valid_binary] in Vy'.
      assert (U : Z.abs (cond_Zopp sy (Zpos my * 2 ^ (ey + 1074))
                         - cond_Zopp s (Zpos m * 2 ^ (e + 1074)))
                  < 2 ^ 53 * 2 ^ (Z.min ey e + 1074)).
      { rewrite Vy.
        assert (2 ^ 1074 <= 2 ^ 53 * 2 ^ (Z.min ey e + 1074)).
        { rewrite <- Z.pow_add_r by lia. apply Z.pow_le_mono_r; lia. }
        assert (2 ^ 1074 = 2 * 2 ^ 1073) by reflexivity.
        assert (0 < 2 ^ 1073) by reflexivity. lia. }
      destruct (SFsub_exact sy my ey s m e Vy' V U) as [(D0 & S)|(m' & e' & S & Vm)].
      - assert (S' : Prim2SF (y - x) = S754_zero false)
          by (rewrite sub_spec, Ey, E; exact S).
        split; [exact (isFinite_zero _ _ S')|].
        rewrite (quanta_zero _ _ S'). rewrite Vy in D0. lia.
      - assert (S' : Prim2SF (y - x) = S754_finite
                       (cond_Zopp sy (Zpos my * 2 ^ (ey + 1074))
                        - cond_Zopp s (Zpos m * 2 ^ (e + 1074)) <? 0) m' e')
          by (rewrite sub_spec, Ey, E; exact S).
        split; [exact (isFinite_finite _ _ _ _ S')|].
        rewrite (quanta_finite _ _ _ _ S'), Vm, Vy.
        destruct (Z.ltb_spec (nearest x * 2 ^ 1074
                              - cond_Zopp s (Zpos m * 2 ^ (e + 1074))) 0);
          cbn [cond_Zopp]; lia. }
    destruct (Z.leb_spec 0 e) as [P|Ng].
    + (* an integer already *)
      assert (R : Math.round x = x).
      { unfold Math.round. rewrite E. destruct (Z.leb_spec 0 e); [reflexivity|lia]. }
      rewrite R. apply (Exact x s m e E); [|lia].
      unfold nearest. rewrite E. destruct (Z.leb_spec 0 e); [|lia].
      rewrite Z.pow_add_r by lia. destruct s; cbn [cond_Zopp]; lia.
    + assert (Rn : nearest x
                   = Z.shiftr (2 * (if s then Zneg m else Zpos m) + 2 ^ (- e)) (1 - e)).
      { unfold nearest. rewrite E. destruct (Z.leb_spec 0 e); [lia|].
        rewrite Z.shiftr_div_pow2 by lia. now destruct s. }
      assert (R : Math.round x
                  = if nearest x =? 0
                    then (if s then PrimFloat.neg_zero else PrimFloat.zero)
                    else Number.ofZ (nearest x)).
      { unfold Math.round. rewrite E. destruct (Z.leb_spec 0 e); [lia|].
        cbv zeta. now rewrite <- Rn. }
      rewrite R. destruct (Z.eqb_spec (nearest x) 0) as [Z0|NZ].
      * (* rounds to a zero *)
        rewrite Z0 in *.
        assert (S : Prim2SF ((if s then PrimFloat.neg_zero else PrimFloat.zero) - x)
                    = S754_finite (negb s) m e).
        { rewrite sub_spec, E. now destruct s. }
        split; [exact (isFinite_finite _ _ _ _ S)|].
        rewrite (quanta_finite _ _ _ _ S). destruct s; cbn [cond_Zopp negb]; lia.
      * assert (Big : 2 ^ 1073 <= Zpos m * 2 ^ (e + 1074)).
        { destruct (Z_lt_le_dec (Zpos m * 2 ^ (e + 1074)) (2 ^ 1073)) as [Sm|]; [|assumption].
          exfalso. apply NZ. symmetry. apply NU.
          destruct s; cbn [cond_Zopp]; lia. }
        assert (Le : -53 <= e).
        { assert (2 ^ 1073 < 2 ^ (53 + (e + 1074))).
          { rewrite Z.pow_add_r by lia. nia. }
          apply pow2_lt_inv in H; lia. }
        assert (Ur : Z.abs (nearest x) < 2 ^ 53).
        { assert (Zpos m * 2 ^ (e + 1074) < 2 ^ 53 * 2 ^ 1073).
          { assert (2 ^ (e + 1074) <= 2 ^ 1073) by (apply Z.pow_le_mono_r; lia).
            assert (0 < 2 ^ 1073) by reflexivity. nia. }
          assert (2 ^ 1074 = 2 * 2 ^ 1073) by reflexivity.
          assert (0 < 2 ^ 1073) by reflexivity.
          change (2 ^ 53) with 9007199254740992 in *.
          destruct s; cbn [cond_Zopp] in NB; nia. }
        destruct (ofZ_exact (nearest x) NZ Ur) as (mr & er & Er & Rer & Vr).
        pose proof (Prim2SF_valid (Number.ofZ (nearest x))) as Vo.
        rewrite Er in Vo. cbn [valid_binary] in Vo.
        pose proof (bounded_inv _ _ Vo) as (_ & Umr & _).
        assert (Ler : -53 <= er).
        { assert (2 ^ 1074 < 2 ^ (53 + (er + 1074))).
          { rewrite Z.pow_add_r by lia.
            assert (0 < 2 ^ (er + 1074)) by (apply pow2_pos; lia).
            assert (0 < 2 ^ 1074) by reflexivity. nia. }
          apply pow2_lt_inv in H; lia. }
        apply (Exact _ _ _ _ Er); [|lia].
        rewrite Vr. destruct (Z.ltb_spec (nearest x) 0); cbn [cond_Zopp]; lia.
Qed.

(** ** Tick alignment *)

(** Away from the finite numbers, [Math.round(x) - x] is [NaN]. *)
Lemma round_distance_nan x :
  Number.isFinite x = false -> Prim2SF (Math.round x - x) = S754_nan.
Proof.
  intro F. assert (N : ~ match Prim2SF x with
                         | S754_zero _ | S754_finite _ _ _ => True
                         | _ => False
                         end).
  { intro H. apply isFinite_iff in H. congruence. }
  destruct (Prim2SF x) as [s|s| |s m e] eqn:E; try (now elim N);
    unfold Math.round; rewrite E, sub_spec, E; [now destruct s|reflexivity].
Qed.

(** C9.  [isMultipleOfTick] answers [true] whenever the tick size is not a
    finite positive number.  For a finite positive tick size it answers [true]
    exactly when the quotient [price / tickSize], as the division of the two
    numbers gives it, is finite and less than [1e-9] away from an integer:
    the distance is taken without rounding, here in quanta of [2^-1074], of
    which the integer [n] has [n * 2^1074].  With the tick size ["0.01"],
    [0.615] is not aligned and [0.61] is; with the tick size ["0"] every
    price is aligned. *)
Theorem isMultipleOfTick_characterised :
  (forall price tick,
      Number.isFinite tick && (0 <? tick)%float = false ->
      isMultipleOfTick price tick = true)
  /\ (forall price tick,
        Number.isFinite tick && (0 <? tick)%float = true ->
        (isMultipleOfTick price tick = true
         <-> Number.isFinite (price / tick) = true
             /\ exists n : Z,
                  Z.abs (quanta (price / tick) - n * 2 ^ 1074) < quanta 1e-9))
  /\ isMultipleOfTick 0.615%float (Number.parseFloat "0.01") = false
  /\ isMultipleOfTick 0.61%float (Number.parseFloat "0.01") = true
  /\ (forall x, isMultipleOfTick x (Number.parseFloat "0") = true).
Proof.
  assert (Shape : forall price tick,
             isMultipleOfTick price tick
             = if Number.isFinite tick && (0 <? tick)%float
               then (Math.abs (Math.round (price / tick) - price / tick) <? 1e-9)%float
               else true).
  { intros price tick. unfold isMultipleOfTick.
    destruct (Number.isFinite tick) eqn:F; simpl; [|reflexivity].
    rewrite (ltb_negb_leb 0 tick) by (auto using finite_not_nan).
    destruct (tick <=? 0)%float; reflexivity. }
  split; [|split; [|split; [|split]]].
  - intros price tick H. now rewrite Shape, H.
  - intros price tick H. rewrite Shape, H. unfold Math.abs.
    set (scaled := (price / tick)%float).
    assert (Tol : quanta 1e-9 <= 2 ^ 1073) by (vm_compute; discriminate).
    destruct (Number.isFinite scaled) eqn:F.
    + destruct (round_distance scaled F) as (Fd & Qd).
      rewrite (abs_ltb_quanta _ 1e-9 4835703278458517 (-82) Fd eq_refl), Qd.
      rewrite Z.ltb_lt. split.
      * intro L. split; [reflexivity|]. exists (nearest scaled).
        rewrite <- Z.abs_opp. now replace (- (quanta scaled - nearest scaled * 2 ^ 1074))
          with (nearest scaled * 2 ^ 1074 - quanta scaled) by lia.
      * intros (_ & n & L).
        rewrite <- (nearest_unique scaled n F) by lia.
        rewrite <- Z.abs_opp. now replace (- (n * 2 ^ 1074 - quanta scaled))
          with (quanta scaled - n * 2 ^ 1074) by lia.
    + split; [|intros (D & _); discriminate D].
      rewrite ltb_spec, abs_spec, (round_distance_nan scaled F). discriminate.
  - vm_compute. reflexivity.
  - vm_compute. reflexivity.
  - intro x. vm_compute. reflexivity.
Qed.

(** ** Control flow *)

Lemma bind_ret {A B} (a : A) (k : A -> M B) : bind (ret a) k = k a.
Proof. unfold bind, ret. destruct (k a). reflexivity. Qed.

Lemma bind_respond {A B} (r : ToolResult) (k : A -> M B) :
  bind (respond r) k = respond r.
Proof. reflexivity. Qed.

Lemma bind_throw {A B} (e : Exception) (k : A -> M B) :
  bind (throw e) k = throw e.
Proof. reflexivity. Qed.

Lemma bind_lift_inr {A B} (a : A) (k : A -> M B) : bind (lift (inr a)) k = k a.
Proof. apply bind_ret. Qed.

Lemma bind_lift_inl {A B} (e : Exception) (k : A -> M B) :
  bind (lift (inl e)) k = throw e.
Proof. reflexivity. Qed.

Lemma bind_answer_if_false {B} (r : ToolResult) (k : unit -> M B) :
  bind (answer_if false r) k = k tt.
Proof. apply bind_ret. Qed.

Lemma bind_answer_if_true {B} (r : ToolResult) (k : unit -> M B) :
  bind (answer_if true r) k = respond r.
Proof. reflexivity. Qed.

Lemma bind_throw_if_false {B} (msg : string) (k : unit -> M B) :
  bind (throw_if false msg) k = k tt.
Proof. apply bind_ret. Qed.

Lemma bind_throw_if_true {B} (msg : string) (k : unit -> M B) :
  bind (throw_if true msg) k = throw (Error msg).
Proof. reflexivity. Qed.

Lemma bind_await_inr {A B} (c : Call) (a : A) (k : A -> M B) :
  bind (await c (inr a)) k = (fst (k a), c :: snd (k a)).
Proof. unfold bind, await. destruct (k a). reflexivity. Qed.

Lemma bind_await_inl {A B} (c : Call) (e : Exception) (k : A -> M B) :
  bind (await c (inl e)) k = (Threw e, [c]).
Proof. reflexivity. Qed.

Lemma bind_normal {A B} (a : A) (t : list Call) (k : A -> M B) :
  bind (Normal a, t) k = (fst (k a), (t ++ snd (k a))%list).
Proof. unfold bind. destruct (k a). reflexivity. Qed.

Create Rewrite HintDb flow.

#[local] Hint Rewrite @bind_ret @bind_respond @bind_throw @bind_lift_inr
  @bind_lift_inl @bind_answer_if_false @bind_answer_if_true
  @bind_throw_if_false @bind_throw_if_true @bind_await_inr @bind_await_inl
  : flow.

Ltac flow := repeat (autorewrite with flow; cbn [fst snd]).

Lemma hasAllowlist_false config slug :
  hasAllowlist config = false -> isAllowedMarket config slug = true.
Proof.
  unfold hasAllowlist, isAllowedMarket.
  destruct (allowedMarketSlugs config) as [[|]|]; congruence.
Qed.

(** The allowlist test of [resume] is the test of [isAllowedMarket]. *)
Lemma allowlist_gate config slug :
  hasAllowlist config && negb (isAllowedMarket config slug)
  = negb (isAllowedMarket config slug).
Proof.
  destruct (hasAllowlist config) eqn:H; simpl; [reflexivity|].
  now rewrite hasAllowlist_false.
Qed.

Section Resume.

Context {U : UnicodeCase}.

Variable w : World.
Variable pluginConfig : option JValue.
Variable ctx : ToolContext.
Variable rawParams : Record_unknown.

Let config := resolvePluginConfig pluginConfig.

(** In a sandboxed context every [resume] is refused before the token is
    looked at. *)
Lemma execute_resume_sandboxed :
  readStringParam rawParams "action" true = inr "resume" ->
  sandboxed ctx = true ->
  execute w pluginConfig ctx rawParams = (Failure "sandboxed", []).
Proof.
  intros Ha Hs. unfold execute. rewrite Ha. flow. cbn [String.eqb Ascii.eqb Bool.eqb].
  unfold resume. rewrite Hs. flow. reflexivity.
Qed.

(** Outside the sandbox, a request whose token decodes goes on with the
    decoded order. *)
Lemma execute_resume token approve key pending :
  sandboxed ctx = false ->
  resume_request rawParams token approve ->
  decodes_to w config token key pending ->
  execute w pluginConfig ctx rawParams
  = settle (resume_pending w config ctx key approve pending).
Proof.
  intros Hs (Ha & Ht & Hp) (Hk & parsed & Hd & Ho).
  unfold execute. rewrite Ha. flow. cbn [String.eqb Ascii.eqb Bool.eqb].
  unfold resume. rewrite Hs, Ht, Hp. flow. fold config. rewrite Hk, Hd. flow.
  rewrite Ho. reflexivity.
Qed.

Lemma session_matches_no_mismatch pending :
  session_matches pending ctx -> sessionMismatch pending ctx = false.
Proof.
  unfold session_matches, sessionMismatch. intros [H|H]; rewrite H; [reflexivity|].
  destruct (ctx_sessionKey ctx) as [s|]; [|reflexivity].
  rewrite String.eqb_refl. simpl. now rewrite !andb_false_r.
Qed.

Lemma unexpired_not_expired pending :
  (Date_now w <=? expiresAtMs pending)%float = true ->
  expired pending (Date_now w) = false.
Proof.
  intro H. unfold expired. rewrite (leb_not_ltb _ _ H). apply andb_false_r.
Qed.

(** C1, amended.  Outside the sandbox, a resume request whose token decodes
    to an order with a non-zero [expiresAtMs] that lies strictly before the
    current time is answered [expired], whatever the decision, and no request
    leaves the process. *)
Theorem expired_token_is_refused token approve key pending :
  sandboxed ctx = false ->
  resume_request rawParams token approve ->
  decodes_to w config token key pending ->
  Number.truthy (expiresAtMs pending) = true ->
  (expiresAtMs pending <? Date_now w)%float = true ->
  execute w pluginConfig ctx rawParams = (Failure "expired", []).
Proof.
  intros Hs Hr Hd Hz Hlt.
  rewrite (execute_resume token approve key pending) by assumption.
  unfold resume_pending, expired. rewrite Hz, Hlt. flow. reflexivity.
Qed.

(** C2, amended.  Outside the sandbox, a resume request with [approve = false]
    on a token that decodes, has not expired and matches the session is
    answered [cancelled], and no request leaves the process. *)
Theorem rejection_cancels token key pending :
  sandboxed ctx = false ->
  resume_request rawParams token false ->
  decodes_to w config token key pending ->
  (Date_now w <=? expiresAtMs pending)%float = true ->
  session_matches pending ctx ->
  execute w pluginConfig ctx rawParams = (Cancelled, []).
Proof.
  intros Hs Hr Hd He Hm.
  rewrite (execute_resume token false key pending) by assumption.
  unfold resume_pending.
  rewrite (unexpired_not_expired _ He), (session_matches_no_mismatch _ Hm).
  flow. reflexivity.
Qed.

(** C6, amended.  Outside the sandbox, a resume request whose token decodes
    to an order that has not expired and is bound to a non-empty session,
    made in a context that has a non-empty session of its own different from
    the binding, is answered [session_mismatch], whatever the decision, and
    no request leaves the process. *)
Theorem foreign_session_is_refused token approve key pending bound current :
  sandboxed ctx = false ->
  resume_request rawParams token approve ->
  decodes_to w config token key pending ->
  expired pending (Date_now w) = false ->
  sessionKey pending = Some bound ->
  ctx_sessionKey ctx = Some current ->
  bound <> "" -> current <> "" -> bound <> current ->
  execute w pluginConfig ctx rawParams = (Failure "session_mismatch", []).
Proof.
  intros Hs Hr Hd He Hb Hc Nb Nc Hne.
  rewrite (execute_resume token approve key pending) by assumption.
  unfold resume_pending, sessionMismatch. rewrite He, Hb, Hc.
  apply String.eqb_neq in Hne. rewrite Hne.
  destruct bound; [congruence|]. destruct current; [congruence|].
  flow. reflexivity.
Qed.

End Resume.

(** ** The lifecycle theorems at a concrete deployment *)

Ltac decode_concrete :=
  split; [vm_compute; reflexivity
         | eexists; split; vm_compute; reflexivity].

Ltac request_concrete := repeat split; vm_compute; reflexivity.

(** The staged token, resumed ten minutes after staging with approval. *)
Lemma expired_token_is_refused_witness :
  execute (Scenario.world Scenario.ten_minutes_later) Scenario.pluginConfig
    Scenario.ctx (Scenario.resume_with Scenario.token true)
  = (Failure "expired", []).
Proof.
  apply (expired_token_is_refused _ _ _ _ Scenario.token true
           Scenario.privateKey Scenario.order).
  - reflexivity.
  - request_concrete.
  - decode_concrete.
  - vm_compute. reflexivity.
  - vm_compute. reflexivity.
Defined.

(** C1 as stated fails in two ways.  A token that verifies and whose
    [expiresAtMs] is [0], which is before the current time, is not treated as
    expired: the rejection goes through as [cancelled].  And in a sandboxed
    context the staged token, long expired, is answered [sandboxed]. *)
Lemma expired_claim_counterexample :
  (resume_request (Scenario.resume_with Scenario.token_without_expiry false)
     Scenario.token_without_expiry false
   /\ decodes_to (Scenario.world Scenario.ten_minutes_later)
        (resolvePluginConfig Scenario.pluginConfig)
        Scenario.token_without_expiry Scenario.privateKey
        Scenario.order_without_expiry
   /\ (expiresAtMs Scenario.order_without_expiry
       <? Date_now (Scenario.world Scenario.ten_minutes_later))%float = true
   /\ execute (Scenario.world Scenario.ten_minutes_later) Scenario.pluginConfig
        Scenario.ctx (Scenario.resume_with Scenario.token_without_expiry false)
      = (Cancelled, []))
  /\
  (resume_request (Scenario.resume_with Scenario.token false) Scenario.token false
   /\ decodes_to (Scenario.world Scenario.ten_minutes_later)
        (resolvePluginConfig Scenario.pluginConfig)
        Scenario.token Scenario.privateKey Scenario.order
   /\ (expiresAtMs Scenario.order
       <? Date_now (Scenario.world Scenario.ten_minutes_later))%float = true
   /\ execute (Scenario.world Scenario.ten_minutes_later) Scenario.pluginConfig
        Scenario.sandbox (Scenario.resume_with Scenario.token false)
      = (Failure "sandboxed", [])).
Proof.
  split; (split; [request_concrete|]); (split; [decode_concrete|]);
    split; vm_compute; reflexivity.
Qed.

(** The staged token, rejected one minute after staging. *)
Lemma rejection_cancels_witness :
  execute (Scenario.world Scenario.one_minute_later) Scenario.pluginConfig
    Scenario.ctx (Scenario.resume_with Scenario.token false)
  = (Cancelled, []).
Proof.
  apply (rejection_cancels _ _ _ _ Scenario.token Scenario.privateKey Scenario.order).
  - reflexivity.
  - request_concrete.
  - decode_concrete.
  - vm_compute. reflexivity.
  - right. reflexivity.
Defined.

(** C2 as stated fails in a sandboxed context: the rejection of a token that
    is valid, unexpired and bound to the session of the context is answered
    [sandboxed], not [cancelled]. *)
Lemma rejection_claim_counterexample :
  resume_request (Scenario.resume_with Scenario.token false) Scenario.token false
  /\ decodes_to (Scenario.world Scenario.one_minute_later)
       (resolvePluginConfig Scenario.pluginConfig)
       Scenario.token Scenario.privateKey Scenario.order
  /\ (Date_now (Scenario.world Scenario.one_minute_later)
      <=? expiresAtMs Scenario.order)%float = true
  /\ session_matches Scenario.order Scenario.sandbox
  /\ execute (Scenario.world Scenario.one_minute_later) Scenario.pluginConfig
       Scenario.sandbox (Scenario.resume_with Scenario.token false)
     = (Failure "sandboxed", []).
Proof.
  split; [request_concrete|]. split; [decode_concrete|].
  split; [vm_compute; reflexivity|]. split; [right; reflexivity|].
  vm_compute. reflexivity.
Qed.

(** The staged token, resumed from another session. *)
Lemma foreign_session_is_refused_witness :
  execute (Scenario.world Scenario.one_minute_later) Scenario.pluginConfig
    Scenario.other_session (Scenario.resume_with Scenario.token true)
  = (Failure "session_mismatch", []).
Proof.
  apply (foreign_session_is_refused _ _ _ _ Scenario.token true
           Scenario.privateKey Scenario.order "sess" "other").
  - reflexivity.
  - request_concrete.
  - decode_concrete.
  - vm_compute. reflexivity.
  - reflexivity.
  - reflexivity.
  - discriminate.
  - discriminate.
  - discriminate.
Defined.

(** C6 as stated fails in two ways.  The staged order is bound to the session
    ["sess"]; resumed from a context that has no session, which differs from
    the binding, the request goes on and the rejection is answered
    [cancelled].  Resumed from another session after its expiry, it is
    answered [expired]. *)
Lemma session_claim_counterexample :
  (decodes_to (Scenario.world Scenario.one_minute_later)
     (resolvePluginConfig Scenario.pluginConfig)
     Scenario.token Scenario.privateKey Scenario.order
   /\ sessionKey Scenario.order = Some "sess"
   /\ ctx_sessionKey Scenario.no_session <> Some "sess"
   /\ execute (Scenario.world Scenario.one_minute_later) Scenario.pluginConfig
        Scenario.no_session (Scenario.resume_with Scenario.token false)
      = (Cancelled, []))
  /\
  (decodes_to (Scenario.world Scenario.ten_minutes_later)
     (resolvePluginConfig Scenario.pluginConfig)
     Scenario.token Scenario.privateKey Scenario.order
   /\ sessionKey Scenario.order = Some "sess"
   /\ ctx_sessionKey Scenario.other_session <> Some "sess"
   /\ execute (Scenario.world Scenario.ten_minutes_later) Scenario.pluginConfig
        Scenario.other_session (Scenario.resume_with Scenario.token true)
      = (Failure "expired", [])).
Proof.
  split; (split; [decode_concrete|]); (split; [reflexivity|]);
    (split; [discriminate|]); vm_compute; reflexivity.
Qed.

(** ** Approval: the gate is applied again *)

Section Approval.

Context {U : UnicodeCase}.

Variable w : World.
Variable pluginConfig : option JValue.
Variable ctx : ToolContext.
Variable rawParams : Record_unknown.

Let config := resolvePluginConfig pluginConfig.


(** C3.  Outside the sandbox, for a resume request with [approve = true] on a
    token that decodes to a [place_order] order, unexpired and matching the
    session: with trading disabled the answer is [trading_disabled]; with
    trading enabled and the market off the allowlist it is
    [market_not_allowed]; in both cases no request leaves the process.  Past
    these, the tick size is fetched, and a price that is not aligned to it is
    answered [invalid_tick] without a submission.  When every check passes
    the order goes to the client with the price, size and side of the token
    and the tick size and risk flag just fetched.  And a submission is only
    ever made in that last case. *)
Theorem approval_rechecks_the_gate token key pending :
  sandboxed ctx = false ->
  resume_request rawParams token true ->
  decodes_to w config token key pending ->
  (Date_now w <=? expiresAtMs pending)%float = true ->
  session_matches pending ctx ->
  action pending = "place_order" ->
  let slug := market_slug (market pending) in
  let id := tokenId pending in
  let result := execute w pluginConfig ctx rawParams in
  (tradeEnabled config = false -> result = (Failure "trading_disabled", []))
  /\ (tradeEnabled config = true -> isAllowedMarket config slug = false ->
      result = (Failure "market_not_allowed", []))
  /\ (forall ts,
         tradeEnabled config = true -> isAllowedMarket config slug = true ->
         client_ready w config key ->
         getTickSize w id = inr ts -> tick_misaligned pending ts = true ->
         result = (Failure "invalid_tick", [CreateOrDeriveApiKey; GetTickSize id]))
  /\ (forall ts nr,
         tradeEnabled config = true -> isAllowedMarket config slug = true ->
         client_ready w config key ->
         getTickSize w id = inr ts -> tick_misaligned pending ts = false ->
         getNegRisk w id = inr nr ->
         let options := {| tickSize := ts; negRisk := nr |} in
         result
         = (match createAndPostOrder w (submitted_order pending) options with
            | inr response => Placed response
            | inl e => Caught e
            end,
            [CreateOrDeriveApiKey; GetTickSize id; GetNegRisk id;
             CreateAndPostOrder (submitted_order pending) options]))
  /\ (forall order options,
         In (CreateAndPostOrder order options) (snd result) ->
         tradeEnabled config = true
         /\ isAllowedMarket config slug = true
         /\ exists ts nr,
             getTickSize w id = inr ts
             /\ tick_misaligned pending ts = false
             /\ getNegRisk w id = inr nr
             /\ order = submitted_order pending
             /\ options = {| tickSize := ts; negRisk := nr |}
             /\ snd result = [CreateOrDeriveApiKey; GetTickSize id; GetNegRisk id;
                              CreateAndPostOrder order options]).
Proof.
  intros Hs Hr Hd He Hm Ha slug id result.
  assert (R : result
              = settle
                  (answer_if (negb (tradeEnabled config)) (Failure "trading_disabled") ;;;
                   answer_if (negb (isAllowedMarket config slug))
                     (Failure "market_not_allowed") ;;;
                   resolveClobClient w config key ;;;
                   ts <- await (GetTickSize id) (getTickSize w id) ;;
                   answer_if (tick_misaligned pending ts) (Failure "invalid_tick") ;;;
                   nr <- await (GetNegRisk id) (getNegRisk w id) ;;
                   response <-
                     await (CreateAndPostOrder (submitted_order pending)
                              {| tickSize := ts; negRisk := nr |})
                       (createAndPostOrder w (submitted_order pending)
                          {| tickSize := ts; negRisk := nr |}) ;;
                   ret (Placed response))).
  { unfold result. rewrite (execute_resume w pluginConfig ctx rawParams token true key pending)
      by assumption.
    unfold resume_pending.
    rewrite (unexpired_not_expired w _ He), (session_matches_no_mismatch ctx _ Hm).
    cbn [negb]. flow. rewrite Ha. cbn [String.eqb Ascii.eqb Bool.eqb negb]. flow.
    fold config. rewrite allowlist_gate. reflexivity. }
  clearbody result. subst result.
  repeat apply conj.
  - intro T. rewrite T. cbn [negb]. flow. reflexivity.
  - intros T A. rewrite T, A. cbn [negb]. flow. reflexivity.
  - intros ts T A C G Mi. rewrite T, A, C. cbn [negb]. flow.
    rewrite bind_normal. rewrite G. flow. rewrite Mi. flow. reflexivity.
  - intros ts nr T A C G Mi N options. rewrite T, A, C. cbn [negb]. flow.
    rewrite bind_normal. rewrite G. flow. rewrite Mi. flow. rewrite N. flow.
    subst options.
    destruct (createAndPostOrder w (submitted_order pending)
                {| tickSize := ts; negRisk := nr |}); flow; reflexivity.
  - intros order options.
    destruct (tradeEnabled config); cbn [negb]; flow; [|simpl; tauto].
    destruct (isAllowedMarket config slug); cbn [negb]; flow; [|simpl; tauto].
    unfold resolveClobClient.
    destruct (walletAddress w key) as [e|address]; flow; [simpl; tauto|].
    destruct (createOrDeriveApiKey w) as [e|[]]; flow; [simpl; intuition discriminate|].
    match goal with
    | |- context [throw_if ?c ?m] => destruct c
    end; flow; [simpl; intuition discriminate|].
    destruct (getTickSize w id) as [e|ts]; flow; [simpl; intuition discriminate|].
    destruct (tick_misaligned pending ts) eqn:Mi; flow; [simpl; intuition discriminate|].
    destruct (getNegRisk w id) as [e|nr]; flow; [simpl; intuition discriminate|].
    destruct (createAndPostOrder w (submitted_order pending)
                {| tickSize := ts; negRisk := nr |}) as [e|response]; flow; simpl;
      intros [H|[H|[H|[H|[]]]]]; try discriminate; injection H as <- <-;
      (split; [reflexivity|]); (split; [reflexivity|]);
      exists ts, nr; repeat split; try reflexivity; assumption.
Qed.

End Approval.

(** ** Staging *)

Lemma bind_normal_inv {A B} (m : M A) (k : A -> M B) (b : B) (t : list Call) :
  bind m k = (Normal b, t) ->
  exists a t1 t2, m = (Normal a, t1) /\ k a = (Normal b, t2) /\ t = (t1 ++ t2)%list.
Proof.
  destruct m as [[a|r|e] t1]; simpl; try discriminate.
  destruct (k a) as [o t2] eqn:K. intros [= -> <-]. now exists a, t1, t2.
Qed.

Lemma answer_if_normal_inv c r (u : unit) t :
  answer_if c r = (Normal u, t) -> c = false /\ t = [].
Proof. destruct c; simpl; [discriminate|]. now intros [= <- <-]. Qed.

Lemma throw_if_normal_inv c msg (u : unit) t :
  throw_if c msg = (Normal u, t) -> c = false /\ t = [].
Proof. destruct c; simpl; [discriminate|]. now intros [= <- <-]. Qed.

Lemma lift_normal_inv {A} (x : Exception + A) a t :
  lift x = (Normal a, t) -> x = inr a /\ t = [].
Proof. destruct x; simpl; [discriminate|]. now intros [= <- <-]. Qed.

Lemma ret_normal_inv {A} (x a : A) t : ret x = (Normal a, t) -> x = a /\ t = [].
Proof. now intros [= <- <-]. Qed.

Lemma await_normal_inv {A} c (x : Exception + A) a t :
  await c x = (Normal a, t) -> x = inr a /\ t = [c].
Proof. destruct x; simpl; [discriminate|]. now intros [= <- <-]. Qed.

(** Takes apart a hypothesis that a chain of steps ran to its end. *)
Ltac invert_flow :=
  repeat match goal with
  | H : bind _ _ = (Normal _, _) |- _ =>
      apply bind_normal_inv in H; destruct H as (? & ? & ? & ? & H & ?)
  | H : answer_if _ _ = (Normal _, _) |- _ =>
      apply answer_if_normal_inv in H; destruct H
  | H : throw_if _ _ = (Normal _, _) |- _ =>
      apply throw_if_normal_inv in H; destruct H
  | H : lift _ = (Normal _, _) |- _ =>
      apply lift_normal_inv in H; destruct H
  | H : ret _ = (Normal _, _) |- _ =>
      apply ret_normal_inv in H; destruct H
  | H : await _ _ = (Normal _, _) |- _ =>
      apply await_normal_inv in H; destruct H
  | H : respond _ = (Normal _, _) |- _ => discriminate H
  | H : throw _ = (Normal _, _) |- _ => discriminate H
  end.

(** *** Flows that make no submission *)

Lemma quiet_bind {A B} (m : M A) (k : A -> M B) :
  quiet m -> (forall a, quiet (k a)) -> quiet (bind m k).
Proof.
  unfold quiet. intros Hm Hk. destruct m as [[a|r|e] t]; simpl in *; try assumption.
  specialize (Hk a). destruct (k a) as [o t']. simpl in *.
  rewrite forallb_app, Hm, Hk. reflexivity.
Qed.

Lemma quiet_silent {A} (o : Outcome A) : quiet (o, []).
Proof. reflexivity. Qed.

Lemma quiet_answer_if c r : quiet (answer_if c r).
Proof. destruct c; reflexivity. Qed.

Lemma quiet_throw_if c msg : quiet (throw_if c msg).
Proof. destruct c; reflexivity. Qed.

Lemma quiet_lift {A} (x : Exception + A) : quiet (lift x).
Proof. destruct x; reflexivity. Qed.

Lemma quiet_await {A} c (x : Exception + A) :
  is_submission c = false -> quiet (await c x).
Proof. intro H. unfold quiet, await. simpl. now rewrite H. Qed.

Ltac quiet :=
  repeat first
    [ apply quiet_bind; [|intro]
    | apply quiet_answer_if
    | apply quiet_throw_if
    | apply quiet_lift
    | apply quiet_await; reflexivity
    | apply quiet_silent
    | match goal with
      | |- quiet (match ?x with _ => _ end) => destruct x
      | |- quiet (if ?c then _ else _) => destruct c
      end ].

Lemma quiet_not_in {A} (m : M A) order options :
  quiet m -> ~ In (CreateAndPostOrder order options) (snd m).
Proof.
  unfold quiet. intros Q H. rewrite forallb_forall in Q.
  apply Q in H. discriminate.
Qed.

Section Staging.

Context {U : UnicodeCase}.

Variable w : World.
Variable config : PluginConfig.
Variable ctx : ToolContext.
Variable rawParams : Record_unknown.

Lemma draft_order_quiet : quiet (draft_order w config ctx rawParams).
Proof. unfold draft_order, resolveGammaMarket. quiet. Qed.

(** What holds of a draft: the gates it passed and where its fields come
    from. *)
Lemma draft_order_inv d calls :
  draft_order w config ctx rawParams = (Normal d, calls) ->
  tradeEnabled config = true
  /\ sandboxed ctx = false
  /\ resolvePrivateKey w config = Some (draft_privateKey d)
  /\ readNumberParam rawParams "price" = inr (draft_price d)
  /\ readNumberParam rawParams "size" = inr (draft_size d)
  /\ (draft_price d <=? 0)%float = false
  /\ (1 <=? draft_price d)%float = false
  /\ (draft_size d <=? 0)%float = false
  /\ (draft_side d = "buy" \/ draft_side d = "sell")
  /\ forallb (fun c => negb (is_submission c)) calls = true.
Proof.
  intro H. pose proof draft_order_quiet as Q. unfold quiet in Q.
  rewrite H in Q. cbn [snd] in Q. unfold draft_order in H.
  destruct (tradeEnabled config); [|discriminate H].
  destruct (sandboxed ctx); [discriminate H|].
  rewrite !bind_answer_if_false in H.
  destruct (resolvePrivateKey w config) as [key|]; [|discriminate H].
  invert_flow. subst. cbn [draft_privateKey draft_price draft_size draft_side].
  repeat match goal with
  | H : _ || _ = false |- _ => apply orb_false_elim in H; destruct H
  end.
  repeat (split; [solve [reflexivity | assumption]|]).
  split; [|exact Q].
  match goal with
  | H : negb (String.eqb ?s "buy") && _ = false |- _ =>
      destruct (String.eqb s "buy") eqn:E1;
      [apply String.eqb_eq in E1; now left|];
      destruct (String.eqb s "sell") eqn:E2;
      [apply String.eqb_eq in E2; now right|discriminate H]
  end.
Qed.

End Staging.

(** *** Only [place_order] stages an order *)


Lemma never_stages_bind {A B} (m : M A) (k : A -> M B) :
  never_stages m -> (forall a, never_stages (k a)) -> never_stages (bind m k).
Proof.
  intros Hm Hk r t. destruct m as [[a|r0|e] t1]; simpl.
  - destruct (k a) as [o t2] eqn:K. intros [= -> <-]. eapply Hk. exact K.
  - intros [= <- <-]. eapply Hm. reflexivity.
  - discriminate.
Qed.

Lemma never_returns_staging_bind {A} (m : M A) (k : A -> M ToolResult) :
  (forall a, never_returns_staging (k a)) -> never_returns_staging (bind m k).
Proof.
  intros Hk r t H. apply bind_normal_inv in H. destruct H as (a & t1 & t2 & _ & K & _).
  eapply Hk. exact K.
Qed.

Lemma never_stages_answer_if c r : is_staging r = false -> never_stages (answer_if c r).
Proof. intros Hr r0 t. destruct c; simpl; [|discriminate]. now intros [= <- <-]. Qed.

Lemma never_stages_respond {A} r : is_staging r = false -> never_stages (@respond A r).
Proof. intros Hr r0 t. now intros [= <- <-]. Qed.

Lemma never_stages_throw_if c msg : never_stages (throw_if c msg).
Proof. intros r t. destruct c; discriminate. Qed.

Lemma never_stages_lift {A} (x : Exception + A) : never_stages (lift x).
Proof. intros r t. destruct x; discriminate. Qed.

Lemma never_stages_await {A} c (x : Exception + A) : never_stages (await c x).
Proof. intros r t. destruct x; discriminate. Qed.

Lemma never_stages_ret {A} (a : A) : never_stages (ret a).
Proof. intros r t. discriminate. Qed.

Lemma never_stages_throw {A} e : never_stages (@throw A e).
Proof. intros r t. discriminate. Qed.

Ltac never_stages :=
  repeat first
    [ apply never_stages_bind; [|intro]
    | apply never_stages_answer_if; reflexivity
    | apply never_stages_respond; reflexivity
    | apply never_stages_throw_if
    | apply never_stages_lift
    | apply never_stages_await
    | apply never_stages_ret
    | apply never_stages_throw
    | match goal with
      | |- never_stages (match ?x with _ => _ end) => destruct x
      | |- never_stages (if ?c then _ else _) => destruct c
      end ].

Section OnlyPlaceOrderStages.

Context {U : UnicodeCase}.

Variable w : World.
Variable pluginConfig : option JValue.
Variable ctx : ToolContext.
Variable rawParams : Record_unknown.

Let config := resolvePluginConfig pluginConfig.

Lemma draft_order_never_stages : never_stages (draft_order w config ctx rawParams).
Proof.
  unfold draft_order, resolveGammaMarket. never_stages.
Qed.

Lemma resume_never_stages : never_stages (resume w config ctx rawParams).
Proof.
  unfold resume, resume_pending, resolveClobClient. never_stages.
Qed.

Lemma resume_never_returns_staging :
  never_returns_staging (resume w config ctx rawParams).
Proof.
  unfold resume. repeat (apply never_returns_staging_bind; intro).
  destruct (resolvePrivateKey w config); [|intros r t; discriminate].
  apply never_returns_staging_bind; intro parsed.
  destruct (PendingOrder_ofJS parsed); [|intros r t; discriminate].
  unfold resume_pending. repeat (apply never_returns_staging_bind; intro).
  intros r t [= <- <-]. reflexivity.
Qed.

(** Whenever [execute] answers with a staged order, the request was a
    [place_order] that passed every gate, and the order and the token are
    the ones built from its draft at the time of the call. *)
Lemma execute_needs_approval_inv order token calls :
  execute w pluginConfig ctx rawParams = (NeedsApproval order token, calls) ->
  exists d,
    readStringParam rawParams "action" true = inr "place_order"
    /\ draft_order w config ctx rawParams = (Normal d, calls)
    /\ exceedsNotionalLimit config (approxNotionalUsd_of (draft_price d) (draft_size d))
       = false
    /\ order = pending_order ctx d (Date_now w)
    /\ token = encodeResumeToken order (draft_privateKey d).
Proof.
  unfold execute. fold config.
  destruct (readStringParam rawParams "action" true) as [e|act] eqn:Ha;
    [discriminate|].
  rewrite bind_lift_inr.
  destruct (String.eqb_spec act "place_order") as [->|_].
  - unfold place_order.
    destruct (draft_order w config ctx rawParams) as [[d|r|e] t] eqn:D.
    + rewrite bind_normal. unfold stage_order.
      destruct (exceedsNotionalLimit _ _) eqn:X.
      * rewrite bind_answer_if_true. cbn. discriminate.
      * rewrite bind_answer_if_false. cbn. rewrite app_nil_r.
        intros [= <- <- <-]. exists d. repeat split; auto.
    + cbn. intros [= -> <-].
      pose proof (draft_order_never_stages _ _ D). discriminate.
    + cbn. discriminate.
  - destruct (String.eqb act "resume").
    + destruct (resume w config ctx rawParams) as [[r|r|e] t] eqn:R; cbn.
      * intros [= -> <-]. pose proof (resume_never_returns_staging _ _ R). discriminate.
      * intros [= -> <-]. pose proof (resume_never_stages _ _ R). discriminate.
      * discriminate.
    + destruct (existsb _ _); cbn; discriminate.
Qed.

End OnlyPlaceOrderStages.

(** ** No submission without an approval *)

Section Submission.

Context {U : UnicodeCase}.

Variable w : World.
Variable pluginConfig : option JValue.
Variable ctx : ToolContext.
Variable rawParams : Record_unknown.

Let config := resolvePluginConfig pluginConfig.

Lemma place_order_quiet : quiet (place_order w config ctx rawParams).
Proof.
  unfold place_order, stage_order.
  apply quiet_bind; [apply draft_order_quiet|intro d]. quiet.
Qed.

Lemma resolveClobClient_quiet key : quiet (resolveClobClient w config key).
Proof. unfold resolveClobClient. quiet. Qed.

(** The submissions of [resume_pending]: there is one only when every check
    of the lifecycle and of the gate has passed, and it carries the order of
    the token with the facts just fetched. *)
Lemma resume_pending_submission key approve pending order options :
  In (CreateAndPostOrder order options)
     (snd (resume_pending w config ctx key approve pending)) ->
  approve = true
  /\ expired pending (Date_now w) = false
  /\ sessionMismatch pending ctx = false
  /\ tradeEnabled config = true
  /\ action pending = "place_order"
  /\ isAllowedMarket config (market_slug (market pending)) = true
  /\ exists ts nr,
      getTickSize w (tokenId pending) = inr ts
      /\ tick_misaligned pending ts = false
      /\ getNegRisk w (tokenId pending) = inr nr
      /\ order = submitted_order pending
      /\ options = {| tickSize := ts; negRisk := nr |}.
Proof.
  unfold resume_pending.
  destruct (expired pending (Date_now w)); flow; [simpl; tauto|].
  destruct (sessionMismatch pending ctx); flow; [simpl; tauto|].
  destruct approve; cbn [negb]; flow; [|simpl; tauto].
  destruct (tradeEnabled config); cbn [negb]; flow; [|simpl; tauto].
  destruct (String.eqb_spec (action pending) "place_order") as [Ea|_];
    cbn [negb]; flow; [|simpl; tauto].
  rewrite allowlist_gate.
  destruct (isAllowedMarket config (market_slug (market pending)));
    cbn [negb]; flow; [|simpl; tauto].
  pose proof (resolveClobClient_quiet key) as Q.
  destruct (resolveClobClient w config key) as [[[]|r|e] t];
    [|intro H; destruct (quiet_not_in _ _ _ Q H)..].
  rewrite bind_normal. cbn [snd].
  intro H. apply in_app_or in H. destruct H as [H|H];
    [destruct (quiet_not_in _ _ _ Q H)|].
  revert H.
  destruct (getTickSize w (tokenId pending)) as [e|ts]; flow;
    [simpl; intuition discriminate|].
  fold (tick_misaligned pending ts).
  destruct (tick_misaligned pending ts) eqn:Mi; flow; [simpl; intuition discriminate|].
  destruct (getNegRisk w (tokenId pending)) as [e|nr]; flow;
    [simpl; intuition discriminate|].
  fold (submitted_order pending).
  destruct (createAndPostOrder w (submitted_order pending)
              {| tickSize := ts; negRisk := nr |}) as [e|response]; flow; simpl;
    intros [H|[H|[H|[]]]]; try discriminate; injection H as <- <-;
    repeat (split; [reflexivity || assumption|]);
    exists ts, nr; repeat split; reflexivity || assumption.
Qed.

(** Whatever the request, an order is submitted only by a [resume] outside
    the sandbox that approves a token which decodes under the configured
    key, has not expired and is not bound to another session, with trading
    enabled, the market allowed and the price aligned to the tick size just
    fetched. *)
Lemma submission_is_approved order options :
  In (CreateAndPostOrder order options) (snd (execute w pluginConfig ctx rawParams)) ->
  sandboxed ctx = false
  /\ exists token key pending,
      resume_request rawParams token true
      /\ decodes_to w config token key pending
      /\ expired pending (Date_now w) = false
      /\ sessionMismatch pending ctx = false
      /\ tradeEnabled config = true
      /\ action pending = "place_order"
      /\ isAllowedMarket config (market_slug (market pending)) = true
      /\ exists ts nr,
          getTickSize w (tokenId pending) = inr ts
          /\ tick_misaligned pending ts = false
          /\ getNegRisk w (tokenId pending) = inr nr
          /\ order = submitted_order pending
          /\ options = {| tickSize := ts; negRisk := nr |}.
Proof.
  unfold execute. fold config.
  destruct (readStringParam rawParams "action" true) as [e|act] eqn:Ha;
    [simpl; tauto|].
  rewrite bind_lift_inr.
  destruct (String.eqb_spec act "place_order") as [->|_].
  { pose proof place_order_quiet as Q.
    destruct (place_order w config ctx rawParams) as [[r|r|e] t]; cbn [settle snd];
      intro H; destruct (quiet_not_in _ _ _ Q H). }
  destruct (String.eqb_spec act "resume") as [->|_].
  2:{ destruct (existsb _ _); simpl; tauto. }
  unfold resume.
  destruct (sandboxed ctx); flow; [simpl; tauto|].
  destruct (readStringParam rawParams "token" true) as [e|token] eqn:Ht; flow;
    [simpl; tauto|].
  destruct (JSON.get rawParams "approve") as [[|approve| | | |]|] eqn:Hp; flow;
    try (simpl; tauto).
  destruct (resolvePrivateKey w config) as [key|] eqn:Hk; [|simpl; tauto].
  destruct (decodeResumeToken token key) as [e|parsed] eqn:Hd; flow; [simpl; tauto|].
  destruct (PendingOrder_ofJS parsed) as [pending|] eqn:Ho; [|simpl; tauto].
  intro H.
  assert (H' : In (CreateAndPostOrder order options)
                  (snd (resume_pending w config ctx key approve pending))).
  { destruct (resume_pending w config ctx key approve pending) as [[r|r|e] t];
      exact H. }
  apply resume_pending_submission in H'.
  destruct H' as (-> & He & Hm & Te & Ea & Al & X).
  split; [reflexivity|]. exists token, key, pending.
  split; [repeat split; assumption|].
  split; [split; [assumption|exists parsed; split; assumption]|].
  repeat (split; [assumption|]). exact X.
Qed.

End Submission.

(** *** The notional limit *)

Lemma normalizeNumber_finite v fallback :
  Number.isFinite fallback = true -> Number.isFinite (normalizeNumber v fallback) = true.
Proof.
  intro F. unfold normalizeNumber.
  match goal with |- context [negb (Number.isFinite ?n)] =>
    destruct (Number.isFinite n) eqn:E end; simpl; assumption.
Qed.

Lemma Math_max_not_nan a b :
  PrimFloat.is_nan a = false -> PrimFloat.is_nan b = false ->
  PrimFloat.is_nan (Math.max a b) = false.
Proof.
  intros Ha Hb. unfold Math.max. rewrite Ha, Hb. simpl.
  destruct (a <? b)%float; [assumption|].
  destruct (b <? a)%float; [assumption|].
  destruct (PrimFloat.get_sign a); assumption.
Qed.

(** The configured limit is a number: [resolvePluginConfig] never stores
    [NaN]. *)
Lemma maxNotionalUsd_not_nan pluginConfig :
  PrimFloat.is_nan (maxNotionalUsd (resolvePluginConfig pluginConfig)) = false.
Proof.
  cbn [resolvePluginConfig maxNotionalUsd]. apply Math_max_not_nan.
  - reflexivity.
  - apply finite_not_nan, normalizeNumber_finite. reflexivity.
Qed.

(** [readNumberParam] returns finite numbers only. *)
Lemma readNumberParam_finite params key v :
  readNumberParam params key = inr v -> Number.isFinite v = true.
Proof.
  unfold readNumberParam.
  destruct (JSON.get params key) as [[| |raw|raw| |]|]; try discriminate.
  - destruct (Number.isFinite raw) eqn:F; [|discriminate]. now intros [= <-].
  - destruct (truthy_string (JSString.trim raw)); [|discriminate].
    destruct (Number.isFinite (Number.parseFloat (JSString.trim raw))) eqn:F;
      [|discriminate].
    now intros [= <-].
Qed.

Section Notional.

Context {U : UnicodeCase}.

Variable w : World.
Variable pluginConfig : option JValue.
Variable ctx : ToolContext.
Variable rawParams : Record_unknown.

Let config := resolvePluginConfig pluginConfig.
Let limit := maxNotionalUsd config.

(** C8.  For a finite price and a finite size, which are all that
    [readNumberParam] returns, the check of the notional limit passes exactly
    when the configured limit is not positive or [price * size <= limit].  A
    [place_order] request that reaches the check with [price * size] above a
    positive limit is answered [notional_limit]; and no request whose price
    and size have a product above a positive limit is ever answered with a
    token. *)
Theorem notional_limit_gate :
  (forall price size,
      Number.isFinite price = true -> Number.isFinite size = true ->
      exceedsNotionalLimit config (approxNotionalUsd_of price size) = false
      <-> ((limit <=? 0)%float = true \/ (price * size <=? limit)%float = true))
  /\ (forall d calls,
         readStringParam rawParams "action" true = inr "place_order" ->
         draft_order w config ctx rawParams = (Normal d, calls) ->
         (0 <? limit)%float = true ->
         (limit <? draft_price d * draft_size d)%float = true ->
         execute w pluginConfig ctx rawParams = (Failure "notional_limit", calls))
  /\ (forall price size,
         readNumberParam rawParams "price" = inr price ->
         readNumberParam rawParams "size" = inr size ->
         (0 <? limit)%float = true ->
         (limit <? price * size)%float = true ->
         forall order token,
           fst (execute w pluginConfig ctx rawParams) <> NeedsApproval order token).
Proof.
  pose proof (maxNotionalUsd_not_nan pluginConfig) as Hl. fold config limit in Hl.
  repeat apply conj.
  - intros price size Fp Fs. pose proof (mul_finite_not_nan _ _ Fp Fs) as Hn.
    unfold exceedsNotionalLimit, approxNotionalUsd_of. fold limit.
    rewrite (ltb_negb_leb 0 limit) by (auto; reflexivity).
    rewrite (ltb_negb_leb limit (price * size)) by auto.
    destruct (limit <=? 0)%float, (price * size <=? limit)%float; simpl;
      intuition congruence.
  - intros d calls Ha Hd H0 Hx. unfold execute. fold config. rewrite Ha.
    rewrite bind_lift_inr. cbn [String.eqb Ascii.eqb Bool.eqb].
    unfold place_order. rewrite Hd, bind_normal. unfold stage_order.
    unfold exceedsNotionalLimit, approxNotionalUsd_of. fold limit.
    rewrite H0, Hx. rewrite bind_answer_if_true. cbn. now rewrite app_nil_r.
  - intros price size Hp Hs H0 Hx order token E.
    destruct (execute w pluginConfig ctx rawParams) as [r calls] eqn:X.
    cbn in E. subst r.
    apply execute_needs_approval_inv in X. destruct X as (d & _ & Hd & Hn & _).
    apply draft_order_inv in Hd. destruct Hd as (_ & _ & _ & Hp' & Hs' & _).
    fold config in Hn.
    rewrite Hp in Hp'. rewrite Hs in Hs'. injection Hp' as Ep. injection Hs' as Es.
    unfold exceedsNotionalLimit, approxNotionalUsd_of in Hn. fold limit in Hn.
    rewrite <- Ep, <- Es, H0, Hx in Hn. discriminate.
Qed.

(** C10.  The order of every staged answer is created at the time of the call
    and expires 300000 milliseconds, five minutes, later. *)
Theorem staged_order_expires_after_five_minutes order token :
  fst (execute w pluginConfig ctx rawParams) = NeedsApproval order token ->
  createdAtMs order = Date_now w
  /\ expiresAtMs order = (createdAtMs order + 300000)%float.
Proof.
  intro E. destruct (execute w pluginConfig ctx rawParams) as [r calls] eqn:X.
  cbn in E. subst r.
  apply execute_needs_approval_inv in X. destruct X as (d & _ & _ & _ & -> & _).
  split; reflexivity.
Qed.

End Notional.

(** Scenario B: price 0.62 and size 1000 under a limit of 100. *)
Lemma notional_limit_gate_witness :
  execute (Scenario.world Scenario.staged_at) Scenario.pluginConfig Scenario.ctx
    (Scenario.propose 0.62 1000)
  = (Failure "notional_limit", []).
Proof.
  eapply (proj1 (proj2 (notional_limit_gate (Scenario.world Scenario.staged_at)
                          Scenario.pluginConfig Scenario.ctx
                          (Scenario.propose 0.62 1000)))).
  - vm_compute. reflexivity.
  - vm_compute. reflexivity.
  - vm_compute. reflexivity.
  - vm_compute. reflexivity.
Defined.

(** Scenario A: price 0.62 and size 10 are staged as [Scenario.order], with
    the token [Scenario.token]. *)
Lemma staged_order_expires_after_five_minutes_witness :
  createdAtMs Scenario.order = Scenario.staged_at
  /\ expiresAtMs Scenario.order = (createdAtMs Scenario.order + 300000)%float.
Proof.
  apply (staged_order_expires_after_five_minutes (Scenario.world Scenario.staged_at)
           Scenario.pluginConfig Scenario.ctx (Scenario.propose 0.62 10)
           Scenario.order Scenario.token).
  vm_compute. reflexivity.
Defined.

(** The staged token, approved one minute after staging: the tick size is
    fetched, the price is aligned to it, and the order is submitted. *)
Lemma approval_rechecks_the_gate_witness :
  execute (Scenario.world Scenario.one_minute_later) Scenario.pluginConfig
    Scenario.ctx (Scenario.resume_with Scenario.token true)
  = (Placed {| orderID := Some (JString "order-1"); status := Some (JString "live") |},
     [CreateOrDeriveApiKey; GetTickSize "token"; GetNegRisk "token";
      CreateAndPostOrder
        {| tokenID := "token"; order_price := 0.62; order_size := 10; order_side := BUY |}
        {| tickSize := "0.01"; negRisk := false |}]).
Proof.
  destruct (approval_rechecks_the_gate (Scenario.world Scenario.one_minute_later)
              Scenario.pluginConfig Scenario.ctx
              (Scenario.resume_with Scenario.token true)
              Scenario.token Scenario.privateKey Scenario.order)
    as (_ & _ & _ & H & _).
  - reflexivity.
  - request_concrete.
  - decode_concrete.
  - vm_compute. reflexivity.
  - right. reflexivity.
  - reflexivity.
  - apply (H "0.01" false); vm_compute; reflexivity.
Defined.

(** ** Outcome resolution *)

Lemma parseJsonStringArray_truthy v l :
  parseJsonStringArray v = Some l -> Forall (fun s => truthy_string s = true) l.
Proof.
  unfold parseJsonStringArray. destruct v as [v|]; [|discriminate].
  destruct (negb (truthy_string (JSString.trim v))); [discriminate|].
  destruct (JSON.parse (JSString.trim v)) as [[| | | |items|]|]; try discriminate.
  match goal with |- context [filter ?p ?xs] => set (out := filter p xs) end.
  assert (F : Forall (fun s => truthy_string s = true) out).
  { apply Forall_forall. intros s Hs. apply filter_In in Hs. apply Hs. }
  destruct out; [discriminate|]. now intros [= <-].
Qed.

Lemma or_empty_truthy v :
  Forall (fun s => truthy_string s = true) (or_empty (parseJsonStringArray v)).
Proof.
  destruct (parseJsonStringArray v) eqn:E; simpl; [|constructor].
  eapply parseJsonStringArray_truthy; eassumption.
Qed.

(** [findIndex] over the labels finds the first pair of [combine]. *)
Lemma findIndex_find (p : string -> bool) labels tokens :
  List.length labels = List.length tokens ->
  match findIndex p labels with
  | Some i =>
      find (fun pair => p (fst pair)) (combine labels tokens)
      = Some (nth i labels "", nth i tokens "")
      /\ nth_error tokens i = Some (nth i tokens "")
      /\ nth_error labels i = Some (nth i labels "")
  | None => find (fun pair => p (fst pair)) (combine labels tokens) = None
  end.
Proof.
  revert tokens. induction labels as [|l ls IH]; intros [|t ts] E; try discriminate.
  - reflexivity.
  - simpl. destruct (p l) eqn:P; simpl.
    + auto.
    + injection E as E. specialize (IH ts E).
      destruct (findIndex p ls) as [i|]; simpl; auto.
Qed.

Section Resolver.

Context {U : UnicodeCase}.

Lemma toLowerCase_empty : toLowerCase "" = "".
Proof. now rewrite toLowerCase_ascii. Qed.

(** On lists of non-empty instrument ids, the resolver of the program is the
    resolver of the specification. *)
Lemma resolveOutcomeIn_refines tokens labels outcome :
  Forall (fun s => truthy_string s = true) tokens ->
  resolveOutcomeIn tokens labels outcome
  = match Spec.resolveOutcome labels tokens (given_label outcome) with
    | inl e => inl (resolve_error outcome e)
    | inr r => inr r
    end.
Proof.
  intro T. destruct tokens as [|t ts]; [reflexivity|].
  unfold resolveOutcomeIn, Spec.resolveOutcome, given_label.
  assert (T0 : truthy_string t = true) by (inversion T; assumption).
  destruct outcome as [o|]; cbn [truthy_option].
  2:{ cbn. rewrite T0. reflexivity. }
  destruct (truthy_string o) eqn:To; cbn [andb].
  2:{ cbn. rewrite T0. reflexivity. }
  cbn [truthy_option]. fold (normalizeOutcomeLabel o).
  destruct (truthy_string (normalizeOutcomeLabel o)) eqn:Tn; cbn [andb negb].
  2:{ destruct (normalizeOutcomeLabel o) eqn:N; [|discriminate].
      cbn. rewrite T0. reflexivity. }
  destruct (Nat.eqb (List.length labels) (List.length (t :: ts))) eqn:L; cbn [andb].
  - apply Nat.eqb_eq in L.
    assert (Nz : Nat.ltb 0 (List.length labels) = true)
      by (apply Nat.ltb_lt; rewrite L; simpl; lia).
    assert (Nz' : Nat.eqb (List.length labels) 0 = false)
      by (apply Nat.eqb_neq; rewrite L; simpl; lia).
    rewrite Nz, Nz'. cbn [negb].
    pose proof (findIndex_find
                  (fun lab => String.eqb (normalizeOutcomeLabel lab) (normalizeOutcomeLabel o))
                  labels (t :: ts) L) as F.
    unfold Spec.same_label. unfold normalizeOutcomeLabel in *.
    destruct (findIndex _ labels) as [i|].
    + destruct F as (F & Ft & Fl). rewrite F, Ft, Fl.
      assert (Ti : truthy_string (nth i (t :: ts) "") = true).
      { rewrite Forall_forall in T. apply T. eapply nth_error_In. exact Ft. }
      cbn [truthy_option]. rewrite Ti. reflexivity.
    + rewrite F. reflexivity.
  - unfold normalizeOutcomeLabel.
    destruct (String.eqb (toLowerCase (JSString.trim o)) "yes") eqn:Y.
    + cbn. rewrite T0. reflexivity.
    + cbn [andb]. destruct (String.eqb (toLowerCase (JSString.trim o)) "no") eqn:N.
      * cbn [andb nth_error nth]. destruct ts as [|t1 ts'].
        -- cbn. reflexivity.
        -- assert (T1 : truthy_string t1 = true)
             by (inversion T as [|? ? ? T']; inversion T'; assumption).
           cbn. rewrite T1. reflexivity.
      * cbn. reflexivity.
Qed.

(** C7.  The resolver follows the order of the specification: on the labels
    and instrument ids read from the market and the label the caller gave, it
    answers what the five steps answer, its errors being those of
    NoTradableInstruments, UnknownOutcome and OutcomeUnresolvable.  For the
    labels Yes and No and the instruments T1 and T2, every label that is
    ["yes"] up to case and surrounding white space resolves to T1. *)
Theorem resolver_follows_the_specification :
  (forall market outcome,
      resolveOutcomeToken market outcome
      = match Spec.resolveOutcome
                (or_empty (parseJsonStringArray (gm_outcomes market)))
                (or_empty (parseJsonStringArray (gm_clobTokenIds market)))
                (given_label outcome) with
        | inl e => inl (resolve_error outcome e)
        | inr r => inr r
        end)
  /\ (forall label,
         normalizeOutcomeLabel label = "yes" ->
         resolveOutcomeToken yes_no_market (Some label) = inr ("T1", Some "Yes")).
Proof.
  split.
  - intros market outcome. unfold resolveOutcomeToken.
    apply resolveOutcomeIn_refines, or_empty_truthy.
  - intros label Hy. unfold resolveOutcomeToken.
    rewrite resolveOutcomeIn_refines by apply or_empty_truthy.
    replace (or_empty (parseJsonStringArray (gm_outcomes yes_no_market)))
      with ["Yes"; "No"] by (vm_compute; reflexivity).
    replace (or_empty (parseJsonStringArray (gm_clobTokenIds yes_no_market)))
      with ["T1"; "T2"] by (vm_compute; reflexivity).
    assert (G : given_label (Some label) = Some label).
    { unfold given_label. rewrite Hy.
      destruct label; [|reflexivity].
      unfold normalizeOutcomeLabel in Hy. cbn in Hy.
      rewrite toLowerCase_empty in Hy. discriminate. }
    rewrite G. cbn [Spec.resolveOutcome List.length Nat.eqb andb negb combine find fst].
    unfold Spec.same_label. unfold normalizeOutcomeLabel in Hy. rewrite Hy.
    replace (JSString.trim "Yes") with "Yes" by (vm_compute; reflexivity).
    rewrite (toLowerCase_ascii "Yes") by reflexivity.
    reflexivity.
Qed.

End Resolver.

(** [" YES "] is ["yes"] up to case and white space. *)
Lemma resolver_follows_the_specification_witness :
  resolveOutcomeToken yes_no_market (Some " YES ") = inr ("T1", Some "Yes").
Proof.
  apply (proj2 resolver_follows_the_specification).
  vm_compute. reflexivity.
Defined.

(** ** The codec: strings, base64url and the shape of a token *)

Lemma append_assoc (a b c : string) : (a ++ b) ++ c = a ++ (b ++ c).
Proof. induction a; simpl; congruence. Qed.

Lemma append_nil_r (a : string) : a ++ "" = a.
Proof. induction a; simpl; congruence. Qed.


Lemma split_dotless a : dotless a = true -> JSString.split "." a = [a].
Proof.
  induction a as [|c r IH]; simpl; [reflexivity|].
  intro H. apply andb_true_iff in H. destruct H as [Hc Hr].
  apply negb_true_iff in Hc. rewrite Hc, (IH Hr). reflexivity.
Qed.

Lemma split_at_dot a r :
  dotless a = true -> JSString.split "." (a ++ String "." r) = a :: JSString.split "." r.
Proof.
  induction a as [|c a IH]; simpl; [reflexivity|].
  intro H. apply andb_true_iff in H. destruct H as [Hc Hr].
  apply negb_true_iff in Hc. rewrite Hc, (IH Hr). reflexivity.
Qed.

Lemma get_split i s a :
  String.get i s = Some a ->
  forall c, exists p q, s = p ++ String a q /\ replace_at i c s = p ++ String c q.
Proof.
  revert i. induction s as [|b s IH]; intros [|j] H c; simpl in H; try discriminate.
  - injection H as ->. exists "", s. split; reflexivity.
  - destruct (IH j H c) as (p & q & E1 & E2).
    exists (String b p), q. simpl. split; congruence.
Qed.






Lemma list_ind3 {A} (P : list A -> Prop) :
  P [] -> (forall a, P [a]) -> (forall a b, P [a; b]) ->
  (forall a b c r, P r -> P (a :: b :: c :: r)) ->
  forall l, P l.
Proof.
  intros H0 H1 H2 H3.
  fix IH 1. intros [|a [|b [|c r]]];
    [exact H0 | apply H1 | apply H2 | apply H3; apply IH].
Qed.






(** ** The codec: UTF-8 *)

Module Utf8Facts.
Import Utf8.
















End Utf8Facts.

Module JSONTextFacts.
Import Utf8 Utf8Facts JSON.






End JSONTextFacts.

Import Utf8Facts JSONTextFacts.

(** ** The codec: the text of numbers and of JSON values *)

Module NumberTextFacts.








End NumberTextFacts.

Module WellFormedText.
Import Utf8 Utf8Facts JSON NumberTextFacts.





End WellFormedText.

Import NumberTextFacts WellFormedText.

(** ** The codec: decoding *)




Lemma Buffer_eqb_fromString a b :
  Buffer_eqb (Utf8.fromString a) (Utf8.fromString b) = String.eqb a b.
Proof.
  unfold Buffer_eqb, Utf8.fromString. now rewrite !string_of_list_ascii_of_string.
Qed.

(** The comparison of [decodeResumeToken] is the equality of the two
    signatures. *)
Lemma signature_check sig expected :
  negb (Nat.eqb (List.length (Utf8.fromString sig)) (List.length (Utf8.fromString expected)))
  || negb (Buffer_eqb (Utf8.fromString sig) (Utf8.fromString expected))
  = negb (String.eqb sig expected).
Proof.
  rewrite Buffer_eqb_fromString. destruct (String.eqb_spec sig expected) as [->|N].
  - now rewrite Nat.eqb_refl.
  - apply orb_true_r.
Qed.





(** ** The codec: reading back what was written *)

Section ReadBack.

Import JSON.

Lemma string_body_unicode_low h3 h4 u r2 acc :
  hex4 "0" "0" h3 h4 = Some u -> (u <? 55296)%Z = true ->
  string_body (String bs (String "u" (String "0" (String "0" (String h3 (String h4 r2)))))) acc
  = string_body r2 (push (utf8_rev u) acc).
Proof.
  intros H L.
  assert (N : (55296 <=? u)%Z = false) by (apply Z.leb_gt; apply Z.ltb_lt in L; lia).
  cbn [string_body].
  change (code bs =? 34)%Z with false. change (code bs <? 32)%Z with false.
  change (code bs =? 92)%Z with true. cbv iota.
  change (code "u" =? 34)%Z with false. change (code "u" =? 92)%Z with false.
  change (code "u" =? 47)%Z with false. change (code "u" =? 98)%Z with false.
  change (code "u" =? 102)%Z with false. change (code "u" =? 110)%Z with false.
  change (code "u" =? 114)%Z with false. change (code "u" =? 116)%Z with false.
  change (code "u" =? 117)%Z with true. cbv iota.
  rewrite H.
  destruct r2 as [|b1 [|b2 [|l1 [|l2 [|l3 [|l4 r3]]]]]]; try reflexivity.
  destruct (hex4 l1 l2 l3 l4); [|reflexivity].
  rewrite N. rewrite !andb_false_r. reflexivity.
Qed.

Lemma string_body_escape_char c rest acc :
  string_body (escape_char c ++ rest) acc = string_body rest (String c acc).
Proof.
  destruct c as [[] [] [] [] [] [] [] []];
    first [ reflexivity
          | eapply eq_trans;
            [eapply string_body_unicode_low; reflexivity | reflexivity] ].
Qed.

Lemma string_rev_onto_app s : forall acc,
  string_rev_onto s acc = string_rev_onto s "" ++ acc.
Proof.
  induction s as [|c r IH]; intro acc; simpl; [reflexivity|].
  rewrite (IH (String c acc)), (IH (String c "")).
  now rewrite append_assoc.
Qed.

Lemma string_rev_involutive s : string_rev (string_rev s) = s.
Proof.
  unfold string_rev. induction s as [|c r IH]; [reflexivity|].
  simpl. rewrite (string_rev_onto_app r (String c "")).
  assert (A : forall a b, string_rev_onto (a ++ b) "" = string_rev_onto b "" ++ string_rev_onto a "").
  { intro a. induction a as [|x a IHa]; intro b; simpl.
    - now rewrite append_nil_r.
    - rewrite (string_rev_onto_app (a ++ b)), IHa, (string_rev_onto_app a (String x "")).
      now rewrite append_assoc. }
  rewrite A, IH. reflexivity.
Qed.

(** A quoted string is read back, whatever its bytes. *)
Lemma string_body_escape s : forall rest acc,
  string_body (escape s ++ String dq rest) acc
  = Some (string_rev (string_rev_onto s acc), rest).
Proof.
  induction s as [|c r IH]; intros rest acc.
  - reflexivity.
  - cbn [escape]. rewrite append_assoc, string_body_escape_char, IH. reflexivity.
Qed.

Lemma string_body_quoted s rest :
  string_body (escape s ++ String dq rest) "" = Some (s, rest).
Proof.
  rewrite string_body_escape. fold (string_rev s). now rewrite string_rev_involutive.
Qed.

Lemma length_append a b : String.length (a ++ b) = (String.length a + String.length b)%nat.
Proof. induction a; simpl; congruence. Qed.


Lemma value_string s : value_ok (JString s).
Proof.
  intros fuel rest _ _. cbn [stringify]. unfold quote.
  cbn [append]. rewrite append_assoc. cbn [append].
  change (value (S fuel) (String dq (escape s ++ String dq rest)))
    with (match string_body (escape s ++ String dq rest) "" with
          | Some (str, r1) => Some (JString str, r1)
          | None => None
          end).
  now rewrite string_body_quoted.
Qed.




Lemma stops_comma rest : stops (String "," rest).
Proof. reflexivity. Qed.




Lemma parse_stringify v :
  value_ok v -> JSON.parse (JSON.stringify v) = Some v.
Proof.
  intro H. unfold JSON.parse.
  rewrite <- (append_nil_r (stringify v)) at 2.
  rewrite (H _ "" (Nat.le_refl _) I). reflexivity.
Qed.

End ReadBack.

(** ** The codec: round trip and tampering *)




Lemma encode_token_shape o secret :
  encodeResumeToken o secret
  = payload_segment o ++ String "." (signature_segment o secret).
Proof. reflexivity. Qed.





(** The strings that staging writes itself are text, and the price and size
    it accepts are finite and in range: what is left to the request and to
    the market are the identifiers and labels. *)
Lemma staged_order_fields {U : UnicodeCase} w pluginConfig ctx rawParams order token :
  fst (execute w pluginConfig ctx rawParams) = NeedsApproval order token ->
  action order = "place_order"
  /\ (side order = "buy" \/ side order = "sell")
  /\ Number.isFinite (price order) = true
  /\ Number.isFinite (size order) = true
  /\ (price order <=? 0)%float = false
  /\ (1 <=? price order)%float = false
  /\ (size order <=? 0)%float = false
  /\ approxNotionalUsd order = (price order * size order)%float
  /\ PrimFloat.is_nan (approxNotionalUsd order) = false.
Proof.
  intro E. destruct (execute w pluginConfig ctx rawParams) as [r calls] eqn:X.
  cbn in E. subst r.
  apply execute_needs_approval_inv in X. destruct X as (d & _ & Hd & _ & -> & _).
  apply draft_order_inv in Hd.
  destruct Hd as (_ & _ & _ & Hp & Hs & P0 & P1 & S0 & Sd & _).
  apply readNumberParam_finite in Hp. apply readNumberParam_finite in Hs.
  cbn [pending_order action side price size approxNotionalUsd].
  unfold approxNotionalUsd_of.
  repeat (split; [reflexivity || assumption|]).
  now apply mul_finite_not_nan.
Qed.










(** The three outcomes at the staged token.  A changed signature is
    refused.  The first character of the payload segment is [e]: with
    [U+0165] in its place, whose code unit has the low byte of [e], the
    decoder reads the same segment, and with [f] it reads another text,
    which the signature does not cover. *)
Example tampering_examples :
  decodeResumeToken (splice_at 326 "x" Scenario.token) Scenario.privateKey
  = inl (Error "Invalid token signature")
  /\ decodeResumeToken (splice_at 283 "x" Scenario.token) Scenario.privateKey
     = inl (Error "Invalid token format")
  /\ decodeResumeToken (splice_at 5 "." Scenario.token) Scenario.privateKey
     = inl (Error "Invalid token format")
  /\ String.get 0 Scenario.token = Some "e"%char
  /\ one_character (String (chr 197) (String (chr 165) "")) = true
  /\ decodeResumeToken
       (splice_at 0 (String (chr 197) (String (chr 165) "")) Scenario.token)
       Scenario.privateKey
     = inr (PendingOrder_toJS Scenario.order)
  /\ decodeResumeToken (splice_at 0 "f" Scenario.token) Scenario.privateKey
     = inl (Error "Invalid token signature")
  /\ splice_at 282 "1" Scenario.token = Scenario.token_retouched.
Proof. by_evaluation. Qed.


(** * The rest of the tool: properties *)

(** ** The page size of [search] and [trades] *)

Lemma ltb_leb a b : (a <? b)%float = true -> (a <=? b)%float = true.
Proof.
  rewrite ltb_spec, leb_spec. unfold SFltb, SFleb.
  destruct (SFcompare (Prim2SF a) (Prim2SF b)) as [[]|]; congruence.
Qed.

Lemma compare_cont_Eq a b : PosDef.Pos.compare_cont Eq a b = (Zpos a ?= Zpos b).
Proof. reflexivity. Qed.

(** A number between 1 and 25 has its exponent between -52 and -48 and a
    significand of 53 bits. *)
Lemma between_1_and_25 x :
  (1 <=? x)%float = true -> (x <=? 25)%float = true ->
  exists m e,
    Prim2SF x = S754_finite false m e
    /\ -52 <= e <= -48
    /\ 2 ^ 52 <= Zpos m < 2 ^ 53
    /\ (e = -48 -> Zpos m <= 25 * 2 ^ 48).
Proof.
  intros H1 H25. pose proof (Prim2SF_valid x) as V.
  rewrite leb_spec in H1, H25. unfold SFleb in H1, H25.
  replace (Prim2SF 1) with (S754_finite false 4503599627370496 (-52)) in H1
    by (vm_compute; reflexivity).
  replace (Prim2SF 25) with (S754_finite false 7036874417766400 (-48)) in H25
    by (vm_compute; reflexivity).
  destruct (Prim2SF x) as [s|s| |s m e]; try (simpl in H1; discriminate).
  - destruct s; simpl in H1, H25; discriminate.
  - destruct s; [simpl in H1; discriminate|].
    exists m, e. split; [reflexivity|].
    cbn [SFcompare] in H1, H25.
    assert (Lo : -52 <= e /\ (e = -52 -> 2 ^ 52 <= Zpos m)).
    { clear H25 V. destruct (Z.compare_spec (-52) e) as [E|E|E]; try discriminate; [|lia].
      split; [lia|]. intros _.
      rewrite compare_cont_Eq in H1.
      destruct (Z.compare_spec 4503599627370496 (Zpos m)); try discriminate;
        change (2 ^ 52) with 4503599627370496; lia. }
    assert (Hi : e <= -48 /\ (e = -48 -> Zpos m <= 25 * 2 ^ 48)).
    { clear H1 V Lo. destruct (Z.compare_spec e (-48)) as [E|E|E]; try discriminate; [|lia].
      split; [lia|]. intros _.
      rewrite compare_cont_Eq in H25.
      destruct (Z.compare_spec (Zpos m) 7036874417766400); try discriminate;
        change (25 * 2 ^ 48) with 7036874417766400; lia. }
    clear H1 H25. destruct Lo as [Lo _]. destruct Hi as [Hi Hm].
    split; [lia|]. split; [|exact Hm].
    cbn [valid_binary] in V. unfold bounded, canonical_mantissa in V.
    apply andb_true_iff in V. destruct V as [V _]. apply Z.eqb_eq in V.
    unfold fexp, emin, emax, prec in V.
    assert (D : Zpos (digits2_pos m) = 53) by lia.
    pose proof (digits2_pos_bounds m) as B. rewrite D in B.
    change (53 - 1) with 52 in B. exact B.
Qed.

Lemma Math_trunc_between_1_and_25 x :
  (1 <=? x)%float = true -> (x <=? 25)%float = true ->
  exists n, 1 <= n <= 25 /\ Math_trunc x = Number.ofZ n.
Proof.
  intros H1 H25.
  destruct (between_1_and_25 x H1 H25) as (m & e & E & Be & Bm & Bt).
  unfold Math_trunc. rewrite E.
  destruct (Z.leb_spec 0 e); [lia|].
  rewrite Z.shiftr_div_pow2 by lia.
  assert (R : 1 <= Zpos m / 2 ^ (- e) <= 25).
  { assert (C : e = -52 \/ e = -51 \/ e = -50 \/ e = -49 \/ e = -48) by lia.
    change (2 ^ 52) with 4503599627370496 in Bm.
    change (2 ^ 53) with 9007199254740992 in Bm.
    destruct C as [-> | [-> | [-> | [-> | ->]]]]; cbn [Z.opp].
    - change (2 ^ 52) with 4503599627370496. split.
      + apply Z.div_le_lower_bound; lia.
      + apply Z.lt_succ_r, Z.div_lt_upper_bound; lia.
    - change (2 ^ 51) with 2251799813685248. split.
      + apply Z.div_le_lower_bound; lia.
      + apply Z.lt_succ_r, Z.div_lt_upper_bound; lia.
    - change (2 ^ 50) with 1125899906842624. split.
      + apply Z.div_le_lower_bound; lia.
      + apply Z.lt_succ_r, Z.div_lt_upper_bound; lia.
    - change (2 ^ 49) with 562949953421312. split.
      + apply Z.div_le_lower_bound; lia.
      + apply Z.lt_succ_r, Z.div_lt_upper_bound; lia.
    - specialize (Bt eq_refl). change (25 * 2 ^ 48) with 7036874417766400 in Bt.
      change (2 ^ 48) with 281474976710656. split.
      + apply Z.div_le_lower_bound; lia.
      + apply Z.lt_succ_r, Z.div_lt_upper_bound; lia. }
  destruct (Z.eqb_spec (Zpos m / 2 ^ (- e)) 0); [lia|].
  exists (Zpos m / 2 ^ (- e)). split; [exact R|reflexivity].
Qed.

Lemma clampLimit_between num :
  PrimFloat.is_nan num = false ->
  (1 <=? clampLimit num 1 25)%float = true
  /\ (clampLimit num 1 25 <=? 25)%float = true.
Proof.
  intro N. unfold clampLimit, Math_min.
  replace (PrimFloat.is_nan 25) with false by reflexivity. rewrite N. cbn [orb].
  assert (R : exists r, (if (25 <? num)%float then 25%float
                         else if (num <? 25)%float then num
                         else if PrimFloat.get_sign 25 then 25%float else num) = r
              /\ PrimFloat.is_nan r = false /\ (r <=? 25)%float = true).
  { destruct (25 <? num)%float eqn:A.
    - exists 25%float. repeat split; reflexivity.
    - exists num. split.
      + destruct (num <? 25)%float; reflexivity.
      + split; [exact N|].
        rewrite (ltb_negb_leb 25 num) in A by (reflexivity || exact N).
        now apply negb_false_iff in A. }
  destruct R as (r & -> & Nr & Lr).
  unfold Math.max. replace (PrimFloat.is_nan 1) with false by reflexivity.
  rewrite Nr. cbn [orb].
  destruct (1 <? r)%float eqn:A.
  - split; [now apply ltb_leb|exact Lr].
  - destruct (r <? 1)%float; split; reflexivity.
Qed.

Lemma small_integers n :
  1 <= n <= 25 ->
  exists m e,
    Prim2SF (Number.ofZ n) = S754_finite false m e
    /\ Number.truncZ (Number.ofZ n) = Some n
    /\ normalizeLimit (Some (JNumber (Number.ofZ n))) = Number.ofZ n.
Proof.
  intro R.
  assert (C : n = 1 \/ n = 2 \/ n = 3 \/ n = 4 \/ n = 5 \/ n = 6 \/ n = 7 \/ n = 8
              \/ n = 9 \/ n = 10 \/ n = 11 \/ n = 12 \/ n = 13 \/ n = 14 \/ n = 15
              \/ n = 16 \/ n = 17 \/ n = 18 \/ n = 19 \/ n = 20 \/ n = 21 \/ n = 22
              \/ n = 23 \/ n = 24 \/ n = 25) by lia.
  repeat (destruct C as [->|C]; [eexists; eexists; vm_compute; repeat split; reflexivity|]).
  subst n. eexists; eexists; vm_compute; repeat split; reflexivity.
Qed.

Lemma firstn_min {A} (l : list A) n :
  firstn (Z.to_nat (Z.min n (Z.of_nat (List.length l)))) l = firstn (Z.to_nat n) l.
Proof.
  destruct (Z.le_ge_cases n (Z.of_nat (List.length l))) as [H|H].
  - now rewrite Z.min_l.
  - rewrite Z.min_r by lia. rewrite Nat2Z.id.
    rewrite firstn_all. symmetry. apply firstn_all2. lia.
Qed.

Lemma normalizeLimit_between value :
  exists n, 1 <= n <= 25 /\ normalizeLimit value = Number.ofZ n.
Proof.
  unfold normalizeLimit.
  match goal with |- context [negb (Number.isFinite ?x)] => set (num := x) end.
  destruct (Number.isFinite num) eqn:F; cbn [negb].
  - apply finite_not_nan in F.
    destruct (clampLimit_between num F) as [L H].
    exact (Math_trunc_between_1_and_25 _ L H).
  - exists 5. split; [lia|reflexivity].
Qed.

(** X1.  [normalizeLimit] always answers an integer from 1 to 25, which it
    leaves as it is when it is given one; and [slice(0, limit)] with such a
    limit keeps at most that many items, from the front. *)
Theorem normalizeLimit_is_a_page_size :
  (forall value,
      exists n,
        1 <= n <= 25
        /\ normalizeLimit value = Number.ofZ n
        /\ forall (items : list JValue),
             slice0 items (normalizeLimit value) = firstn (Z.to_nat n) items)
  /\ (forall n, 1 <= n <= 25 ->
        normalizeLimit (Some (JNumber (Number.ofZ n))) = Number.ofZ n)
  /\ (forall value,
        match value with
        | Some (JNumber x) => Number.isFinite x = false
        | Some (JString s) => Number.isFinite (Number_parseInt (JSString.trim s)) = false
        | _ => True
        end ->
        normalizeLimit value = 5%float).
Proof.
  pose proof normalizeLimit_between as P.
  split; [|split].
  - intro value. destruct (P value) as (n & R & E). exists n.
    split; [exact R|]. split; [exact E|]. intro items. rewrite E.
    destruct (small_integers n R) as (m & e & S1 & S2 & _).
    unfold slice0. rewrite S1, S2.
    destruct (Z.ltb_spec n 0); [lia|]. apply firstn_min.
  - intros n R. destruct (small_integers n R) as (m & e & _ & _ & S3). exact S3.
  - intros value H. unfold normalizeLimit.
    destruct value as [[| | x | s | |]|]; try reflexivity.
    + rewrite H. reflexivity.
    + destruct (truthy_string (JSString.trim s)); [|reflexivity].
      rewrite H. reflexivity.
Qed.

(** ** Runs of a character at the end of a string *)

Lemma string_rev_app a b : string_rev (a ++ b) = string_rev b ++ string_rev a.
Proof.
  unfold string_rev. revert b. induction a as [|x a IH]; intro b; simpl.
  - now rewrite append_nil_r.
  - rewrite (string_rev_onto_app (a ++ b)), IH, (string_rev_onto_app a (String x "")).
    now rewrite append_assoc.
Qed.

Lemma run_of_snoc c n : run_of c n ++ String c "" = String c (run_of c n).
Proof. induction n; simpl; congruence. Qed.

Lemma string_rev_run_of c n : string_rev (run_of c n) = run_of c n.
Proof.
  induction n as [|n IH]; [reflexivity|].
  change (run_of c (S n)) with (String c "" ++ run_of c n) at 1.
  rewrite string_rev_app, IH. apply run_of_snoc.
Qed.

Lemma drop_leading_spec c s :
  exists j, s = run_of c j ++ drop_leading c s
            /\ forall r, drop_leading c s <> String c r.
Proof.
  induction s as [|a s (j & E & N)]; simpl.
  - exists O. split; [reflexivity|discriminate].
  - destruct (Ascii.eqb_spec a c) as [->|Ne].
    + exists (S j). split; [simpl; congruence|exact N].
    + exists O. split; [reflexivity|]. intros r [= ->]. congruence.
Qed.

Lemma drop_trailing_spec c s :
  exists j, s = drop_trailing c s ++ run_of c j
            /\ forall p, drop_trailing c s <> p ++ String c "".
Proof.
  unfold drop_trailing.
  destruct (drop_leading_spec c (string_rev s)) as (j & E & N).
  exists j. split.
  - rewrite <- (string_rev_involutive s) at 1. rewrite E at 1.
    now rewrite string_rev_app, string_rev_run_of.
  - intros p H. apply (f_equal string_rev) in H.
    rewrite string_rev_involutive, string_rev_app in H. simpl in H.
    exact (N _ H).
Qed.

(** ** Amounts in base units *)

Lemma zeros_run n : Number.zeros n = run_of "0" n.
Proof. induction n; simpl; congruence. Qed.

Lemma all_digits_app a b : all_digits (a ++ b) = all_digits a && all_digits b.
Proof. induction a; simpl; [reflexivity|]. rewrite IHa. now rewrite andb_assoc. Qed.

Lemma all_digits_run n : all_digits (run_of "0" n) = true.
Proof. induction n; simpl; auto. Qed.

Lemma decimal_from_app a : forall acc b,
  decimal_from acc (a ++ b) = decimal_from (decimal_from acc a) b.
Proof. induction a as [|c a IH]; intros; simpl; [reflexivity|apply IH]. Qed.

Lemma decimal_from_shift s : forall acc,
  decimal_from acc s = acc * 10 ^ Z.of_nat (String.length s) + decimal s.
Proof.
  unfold decimal. induction s as [|c s IH]; intro acc.
  - simpl. lia.
  - cbn [decimal_from String.length]. rewrite IH, (IH (10 * 0 + (code c - 48))).
    rewrite Nat2Z.inj_succ, Z.pow_succ_r by lia. ring.
Qed.

Lemma decimal_app a b :
  decimal (a ++ b) = decimal a * 10 ^ Z.of_nat (String.length b) + decimal b.
Proof. unfold decimal at 1. rewrite decimal_from_app. apply decimal_from_shift. Qed.

Lemma digit_code c : Number.is_digit c = true -> 0 <= code c - 48 <= 9.
Proof.
  unfold Number.is_digit, between. intro H. apply andb_true_iff in H.
  destruct H as [A B]. apply Z.leb_le in A, B. lia.
Qed.

Lemma decimal_bounds s :
  all_digits s = true -> 0 <= decimal s < 10 ^ Z.of_nat (String.length s).
Proof.
  induction s as [|c s IH]; intro H.
  - simpl. unfold decimal. simpl. lia.
  - cbn [all_digits] in H. apply andb_true_iff in H. destruct H as [Hc Hs].
    change (String c s) with (String c "" ++ s). rewrite decimal_app.
    specialize (IH Hs). pose proof (digit_code c Hc) as D.
    replace (decimal (String c "")) with (code c - 48) by (unfold decimal; simpl; lia).
    rewrite length_append. cbn [String.length]. 
    rewrite Nat2Z.inj_add, Z.pow_add_r by lia. change (10 ^ Z.of_nat 1) with 10.
    nia.
Qed.

Lemma decimal_run n : decimal (run_of "0" n) = 0.
Proof.
  induction n as [|n IH]; [reflexivity|].
  change (run_of "0" (S n)) with (String "0" "" ++ run_of "0" n).
  rewrite decimal_app, IH. unfold decimal. simpl. lia.
Qed.

Lemma length_run c n : String.length (run_of c n) = n.
Proof. induction n; simpl; congruence. Qed.

Lemma substring_split s : forall n,
  (n <= String.length s)%nat ->
  s = substring 0 n s ++ substring n (String.length s - n) s
  /\ String.length (substring 0 n s) = n.
Proof.
  induction s as [|c s IH]; intros [|n] H; simpl in *; try lia.
  - split; reflexivity.
  - split; [|reflexivity]. f_equal.
    clear. induction s as [|d s IH]; simpl; congruence.
  - destruct (IH n) as [E L]; [lia|]. split; [|congruence].
    f_equal. exact E.
Qed.

(** X2.  For a string of digits and a positive number of decimals, the text
    that [formatUnits] answers denotes the amount divided by [10 ^
    decimals]: a whole part, which has at least one digit and the value of
    the quotient, and, unless the remainder is zero, a point and a
    fractional part of at most [decimals] digits that does not end in a zero
    and has the value of the remainder. *)
Theorem formatUnits_denotes_the_amount raw decimals :
  is_digits (JSString.trim raw) = true ->
  0 < decimals ->
  exists whole frac,
    formatUnits raw decimals
    = (if truthy_string frac then whole ++ "." ++ frac else whole)
    /\ is_digits whole = true
    /\ all_digits frac = true
    /\ Z.of_nat (String.length frac) <= decimals
    /\ (forall p, frac <> p ++ "0")
    /\ decimal whole = decimal (JSString.trim raw) / 10 ^ decimals
    /\ decimal frac * 10 ^ (decimals - Z.of_nat (String.length frac))
       = decimal (JSString.trim raw) mod 10 ^ decimals.
Proof.
  intros D P. unfold formatUnits. rewrite D. cbn [negb].
  destruct (Z.leb_spec decimals 0); [lia|].
  set (t := JSString.trim raw) in *.
  unfold is_digits in D. apply andb_true_iff in D. destruct D as [Dn Dd].
  set (d := Z.to_nat decimals).
  assert (Ed : Z.of_nat d = decimals) by (unfold d; lia).
  unfold padStart0. rewrite zeros_run.
  set (k := (Z.to_nat (decimals + 1) - String.length t)%nat).
  set (pad := run_of "0" k ++ t).
  assert (Lp : (d + 1 <= String.length pad)%nat).
  { unfold pad. rewrite length_append, length_run. unfold k. lia. }
  destruct (substring_split pad (String.length pad - d)) as [Es Lw]; [lia|].
  replace (String.length pad - (String.length pad - d))%nat with d in Es by lia.
  set (whole := substring 0 (String.length pad - d) pad) in *.
  set (full := substring (String.length pad - d) d pad) in *.
  assert (Lf : String.length full = d).
  { apply (f_equal String.length) in Es. rewrite length_append, Lw in Es. lia. }
  assert (Ap : all_digits pad = true).
  { unfold pad. rewrite all_digits_app, all_digits_run. exact Dd. }
  rewrite Es, all_digits_app in Ap. apply andb_true_iff in Ap. destruct Ap as [Aw Af].
  destruct (drop_trailing_spec "0" full) as (j & Ej & Nj).
  set (frac := drop_trailing "0" full) in *.
  assert (Afr : all_digits frac = true).
  { rewrite Ej, all_digits_app in Af. now apply andb_true_iff in Af. }
  assert (Lfr : (String.length frac + j = d)%nat).
  { apply (f_equal String.length) in Ej. rewrite length_append, length_run in Ej. lia. }
  assert (V : decimal t = decimal whole * 10 ^ decimals + decimal full).
  { transitivity (decimal pad).
    - unfold pad. rewrite decimal_app, decimal_run. lia.
    - rewrite Es at 1. rewrite decimal_app, Lf, Ed. reflexivity. }
  pose proof (decimal_bounds full Af) as Bf. rewrite Lf, Ed in Bf.
  assert (Vf : decimal full = decimal frac * 10 ^ Z.of_nat j).
  { rewrite Ej at 1. rewrite decimal_app, decimal_run, length_run. lia. }
  exists whole, frac. split; [reflexivity|].
  split.
  { unfold is_digits. rewrite Aw. destruct whole; [simpl in Lw; lia|reflexivity]. }
  split; [exact Afr|]. split; [lia|]. split; [exact Nj|].
  assert (P10 : 0 < 10 ^ decimals) by (apply Z.pow_pos_nonneg; lia).
  split.
  - rewrite V, (Z.add_comm (decimal whole * 10 ^ decimals)), Z.div_add by lia.
    rewrite Z.div_small by lia. reflexivity.
  - replace (decimals - Z.of_nat (String.length frac)) with (Z.of_nat j) by lia.
    rewrite <- Vf, V, (Z.add_comm (decimal whole * 10 ^ decimals)), Z.mod_add by lia.
    now rewrite Z.mod_small by lia.
Qed.

(** Amounts of the collateral in the test suite's units: six decimals. *)
Lemma formatUnits_denotes_the_amount_witness :
  exists whole frac,
    formatUnits " 1234500 " 6
    = (if truthy_string frac then whole ++ "." ++ frac else whole)
    /\ is_digits whole = true
    /\ all_digits frac = true
    /\ Z.of_nat (String.length frac) <= 6
    /\ (forall p, frac <> p ++ "0")
    /\ decimal whole = decimal (JSString.trim " 1234500 ") / 10 ^ 6
    /\ decimal frac * 10 ^ (6 - Z.of_nat (String.length frac))
       = decimal (JSString.trim " 1234500 ") mod 10 ^ 6.
Proof.
  apply (formatUnits_denotes_the_amount " 1234500 " 6).
  - vm_compute. reflexivity.
  - lia.
Defined.

(** ** Text that [trim] leaves alone *)

Lemma plain_code c : plain c = true -> 33 <= code c <= 126.
Proof.
  unfold plain, between. intro H. apply andb_true_iff in H.
  destruct H as [A B]. apply Z.leb_le in A, B. lia.
Qed.

Lemma trimStart_plain c r :
  plain c = true -> JSString.trimStart (String c r) = String c r.
Proof.
  intro P. apply plain_code in P. cbn [JSString.trimStart].
  assert (W : JSString.ws1 c = false).
  { unfold JSString.ws1, between. apply orb_false_iff. split.
    - apply andb_false_iff. right. apply Z.leb_gt. lia.
    - apply Z.eqb_neq. lia. }
  rewrite W. destruct r as [|c1 [|c2 r2]]; try reflexivity.
  - assert (E : (code c =? 194) = false) by (apply Z.eqb_neq; lia).
    rewrite E. reflexivity.
  - assert (E1 : (code c =? 194) = false) by (apply Z.eqb_neq; lia).
    assert (E2 : (code c =? 225) = false) by (apply Z.eqb_neq; lia).
    assert (E3 : (code c =? 226) = false) by (apply Z.eqb_neq; lia).
    assert (E4 : (code c =? 227) = false) by (apply Z.eqb_neq; lia).
    assert (E5 : (code c =? 239) = false) by (apply Z.eqb_neq; lia).
    rewrite E1, E2, E3, E4, E5. reflexivity.
Qed.

Lemma trimStart_rev_plain c r :
  plain c = true -> JSString.trimStart_rev (String c r) = String c r.
Proof.
  intro P. apply plain_code in P. cbn [JSString.trimStart_rev].
  assert (W : JSString.ws1 c = false).
  { unfold JSString.ws1, between. apply orb_false_iff. split.
    - apply andb_false_iff. right. apply Z.leb_gt. lia.
    - apply Z.eqb_neq. lia. }
  assert (W2 : JSString.ws_e2_80 c = false).
  { unfold JSString.ws_e2_80, between. repeat (apply orb_false_iff; split);
      try (apply Z.eqb_neq; lia).
    apply andb_false_iff. left. apply Z.leb_gt. lia. }
  assert (E1 : (code c =? 160) = false) by (apply Z.eqb_neq; lia).
  assert (E2 : (code c =? 128) = false) by (apply Z.eqb_neq; lia).
  assert (E3 : (code c =? 159) = false) by (apply Z.eqb_neq; lia).
  assert (E4 : (code c =? 191) = false) by (apply Z.eqb_neq; lia).
  rewrite W. destruct r as [|c1 [|c2 r2]]; try reflexivity.
  - rewrite E1, andb_false_r. reflexivity.
  - rewrite E1, E2, E3, E4, W2, !andb_false_r. reflexivity.
Qed.

(** A string whose first and last characters are plain is its own [trim]. *)
Lemma trim_plain a p z :
  plain a = true -> plain z = true ->
  JSString.trim (String a p ++ String z "") = String a p ++ String z "".
Proof.
  intros Pa Pz. unfold JSString.trim, JSString.trimEnd.
  cbn [append]. rewrite (trimStart_plain a _ Pa).
  change (String a (p ++ String z "")) with (String a p ++ String z "").
  rewrite string_rev_app.
  change (string_rev (String z "")) with (String z ""). cbn [append].
  rewrite (trimStart_rev_plain z _ Pz).
  change (String z (string_rev (String a p))) with (string_rev (String z "") ++ string_rev (String a p)).
  rewrite <- string_rev_app. apply string_rev_involutive.
Qed.

Lemma trim_plain_char a : plain a = true -> JSString.trim (String a "") = String a "".
Proof.
  intro Pa. unfold JSString.trim, JSString.trimEnd.
  rewrite (trimStart_plain a _ Pa).
  change (string_rev (String a "")) with (String a "").
  now rewrite (trimStart_rev_plain a _ Pa).
Qed.

(** ** Hosts *)

Lemma run_of_last c n : run_of c (S n) = run_of c n ++ String c "".
Proof. symmetry. apply run_of_snoc. Qed.

Lemma trim_slashes n : JSString.trim (run_of "/" (S n)) = run_of "/" (S n).
Proof.
  destruct n as [|n].
  - apply trim_plain_char. reflexivity.
  - rewrite run_of_last. cbn [run_of]. apply trim_plain; reflexivity.
Qed.

Lemma drop_leading_run c n : drop_leading c (run_of c n) = "".
Proof. induction n as [|n IH]; simpl; [reflexivity|]. now rewrite Ascii.eqb_refl. Qed.

(** X3.  [normalizeUrl] answers the fallback for everything but a string
    that is not blank; of such a string it answers the trimmed text without
    the slashes at its end, so that what it answers never ends in a slash.
    A string of slashes alone therefore gives the empty string, not the
    fallback.  The two hosts of the configuration never end in a slash. *)
Theorem normalizeUrl_strips_the_slashes :
  (forall v fallback,
      JSString.trim v <> "" ->
      exists j,
        JSString.trim v = normalizeUrl (Some (JString v)) fallback ++ run_of "/" j
        /\ forall p, normalizeUrl (Some (JString v)) fallback <> p ++ "/")
  /\ (forall value fallback,
        match value with
        | Some (JString v) => JSString.trim v = ""
        | _ => True
        end ->
        normalizeUrl value fallback = fallback)
  /\ (forall n fallback, normalizeUrl (Some (JString (run_of "/" (S n)))) fallback = "")
  /\ (forall pluginConfig p,
        clobHost (resolveEndpoints pluginConfig) <> p ++ "/"
        /\ gammaHost (resolveEndpoints pluginConfig) <> p ++ "/").
Proof.
  assert (A : forall v fallback,
             JSString.trim v <> "" ->
             exists j,
               JSString.trim v = normalizeUrl (Some (JString v)) fallback ++ run_of "/" j
               /\ forall p, normalizeUrl (Some (JString v)) fallback <> p ++ "/").
  { intros v fallback N. unfold normalizeUrl.
    destruct (JSString.trim v) as [|c r] eqn:E; [congruence|]. cbn [truthy_string negb].
    destruct (drop_trailing_spec "/" (String c r)) as (j & Ej & Nj).
    exists j. split; [exact Ej|exact Nj]. }
  assert (B : forall value fallback,
             match value with
             | Some (JString v) => JSString.trim v = ""
             | _ => True
             end ->
             normalizeUrl value fallback = fallback).
  { intros value fallback H. unfold normalizeUrl.
    destruct value as [[| | | v | |]|]; try reflexivity. rewrite H. reflexivity. }
  assert (C : forall value fallback p,
             (forall q, fallback <> q ++ "/") -> normalizeUrl value fallback <> p ++ "/").
  { intros value fallback p F.
    destruct value as [[| | | v | |]|]; try (rewrite B by exact I; apply F).
    destruct (JSString.trim v) eqn:E.
    - rewrite B by exact E. apply F.
    - destruct (A v fallback) as (j & _ & N); [congruence|]. apply N. }
  split; [exact A|]. split; [exact B|]. split.
  - intros n fallback. unfold normalizeUrl. rewrite trim_slashes.
    cbn [run_of truthy_string negb]. unfold drop_trailing.
    change (String "/" (run_of "/" n)) with (run_of "/" (S n)).
    now rewrite string_rev_run_of, drop_leading_run.
  - intros pluginConfig p. unfold resolveEndpoints. cbn [clobHost gammaHost].
    split; apply C; intros q H; apply (f_equal string_rev) in H;
      rewrite string_rev_app in H; vm_compute in H; discriminate.
Qed.

(** A host given with spaces around it and slashes at its end. *)
Lemma normalizeUrl_strips_the_slashes_witness :
  exists j,
    JSString.trim " https://clob.example/// "
    = normalizeUrl (Some (JString " https://clob.example/// ")) "" ++ run_of "/" j
    /\ forall p, normalizeUrl (Some (JString " https://clob.example/// ")) "" <> p ++ "/".
Proof.
  apply (proj1 normalizeUrl_strips_the_slashes " https://clob.example/// " "").
  vm_compute. discriminate.
Defined.

(** ** The configuration *)

Lemma truthy_string_nonempty s : truthy_string s = true <-> s <> "".
Proof. destruct s; simpl; split; congruence. Qed.

Lemma Math_max_zero x :
  Number.isFinite x = true ->
  Number.isFinite (Math.max 0 x) = true
  /\ (0 <=? Math.max 0 x)%float = true
  /\ ((x <=? 0)%float = true -> (0 <? Math.max 0 x)%float = false).
Proof.
  intro F. pose proof (finite_not_nan x F) as N. unfold Math.max.
  replace (PrimFloat.is_nan 0) with false by reflexivity. rewrite N. cbn [orb].
  destruct (0 <? x)%float eqn:A.
  - split; [exact F|]. split; [now apply ltb_leb|].
    intro L. apply leb_not_ltb in L. congruence.
  - assert (E : (if (x <? 0)%float then 0%float
                 else if PrimFloat.get_sign 0 then x else 0%float) = 0%float)
      by (destruct (x <? 0)%float; reflexivity).
    rewrite E. repeat split; reflexivity.
Qed.

(** X4.  Whatever the plugin configuration holds, the configuration that
    [resolvePluginConfig] makes of it is well formed: a signature type of 0,
    1 or 2, a notional limit that is finite and not negative, the name of an
    environment variable, a funder address and an allowlist that are absent
    rather than empty, and allowlist entries that are not blank.  Trading is
    enabled by the boolean [true] alone, and a limit that is configured as
    zero or as a negative number switches the check of the notional off. *)
Theorem resolvePluginConfig_is_well_formed pluginConfig :
  let config := resolvePluginConfig pluginConfig in
  (signatureType config = 0 \/ signatureType config = 1 \/ signatureType config = 2)
  /\ Number.isFinite (maxNotionalUsd config) = true
  /\ (0 <=? maxNotionalUsd config)%float = true
  /\ privateKeyEnvVar config <> ""
  /\ funderAddress config <> Some ""
  /\ allowedMarketSlugs config <> Some []
  /\ (forall allow entry,
        allowedMarketSlugs config = Some allow -> In entry allow -> entry <> "")
  /\ (tradeEnabled config = true
      <-> exists raw, pluginConfig = Some (JObject raw)
                      /\ JSON.get raw "tradeEnabled" = Some (JBool true))
  /\ (forall raw x,
        pluginConfig = Some (JObject raw) ->
        JSON.get raw "maxNotionalUsd" = Some (JNumber x) ->
        Number.isFinite x = true ->
        (x <=? 0)%float = true ->
        forall approx, exceedsNotionalLimit config approx = false).
Proof.
  intro config. subst config.
  set (raw := match pluginConfig with Some (JObject ms) => ms | _ => [] end).
  assert (Fn : Number.isFinite (normalizeNumber (JSON.get raw "maxNotionalUsd") 25) = true)
    by (apply normalizeNumber_finite; reflexivity).
  destruct (Math_max_zero _ Fn) as (M1 & M2 & M3).
  cbn [resolvePluginConfig signatureType maxNotionalUsd privateKeyEnvVar funderAddress
       allowedMarketSlugs tradeEnabled]. fold raw.
  split.
  { assert (G : forall num : option Z,
               let r := match num with
                        | Some n => if (n =? 0) || (n =? 1) || (n =? 2) then n else 0
                        | None => 0
                        end in
               r = 0 \/ r = 1 \/ r = 2).
    { intros [n|]; cbn zeta; [|now left].
      destruct (Z.eqb_spec n 0) as [->|]; [now left|].
      destruct (Z.eqb_spec n 1) as [->|]; [now right; left|].
      destruct (Z.eqb_spec n 2) as [->|]; [now right; right|now left]. }
    unfold normalizeSignatureType. apply G. }
  split; [exact M1|]. split; [exact M2|].
  split.
  { unfold normalizeEnvVarName.
    match goal with |- context [truthy_string ?r] => destruct r end; discriminate. }
  split.
  { match goal with |- context [truthy_string ?r] => destruct r end; discriminate. }
  split.
  { unfold normalizeStringList.
    destruct (JSON.get raw "allowedMarketSlugs") as [[| | | s |items|]|]; try discriminate.
    - destruct (truthy_string (JSString.trim s)); discriminate.
    - match goal with |- context [filter ?p ?xs] => destruct (filter p xs) end; discriminate. }
  split.
  { intros allow entry H I. unfold normalizeStringList in H.
    destruct (JSON.get raw "allowedMarketSlugs") as [[| | | s |items|]|]; try discriminate.
    - destruct (truthy_string (JSString.trim s)) eqn:T; [|discriminate].
      injection H as <-. destruct I as [<-|[]]. now apply truthy_string_nonempty.
    - match type of H with context [filter ?p ?xs] =>
        assert (F : In entry (filter p xs)) end.
      { match type of H with context [filter ?p ?xs] =>
          destruct (filter p xs); [discriminate|] end.
        injection H as <-. exact I. }
      apply filter_In in F. apply truthy_string_nonempty, F. }
  split.
  { unfold normalizeBoolean. subst raw. split.
    - intro H. destruct pluginConfig as [[| | | | |ms]|]; try discriminate H.
      exists ms. split; [reflexivity|].
      destruct (JSON.get ms "tradeEnabled") as [[|[]| | | |]|]; congruence.
    - intros (ms & -> & H). rewrite H. reflexivity. }
  intros ms x -> G F L approx. subst raw. unfold exceedsNotionalLimit.
  cbn [maxNotionalUsd resolvePluginConfig].
  assert (E : normalizeNumber (JSON.get ms "maxNotionalUsd") 25 = x).
  { unfold normalizeNumber. rewrite G, F. cbn iota. now rewrite F. }
  rewrite E in M3 |- *. rewrite (M3 L). reflexivity.
Qed.

(** A configuration whose limit is negative. *)
Lemma resolvePluginConfig_is_well_formed_witness :
  exceedsNotionalLimit
    (resolvePluginConfig (Some (JObject [("maxNotionalUsd", JNumber (-5))]))) 1000000
  = false.
Proof.
  apply (proj2 (proj2 (proj2 (proj2 (proj2 (proj2 (proj2 (proj2
           (resolvePluginConfig_is_well_formed
              (Some (JObject [("maxNotionalUsd", JNumber (-5))])))))))))))
    with (raw := [("maxNotionalUsd", JNumber (-5))]) (x := (-5)%float);
    reflexivity.
Defined.

(** ** The trading key *)

Lemma prefix_0x s : String.prefix "0x" ("0x" ++ s) = true.
Proof. destruct s; reflexivity. Qed.

(** X5.  The key that [resolvePrivateKey] answers is the trimmed value of
    the first of the three environment variables that is not blank, the
    configured one coming first, with [0x] put in front unless it is there
    already; there is no key exactly when the three are blank or unset. *)
Theorem resolvePrivateKey_prefixes_the_key w config :
  let primary := env_trimmed w (privateKeyEnvVar config) in
  let fallback := env_trimmed w "POLYMARKET_PRIVATE_KEY" in
  let docs := env_trimmed w "PRIVATE_KEY" in
  let raw := if truthy_string primary then primary
             else if truthy_string fallback then fallback else docs in
  match resolvePrivateKey w config with
  | Some key =>
      raw <> ""
      /\ JSString.startsWith key "0x" = true
      /\ (key = raw \/ (JSString.startsWith raw "0x" = false /\ key = "0x" ++ raw))
  | None => primary = "" /\ fallback = "" /\ docs = ""
  end.
Proof.
  intros primary fallback docs raw. unfold resolvePrivateKey.
  fold primary fallback docs. fold raw.
  destruct (truthy_string raw) eqn:T; cbn [negb].
  - split; [now apply truthy_string_nonempty|].
    destruct (JSString.startsWith raw "0x") eqn:S.
    + split; [exact S|now left].
    + split; [apply prefix_0x|right; split; reflexivity].
  - subst raw. destruct primary; [|discriminate]. cbn [truthy_string] in T.
    destruct fallback; [|discriminate]. cbn [truthy_string] in T.
    destruct docs; [|discriminate]. repeat split.
Qed.

(** ** The outcome resolver *)

Lemma nth_error_nth {A} (l : list A) i d x : nth_error l i = Some x -> nth i l d = x.
Proof.
  revert i. induction l as [|a l IH]; intros [|i]; simpl; try discriminate.
  - now intros [= ->].
  - apply IH.
Qed.

Lemma findIndex_some {A} (p : A -> bool) l i :
  findIndex p l = Some i -> exists x, nth_error l i = Some x /\ p x = true.
Proof.
  revert i. induction l as [|a l IH]; intro i; simpl; [discriminate|].
  destruct (p a) eqn:P.
  - intros [= <-]. exists a. split; [reflexivity|exact P].
  - destruct (findIndex p l) as [j|]; [|discriminate]. intros [= <-].
    destruct (IH j eq_refl) as (x & E & Px). exists x. split; assumption.
Qed.

Section ResolverAnswers.

Context {U : UnicodeCase}.

(** The instrument id that [resolveOutcomeIn] answers is an entry of
    [tokens]. *)
Lemma resolveOutcomeIn_listed tokens outcomes outcome tokenId label :
  resolveOutcomeIn tokens outcomes outcome = inr (tokenId, label) ->
  In tokenId tokens.
Proof.
  intro H.
  assert (Tn : forall i, truthy_option (nth_error tokens i) = true ->
                         In (nth i tokens "") tokens).
  { intros i E. destruct (nth_error tokens i) as [t|] eqn:Ei; [|discriminate].
    rewrite (nth_error_nth _ _ "" _ Ei). eapply nth_error_In. exact Ei. }
  unfold resolveOutcomeIn in H. destruct tokens as [|t0 ts]; [discriminate|].
  cbv beta iota zeta in H. set (tokens := t0 :: ts) in *.
  repeat match type of H with
  | (if ?c && truthy_option (nth_error tokens ?i) then _ else _) = _ =>
      let C := fresh "C" in
      destruct (c && truthy_option (nth_error tokens i)) eqn:C;
      [apply andb_true_iff in C; destruct C as [_ C]; injection H as <- _; exact (Tn _ C)|]
  | (if ?c then _ else _) = _ => destruct c eqn:?
  | match ?f with Some _ => _ | None => _ end = _ => destruct f as [i|]; [|discriminate]
  end; try discriminate.
  injection H as <- _. apply Tn. assumption.
Qed.

(** X6.  Whatever [resolveOutcomeToken] answers is an instrument of the
    market: an entry of its list of instrument ids, and not the empty
    string.  It comes with the label at the same place in the list of
    outcomes, which matches the label of the caller, when the two lists have
    the same length; with [Yes] for the first instrument or [No] for the
    second when they do not; and it is the first instrument, with the first
    label if there is one, when the caller gave no label. *)
Theorem resolveOutcomeToken_answers_a_listed_instrument market outcome tokenId label :
  resolveOutcomeToken market outcome = inr (tokenId, label) ->
  let tokens := or_empty (parseJsonStringArray (gm_clobTokenIds market)) in
  let outcomes := or_empty (parseJsonStringArray (gm_outcomes market)) in
  tokenId <> ""
  /\ exists i,
       nth_error tokens i = Some tokenId
       /\ ((exists given text,
              outcome = Some given /\ label = Some text
              /\ nth_error outcomes i = Some text
              /\ normalizeOutcomeLabel text = normalizeOutcomeLabel given
              /\ List.length outcomes = List.length tokens)
           \/ (i = O /\ label = Some "Yes"
               /\ List.length outcomes <> List.length tokens)
           \/ (i = 1%nat /\ label = Some "No"
               /\ List.length outcomes <> List.length tokens)
           \/ (i = O /\ label = nth_error outcomes 0 /\ given_label outcome = None)).
Proof.
  intros H tokens outcomes. unfold resolveOutcomeToken in H.
  fold tokens outcomes in H.
  pose proof (or_empty_truthy (gm_clobTokenIds market)) as T. fold tokens in T.
  assert (Tn : forall i t, nth_error tokens i = Some t -> t <> "").
  { intros i t E. apply truthy_string_nonempty.
    rewrite Forall_forall in T. apply T. eapply nth_error_In. exact E. }
  unfold resolveOutcomeIn in H.
  destruct tokens as [|t0 ts] eqn:Et; [discriminate|]. rewrite <- Et in *.
  set (normalized := if truthy_option outcome
                     then Some (normalizeOutcomeLabel
                                  match outcome with Some o => o | None => "" end)
                     else None) in H.
  assert (G : truthy_option normalized = false -> given_label outcome = None).
  { subst normalized. unfold given_label. destruct outcome as [o|]; [|reflexivity].
    cbn [truthy_option]. destruct (truthy_string o); cbn [truthy_option andb].
    - now intros ->.
    - reflexivity. }
  destruct (truthy_option normalized && Nat.eqb (List.length outcomes) (List.length tokens)
            && Nat.ltb 0 (List.length outcomes)) eqn:C.
  - apply andb_true_iff in C. destruct C as [C _].
    apply andb_true_iff in C. destruct C as [Cn Cl]. apply Nat.eqb_eq in Cl.
    destruct (findIndex _ outcomes) as [i|] eqn:F; [|discriminate].
    destruct (nth_error tokens i) as [t|] eqn:Ei; [|discriminate].
    cbn [truthy_option] in H. destruct (truthy_string t); [|discriminate].
    injection H as <- <-. rewrite (nth_error_nth _ _ "" _ Ei).
    split; [exact (Tn _ _ Ei)|]. exists i. split; [exact Ei|]. left.
    destruct (findIndex_some _ _ _ F) as (text & Ex & Px).
    apply String.eqb_eq in Px.
    destruct outcome as [given|]; [|discriminate].
    exists given, text. split; [reflexivity|]. split; [exact Ex|].
    split; [exact Ex|]. split; [|exact Cl].
    rewrite Px. subst normalized. cbn [truthy_option] in Cn |- *.
    destruct (truthy_string given); [reflexivity|discriminate].
  - assert (L : truthy_option normalized = true ->
                List.length outcomes <> List.length tokens).
    { intros Tn' E. rewrite Tn', (proj2 (Nat.eqb_eq _ _) E) in C.
      cbn [andb] in C. apply Nat.ltb_ge in C. rewrite E, Et in C.
      simpl in C. lia. }
    destruct (match normalized with Some n => String.eqb n "yes" | None => false end
              && truthy_option (nth_error tokens 0)) eqn:Y.
    { injection H as <- <-. rewrite Et. cbn [nth].
      split; [apply (Tn O); rewrite Et; reflexivity|]. exists O.
      split; [reflexivity|]. right. left. split; [reflexivity|].
      split; [reflexivity|]. rewrite <- Et. apply L.
      apply andb_true_iff in Y. destruct Y as [Y _].
      destruct normalized as [n|]; [|discriminate]. apply String.eqb_eq in Y. now subst n. }
    destruct (match normalized with Some n => String.eqb n "no" | None => false end
              && truthy_option (nth_error tokens 1)) eqn:N.
    { injection H as <- <-.
      apply andb_true_iff in N. destruct N as [N N1].
      destruct (nth_error tokens 1) as [t1|] eqn:E1; [|discriminate].
      rewrite (nth_error_nth _ _ "" _ E1).
      split; [exact (Tn _ _ E1)|]. exists 1%nat. split; [exact E1|].
      right. right. left. split; [reflexivity|]. split; [reflexivity|]. apply L.
      destruct normalized as [n|]; [|discriminate]. apply String.eqb_eq in N. now subst n. }
    destruct (negb (truthy_option normalized) && truthy_option (nth_error tokens 0)) eqn:D;
      [|discriminate].
    injection H as <- <-. rewrite Et. cbn [nth].
    split; [apply (Tn O); rewrite Et; reflexivity|]. exists O.
    split; [reflexivity|]. right. right. right.
    split; [reflexivity|]. split; [reflexivity|]. apply G.
    apply andb_true_iff in D. destruct D as [D _]. now apply negb_true_iff in D.
Qed.

End ResolverAnswers.

(** The market of the claim, and the label [no]. *)
Lemma resolveOutcomeToken_answers_a_listed_instrument_witness :
  "T2" <> ""
  /\ exists i,
       nth_error (or_empty (parseJsonStringArray (gm_clobTokenIds yes_no_market))) i
       = Some "T2"
       /\ ((exists given text,
              Some " no " = Some given /\ Some "No" = Some text
              /\ nth_error (or_empty (parseJsonStringArray (gm_outcomes yes_no_market))) i
                 = Some text
              /\ normalizeOutcomeLabel text = normalizeOutcomeLabel given
              /\ List.length (or_empty (parseJsonStringArray (gm_outcomes yes_no_market)))
                 = List.length (or_empty (parseJsonStringArray (gm_clobTokenIds yes_no_market))))
           \/ (i = O /\ Some "No" = Some "Yes"
               /\ List.length (or_empty (parseJsonStringArray (gm_outcomes yes_no_market)))
                  <> List.length (or_empty (parseJsonStringArray (gm_clobTokenIds yes_no_market))))
           \/ (i = 1%nat /\ Some "No" = Some "No"
               /\ List.length (or_empty (parseJsonStringArray (gm_outcomes yes_no_market)))
                  <> List.length (or_empty (parseJsonStringArray (gm_clobTokenIds yes_no_market))))
           \/ (i = O
               /\ Some "No" = nth_error (or_empty (parseJsonStringArray (gm_outcomes yes_no_market))) 0
               /\ given_label (Some " no ") = None)).
Proof.
  apply (resolveOutcomeToken_answers_a_listed_instrument yes_no_market (Some " no ")
           "T2" (Some "No")).
  vm_compute. reflexivity.
Defined.

(** ** The text of a token *)

Lemma alphabet_is_base64url sx : is_base64url (Base64url.alphabet sx) = true.
Proof. destruct sx as [[[[[[] []] []] []] []] []]; vm_compute; reflexivity. Qed.

Lemma encode_base64url_text buf : base64url_text (Base64url.encode buf) = true.
Proof.
  induction buf as [|a|a b|a b c r IH] using list_ind3.
  - reflexivity.
  - destruct a. cbn [Base64url.encode base64url_text].
    now rewrite !alphabet_is_base64url.
  - destruct a, b. cbn [Base64url.encode base64url_text].
    now rewrite !alphabet_is_base64url.
  - destruct a, b, c. cbn [Base64url.encode base64url_text].
    now rewrite !alphabet_is_base64url, IH.
Qed.

Lemma length_encode_32 buf :
  List.length buf = 32%nat -> String.length (Base64url.encode buf) = 43%nat.
Proof.
  intro L.
  do 32 (destruct buf as [|[] buf]; [discriminate L|]).
  destruct buf; [reflexivity|discriminate L].
Qed.

Lemma length_digest msg : List.length (SHA256.digest msg) = 32%nat.
Proof.
  unfold SHA256.digest.
  destruct (SHA256.blocks _ _ _) as [[[[[[[a b] c] d] e] f] g] h]. reflexivity.
Qed.

Lemma length_signToken json key : String.length (signToken json key) = 43%nat.
Proof. unfold signToken, SHA256.hmac. apply length_encode_32, length_digest. Qed.

Lemma count_char_app c a b :
  count_char c (a ++ b) = (count_char c a + count_char c b)%nat.
Proof. induction a as [|x a IH]; simpl; [reflexivity|]. rewrite IH. lia. Qed.

Lemma count_char_dotless s : dotless s = true -> count_char "." s = O.
Proof.
  induction s as [|c s IH]; simpl; [reflexivity|]. intro H.
  apply andb_true_iff in H. destruct H as [Hc Hs]. apply negb_true_iff in Hc.
  rewrite Hc. now apply IH.
Qed.

Lemma base64url_text_dotless s : base64url_text s = true -> dotless s = true.
Proof.
  induction s as [|c s IH]; simpl; [reflexivity|]. intro H.
  apply andb_true_iff in H. destruct H as [Hc Hs]. rewrite (IH Hs), andb_true_r.
  destruct (Ascii.eqb_spec c "."); [|reflexivity]. subst c. discriminate Hc.
Qed.

(** X8.  Every token is text that a URL or a JSON string carries as it is:
    two runs of letters, digits, [-] and [_] with one dot between them.  The
    first is the unpadded base64url text of the JSON of the order and does
    not depend on the secret; the second, the signature, has 43 characters,
    the 32 bytes of an HMAC-SHA256. *)
Theorem encodeResumeToken_is_url_safe o secret :
  encodeResumeToken o secret = payload_segment o ++ "." ++ signature_segment o secret
  /\ base64url_text (payload_segment o) = true
  /\ base64url_text (signature_segment o secret) = true
  /\ payload_segment o <> ""
  /\ String.length (signature_segment o secret) = 43%nat
  /\ count_char "." (encodeResumeToken o secret) = 1%nat
  /\ JSString.split "." (encodeResumeToken o secret)
     = [payload_segment o; signature_segment o secret].
Proof.
  pose proof (encode_base64url_text
                (Utf8.fromString (JSON.stringify (PendingOrder_toJS o)))) as Bp.
  pose proof (encode_base64url_text
                (SHA256.hmac (createTokenKey secret)
                   (Utf8.fromString (JSON.stringify (PendingOrder_toJS o))))) as Bs.
  fold (payload_segment o) in Bp.
  change (base64url_text (signature_segment o secret) = true) in Bs.
  split; [reflexivity|]. split; [exact Bp|]. split; [exact Bs|].
  split.
  { unfold payload_segment, PendingOrder_toJS. cbn [JSON.stringify append].
    unfold Utf8.fromString. cbn [list_ascii_of_string].
    match goal with |- Base64url.encode (?a :: ?r) <> _ =>
      destruct r as [|[] [|[] r']]; discriminate end. }
  split; [apply length_signToken|].
  rewrite encode_token_shape. split.
  - rewrite count_char_app. cbn [count_char Ascii.eqb Bool.eqb].
    rewrite !count_char_dotless by now apply base64url_text_dotless. reflexivity.
  - rewrite split_at_dot by now apply base64url_text_dotless.
    now rewrite split_dotless by now apply base64url_text_dotless.
Qed.

Lemma split_nonempty s : JSString.split "." s <> [].
Proof.
  destruct s as [|c r]; simpl; [discriminate|].
  destruct (Ascii.eqb c "."); [discriminate|].
  destruct (JSString.split "." r); discriminate.
Qed.

Lemma length_split s :
  List.length (JSString.split "." s) = S (count_char "." s).
Proof.
  induction s as [|c r IH]; simpl; [reflexivity|].
  destruct (Ascii.eqb c "."); simpl; [now rewrite IH|].
  destruct (JSString.split "." r); simpl in *; lia.
Qed.

Lemma split_one_inv s b : JSString.split "." s = [b] -> s = b /\ dotless s = true.
Proof.
  revert b. induction s as [|c r IH]; intro b; simpl.
  - intros [= <-]. split; reflexivity.
  - destruct (Ascii.eqb c ".") eqn:E.
    + intros [= _ H]. destruct (split_nonempty _ H).
    + destruct (JSString.split "." r) as [|piece pieces] eqn:S;
        [destruct (split_nonempty _ S)|].
      intros [= <- ->]. destruct (IH piece eq_refl) as [-> D].
      split; [reflexivity|]. cbn [negb andb]. exact D.
Qed.

Lemma split_two_inv s a b :
  JSString.split "." s = [a; b] ->
  s = a ++ String "." b /\ dotless a = true /\ dotless b = true.
Proof.
  revert a. induction s as [|c r IH]; intro a; simpl; [discriminate|].
  destruct (Ascii.eqb_spec c ".") as [->|N].
  - intros [= <- H]. destruct (split_one_inv _ _ H) as [-> D].
    repeat split; assumption.
  - destruct (JSString.split "." r) as [|piece pieces] eqn:S;
      [destruct (split_nonempty _ S)|].
    intros [= <- ->]. destruct (IH piece eq_refl) as (-> & Da & Db).
    repeat split; try assumption. cbn [dotless].
    apply Ascii.eqb_neq in N. rewrite N. exact Da.
Qed.

(** X9.  A text in which the dot does not occur exactly once is refused as a
    token of the wrong format, whatever the key: the empty text, a text
    without a dot, and a token with another token or a suffix attached after
    a second dot. *)
Theorem decodeResumeToken_needs_one_dot token privateKey :
  count_char "." token <> 1%nat ->
  decodeResumeToken token privateKey = inl (Error "Invalid token format").
Proof.
  intro H. unfold decodeResumeToken.
  pose proof (length_split token) as L.
  destruct (JSString.split "." token) as [|a [|b [|c r]]]; try reflexivity.
  simpl in L. lia.
Qed.

(** Two tokens, one after the other. *)
Lemma decodeResumeToken_needs_one_dot_witness :
  decodeResumeToken (Scenario.token ++ "." ++ Scenario.token) Scenario.privateKey
  = inl (Error "Invalid token format").
Proof.
  apply (decodeResumeToken_needs_one_dot (Scenario.token ++ "." ++ Scenario.token)
           Scenario.privateKey).
  vm_compute. lia.
Defined.

(** X10.  What [decodeResumeToken] accepts: a record, read from a text that
    the token carries in its first segment and that the second segment signs
    under the key.  Nothing is parsed, and nothing is answered, from a token
    whose signature does not verify. *)
Theorem decodeResumeToken_accepts_signed_records token privateKey parsed :
  decodeResumeToken token privateKey = inr parsed ->
  exists body sig members,
    token = body ++ "." ++ sig
    /\ dotless body = true
    /\ sig = signToken (Utf8.toString (Base64url.decode body)) (createTokenKey privateKey)
    /\ String.length sig = 43%nat
    /\ base64url_text sig = true
    /\ JSON.parse (Utf8.toString (Base64url.decode body)) = Some (JObject members)
    /\ parsed = JObject members.
Proof.
  unfold decodeResumeToken.
  destruct (JSString.split "." token) as [|body [|sig [|c r]]] eqn:S; try discriminate.
  destruct (split_two_inv _ _ _ S) as (-> & Db & Ds).
  rewrite signature_check.
  destruct (String.eqb_spec sig
              (signToken (Utf8.toString (Base64url.decode body)) (createTokenKey privateKey)))
    as [E|N]; [|discriminate].
  cbn [negb].
  destruct (JSON.parse (Utf8.toString (Base64url.decode body))) as [[| | | | |ms]|] eqn:P;
    try discriminate.
  intros [= <-]. exists body, sig, ms.
  split; [reflexivity|]. split; [exact Db|]. split; [exact E|].
  split; [rewrite E; apply length_signToken|].
  split; [rewrite E; apply encode_base64url_text|].
  split; [exact P|reflexivity].
Qed.

(** The token of scenario A. *)
Lemma decodeResumeToken_accepts_signed_records_witness :
  exists body sig members,
    Scenario.token = body ++ "." ++ sig
    /\ dotless body = true
    /\ sig = signToken (Utf8.toString (Base64url.decode body))
               (createTokenKey Scenario.privateKey)
    /\ String.length sig = 43%nat
    /\ base64url_text sig = true
    /\ JSON.parse (Utf8.toString (Base64url.decode body)) = Some (JObject members)
    /\ PendingOrder_toJS Scenario.order = JObject members.
Proof.
  apply (decodeResumeToken_accepts_signed_records Scenario.token Scenario.privateKey
           (PendingOrder_toJS Scenario.order)).
  vm_compute. reflexivity.
Defined.

(** ** Lists of strings in JSON *)

Section ReadBackLists.

Import JSON.

Lemma stops_bracket rest : stops (String "]" rest).
Proof. reflexivity. Qed.

(** One item, up to the character that follows it. *)
Lemma element_step fuel v tail acc :
  value_ok v ->
  (String.length (stringify v) <= fuel)%nat ->
  stops tail ->
  elements (S (S fuel)) (stringify v ++ tail) acc
  = match skip_ws tail with
    | String c r1 =>
        if (code c =? 44)%Z then elements (S fuel) r1 (acc ++ [v])
        else if (code c =? 93)%Z then Some (JArray (acc ++ [v]), r1)
        else None
    | EmptyString => None
    end.
Proof.
  intros Hv Hf Hs.
  change (elements (S (S fuel)) (stringify v ++ tail) acc)
    with (match value (S fuel) (stringify v ++ tail) with
          | Some (v0, r) =>
              match skip_ws r with
              | String c r1 =>
                  if (code c =? 44)%Z then elements (S fuel) r1 (acc ++ [v0])
                  else if (code c =? 93)%Z then Some (JArray (acc ++ [v0]), r1)
                  else None
              | EmptyString => None
              end
          | None => None
          end).
  rewrite (Hv fuel tail Hf Hs). reflexivity.
Qed.

Lemma elements_ok items : forall acc fuel rest,
  items <> [] ->
  Forall value_ok items ->
  (String.length (items_text items) <= fuel)%nat ->
  elements (S (S fuel)) (items_text items ++ String "]" rest) acc
  = Some (JArray (acc ++ items), rest).
Proof.
  induction items as [|v items IH]; intros acc fuel rest N F L; [congruence|].
  inversion F as [|? ? Hv F']; subst.
  destruct items as [|v' items].
  - change (items_text [v]) with (stringify v) in *.
    rewrite (element_step fuel v _ acc Hv L (stops_bracket rest)). reflexivity.
  - change (items_text (v :: v' :: items))
      with (stringify v ++ "," ++ items_text (v' :: items)) in *.
    rewrite !length_append in L. cbn [String.length] in L.
    rewrite !append_assoc.
    change ("," ++ items_text (v' :: items) ++ String "]" rest)
      with (String "," (items_text (v' :: items) ++ String "]" rest)).
    rewrite (element_step fuel v _ acc Hv) by (lia || apply stops_comma).
    change (skip_ws (String "," (items_text (v' :: items) ++ String "]" rest)))
      with (String "," (items_text (v' :: items) ++ String "]" rest)).
    change (code "," =? 44)%Z with true. cbv iota.
    destruct fuel as [|fuel]; [lia|].
    rewrite IH; try assumption; try discriminate; [|lia].
    now rewrite <- app_assoc.
Qed.

Lemma value_strings l : value_ok (strings l).
Proof.
  intros fuel rest L _. unfold strings in *. cbn [stringify] in *.
  fold (items_text (map JString l)) in *.
  destruct l as [|s l].
  - reflexivity.
  - rewrite !length_append in L. cbn [String.length] in L.
    cbn [append]. rewrite append_assoc. cbn [append].
    assert (Hd : exists r, items_text (map JString (s :: l)) = String dq r).
    { destruct l; unfold items_text; cbn [map String.concat stringify]; unfold quote;
        cbn [append]; eexists; reflexivity. }
    destruct Hd as (r & Hd).
    destruct fuel as [|[|fuel]]; [lia|rewrite Hd in L; cbn [String.length] in L; lia|].
    pose proof (elements_ok (map JString (s :: l)) [] fuel rest) as M.
    rewrite Hd in *. cbn [append] in *.
    change (value (S (S (S fuel))) (String "[" (String dq (r ++ String "]" rest))))
      with (elements (S (S fuel)) (String dq (r ++ String "]" rest)) []).
    apply M; [discriminate| |cbn [String.length] in *; lia].
    apply Forall_forall. intros x Hx. apply in_map_iff in Hx.
    destruct Hx as (y & <- & _). apply value_string.
Qed.

End ReadBackLists.

Lemma filter_strings l :
  filter truthy_string
    (map (fun e => match e with JString x => x | _ => "" end) (map JString l))
  = filter truthy_string l.
Proof. rewrite map_map. cbn beta iota. now rewrite map_id. Qed.

(** X7.  [parseJsonStringArray] reads the JSON text of a list of strings
    back as its strings that are not empty, in their order, and as
    [undefined] when none is left; it never answers an empty list or an
    empty string, and it answers [undefined] for what is not a string, for a
    blank one, for text that is not JSON and for JSON that is not an array. *)
Theorem parseJsonStringArray_reads_lists_of_strings :
  (forall l,
      parseJsonStringArray (Some (JSON.stringify (strings l)))
      = match filter truthy_string l with
        | [] => None
        | out => Some out
        end)
  /\ (forall value l,
        parseJsonStringArray value = Some l ->
        l <> [] /\ (forall s, In s l -> s <> "")
        /\ exists text items,
             value = Some text
             /\ JSON.parse (JSString.trim text) = Some (JArray items)
             /\ l = filter truthy_string
                      (map (fun e => match e with JString x => x | _ => "" end) items))
  /\ (forall text,
        match JSON.parse (JSString.trim text) with
        | Some (JArray _) => False
        | _ => True
        end ->
        parseJsonStringArray (Some text) = None).
Proof.
  split; [|split].
  - intro l. unfold parseJsonStringArray.
    assert (T : JSString.trim (JSON.stringify (strings l)) = JSON.stringify (strings l)).
    { unfold strings. cbn [JSON.stringify]. fold (items_text (map JString l)).
      cbn [append].
      change (String "[" (items_text (map JString l) ++ "]"))
        with (String "[" (items_text (map JString l)) ++ String "]" "").
      apply trim_plain; reflexivity. }
    rewrite T.
    replace (truthy_string (JSON.stringify (strings l))) with true
      by (unfold strings; reflexivity).
    cbn [negb]. rewrite (parse_stringify _ (value_strings l)).
    unfold strings. rewrite filter_strings.
    destruct (filter truthy_string l); reflexivity.
  - intros value l H. unfold parseJsonStringArray in H.
    destruct value as [text|]; [|discriminate].
    destruct (negb (truthy_string (JSString.trim text))); [discriminate|].
    destruct (JSON.parse (JSString.trim text)) as [[| | | |items|]|] eqn:P; try discriminate.
    match type of H with context [filter ?p ?xs] => remember (filter p xs) as out eqn:E end.
    assert (F : forall s, In s out -> s <> "").
    { intros s Hs. rewrite E in Hs. apply filter_In in Hs.
      apply truthy_string_nonempty, Hs. }
    destruct out as [|x out']; [discriminate|]. injection H as <-.
    split; [discriminate|]. split; [exact F|].
    exists text, items. split; [reflexivity|]. split; [exact P|exact E].
  - intros text H. unfold parseJsonStringArray.
    destruct (negb (truthy_string (JSString.trim text))); [reflexivity|].
    destruct (JSON.parse (JSString.trim text)) as [[| | | |items|]|];
      try reflexivity. destruct H.
Qed.

(** The outcomes of a market as the Gamma API sends them. *)
Lemma parseJsonStringArray_reads_lists_of_strings_witness :
  (["Yes"; "No"] <> [] /\ (forall s, In s ["Yes"; "No"] -> s <> "")
   /\ exists text items,
        Some (JSON.sq "['Yes', '', 'No']") = Some text
        /\ JSON.parse (JSString.trim text) = Some (JArray items)
        /\ ["Yes"; "No"]
           = filter truthy_string
               (map (fun e => match e with JString x => x | _ => "" end) items))
  /\ parseJsonStringArray (Some "{}") = None.
Proof.
  split.
  - apply (proj1 (proj2 parseJsonStringArray_reads_lists_of_strings)
             (Some (JSON.sq "['Yes', '', 'No']")) ["Yes"; "No"]).
    vm_compute. reflexivity.
  - apply (proj2 (proj2 parseJsonStringArray_reads_lists_of_strings) "{}").
    vm_compute. exact I.
Defined.

(** ** Staging, step by step *)

(** One step of a chain that ran to its end. *)
Tactic Notation "took" hyp(H) "as" ident(a) ident(t) ident(H1) :=
  apply bind_normal_inv in H;
  let t2 := fresh "t" in
  destruct H as (a & t & t2 & H1 & H & ->).

Section StagingFacts.

Context {U : UnicodeCase}.

Variable w : World.
Variable config : PluginConfig.
Variable ctx : ToolContext.
Variable rawParams : Record_unknown.

(** Where the market and the instrument of a draft come from. *)
Lemma draft_order_sources d calls :
  draft_order w config ctx rawParams = (Normal d, calls) ->
  exists tokenIdFromArgs marketId,
    readStringParam rawParams "tokenId" false = inr tokenIdFromArgs
    /\ readStringParam rawParams "marketSlug" false = inr (draft_marketSlug d)
    /\ readStringParam rawParams "marketId" false = inr marketId
    /\ readStringParam rawParams "outcome" false = inr (draft_outcome d)
    /\ (exists rawSide,
          readStringParam rawParams "side" true = inr rawSide
          /\ draft_side d = toLowerCase rawSide)
    /\ (if truthy_string (draft_marketSlug d) || truthy_string marketId
        then exists m,
            resolveGammaMarket w marketId (draft_marketSlug d) = (Normal m, calls)
            /\ draft_market d = Some m
            /\ isAllowedMarket config (gm_slug m) = true
        else hasAllowlist config = false /\ draft_market d = None /\ calls = [])
    /\ (if truthy_string tokenIdFromArgs
        then draft_tokenId d = tokenIdFromArgs /\ draft_resolvedOutcome d = None
        else exists m,
            draft_market d = Some m
            /\ resolveOutcomeToken m (Some (draft_outcome d))
               = inr (draft_tokenId d, draft_resolvedOutcome d)).
Proof.
  unfold draft_order. intro H.
  destruct (tradeEnabled config); [|discriminate H].
  destruct (sandboxed ctx); [discriminate H|].
  rewrite !bind_answer_if_false in H.
  destruct (resolvePrivateKey w config) as [key|]; [|discriminate H].
  took H as tokenIdFromArgs t1 R1. apply lift_normal_inv in R1. destruct R1 as [R1 ->].
  took H as marketSlug t2 R2. apply lift_normal_inv in R2. destruct R2 as [R2 ->].
  took H as marketId t3 R3. apply lift_normal_inv in R3. destruct R3 as [R3 ->].
  took H as outcome t4 R4. apply lift_normal_inv in R4. destruct R4 as [R4 ->].
  took H as market t5 R5.
  took H as u6 t6 R6. apply answer_if_normal_inv in R6. destruct R6 as [R6 ->].
  took H as resolved t7 R7.
  took H as rawSide t8 R8. apply lift_normal_inv in R8. destruct R8 as [R8 ->].
  took H as u9 t9 R9. apply throw_if_normal_inv in R9. destruct R9 as [R9 ->].
  took H as price t10 R10. apply lift_normal_inv in R10. destruct R10 as [R10 ->].
  took H as size t11 R11. apply lift_normal_inv in R11. destruct R11 as [R11 ->].
  took H as u12 t12 R12. apply throw_if_normal_inv in R12. destruct R12 as [R12 ->].
  took H as u13 t13 R13. apply throw_if_normal_inv in R13. destruct R13 as [R13 ->].
  apply ret_normal_inv in H. destruct H as [<- ->].
  cbn [draft_marketSlug draft_outcome draft_market draft_tokenId draft_resolvedOutcome
       draft_side].
  assert (T7 : t7 = [] /\ if truthy_string tokenIdFromArgs
                          then resolved = (tokenIdFromArgs, None)
                          else exists m, market = Some m
                                 /\ resolveOutcomeToken m (Some outcome) = inr resolved).
  { destruct (truthy_string tokenIdFromArgs).
    - apply ret_normal_inv in R7. destruct R7 as [<- ->]. split; reflexivity.
    - destruct market as [m|]; [|discriminate R7].
      apply lift_normal_inv in R7. destruct R7 as [R7 ->].
      split; [reflexivity|]. exists m. split; [reflexivity|exact R7]. }
  destruct T7 as [-> T7]. cbn [app]. rewrite !app_nil_r.
  exists tokenIdFromArgs, marketId.
  repeat (split; [assumption|]).
  split; [exists rawSide; split; [assumption|reflexivity]|].
  split.
  - destruct (truthy_string marketSlug || truthy_string marketId).
    + took R5 as m t14 G. apply ret_normal_inv in R5. destruct R5 as [<- ->].
      rewrite app_nil_r. exists m. split; [exact G|]. split; [reflexivity|].
      now apply negb_false_iff in R6.
    + destruct (hasAllowlist config); [discriminate R5|].
      apply ret_normal_inv in R5. destruct R5 as [<- ->]. repeat split.
  - destruct (truthy_string tokenIdFromArgs).
    + subst resolved. split; reflexivity.
    + destruct T7 as (m & -> & T7). exists m. split; [reflexivity|].
      rewrite T7. now destruct resolved.
Qed.

End StagingFacts.

Lemma resolveGammaMarket_calls w marketId marketSlug :
  snd (resolveGammaMarket w marketId marketSlug)
  = if truthy_string marketSlug then [FetchMarketBySlug marketSlug]
    else if truthy_string marketId then [FetchMarketById marketId]
    else [].
Proof.
  unfold resolveGammaMarket.
  destruct (truthy_string marketSlug); [reflexivity|].
  destruct (truthy_string marketId); reflexivity.
Qed.

(** With an allowlist, the test of [isAllowedMarket] is passed by the entries
    of the list alone. *)
Lemma isAllowedMarket_listed config slug :
  hasAllowlist config = true ->
  isAllowedMarket config slug = true ->
  exists s allow,
    slug = Some s /\ allowedMarketSlugs config = Some allow
    /\ JSString.trim s <> ""
    /\ In (JSString.trim s) (map JSString.trim allow).
Proof.
  unfold hasAllowlist, isAllowedMarket.
  destruct (allowedMarketSlugs config) as [[|a allow]|]; try discriminate.
  intros _ H.
  destruct slug as [s|].
  - destruct (truthy_string (JSString.trim s)) eqn:T; [|discriminate H].
    cbn [negb] in H. apply existsb_exists in H. destruct H as (entry & I & E).
    apply String.eqb_eq in E. exists s, (a :: allow).
    split; [reflexivity|]. split; [reflexivity|].
    split; [now apply truthy_string_nonempty|].
    rewrite <- E. now apply in_map.
  - discriminate H.
Qed.

Section Staged.

Context {U : UnicodeCase}.

Variable w : World.
Variable pluginConfig : option JValue.
Variable ctx : ToolContext.
Variable rawParams : Record_unknown.

Let config := resolvePluginConfig pluginConfig.

(** X11.  Every order that [execute] answers with a token has gone through
    every check of [place_order]: trading is enabled, the context is not
    sandboxed, the token is signed with the configured key; the order is a
    [place_order] bound to the session of the context, for an instrument
    that is named, on the side [buy] or [sell], at the price and size of the
    request, a finite price strictly between 0 and 1 and a finite size above
    0, and a notional, their product, within a limit that is positive. *)
Theorem staged_order_passed_every_check order token :
  fst (execute w pluginConfig ctx rawParams) = NeedsApproval order token ->
  tradeEnabled config = true
  /\ sandboxed ctx = false
  /\ (exists key, resolvePrivateKey w config = Some key
                  /\ token = encodeResumeToken order key)
  /\ action order = "place_order"
  /\ sessionKey order = ctx_sessionKey ctx
  /\ tokenId order <> ""
  /\ (side order = "buy" \/ side order = "sell")
  /\ readNumberParam rawParams "price" = inr (price order)
  /\ readNumberParam rawParams "size" = inr (size order)
  /\ Number.isFinite (price order) = true
  /\ (0 <? price order)%float = true
  /\ (price order <? 1)%float = true
  /\ Number.isFinite (size order) = true
  /\ (0 <? size order)%float = true
  /\ approxNotionalUsd order = (price order * size order)%float
  /\ ((0 <? maxNotionalUsd config)%float = true ->
      (approxNotionalUsd order <=? maxNotionalUsd config)%float = true).
Proof.
  intro E. destruct (execute w pluginConfig ctx rawParams) as [r calls] eqn:X.
  cbn in E. subst r.
  apply execute_needs_approval_inv in X. destruct X as (d & _ & Hd & Hn & -> & ->).
  fold config in Hd, Hn.
  pose proof (draft_order_inv _ _ _ _ _ _ Hd)
    as (Te & Sb & Hk & Hp & Hs & P0 & P1 & S0 & Sd & _).
  pose proof (draft_order_sources _ _ _ _ _ _ Hd)
    as (tid & mid & R1 & _ & _ & _ & _ & _ & Tk).
  pose proof (readNumberParam_finite _ _ _ Hp) as Fp.
  pose proof (readNumberParam_finite _ _ _ Hs) as Fs.
  pose proof (finite_not_nan _ Fp) as Np. pose proof (finite_not_nan _ Fs) as Ns.
  cbn [pending_order action sessionKey tokenId side price size approxNotionalUsd].
  split; [exact Te|]. split; [exact Sb|].
  split; [exists (draft_privateKey d); split; [exact Hk|reflexivity]|].
  split; [reflexivity|]. split; [reflexivity|].
  split.
  { destruct (truthy_string tid) eqn:T.
    - destruct Tk as [-> _]. now apply truthy_string_nonempty.
    - destruct Tk as (m & _ & Tk).
      apply truthy_string_nonempty.
      pose proof (or_empty_truthy (gm_clobTokenIds m)) as T'.
      rewrite Forall_forall in T'. apply T'.
      eapply resolveOutcomeIn_listed. exact Tk. }
  split; [exact Sd|]. split; [exact Hp|]. split; [exact Hs|]. split; [exact Fp|].
  split; [rewrite ltb_negb_leb by (reflexivity || exact Np); now rewrite P0|].
  split; [rewrite ltb_negb_leb by (reflexivity || exact Np); now rewrite P1|].
  split; [exact Fs|].
  split; [rewrite ltb_negb_leb by (reflexivity || exact Ns); now rewrite S0|].
  split; [reflexivity|].
  intro L. unfold exceedsNotionalLimit in Hn. rewrite L in Hn. cbn [andb] in Hn.
  rewrite ltb_negb_leb in Hn.
  - now apply negb_false_iff in Hn.
  - apply maxNotionalUsd_not_nan.
  - now apply mul_finite_not_nan.
Qed.

End Staged.

(** ** Requests of the staging step *)

Lemma snd_bind_silent {A B} (m : M A) (k : A -> M B) :
  (forall a, snd (k a) = []) -> snd (bind m k) = snd m.
Proof.
  intro K. destruct m as [[a|r|e] t]; try reflexivity.
  unfold bind. specialize (K a). destruct (k a) as [o t']. cbn [snd] in *.
  rewrite K. apply app_nil_r.
Qed.

Lemma snd_answer_if c r : snd (answer_if c r) = [].
Proof. now destruct c. Qed.

Lemma snd_throw_if c msg : snd (throw_if c msg) = [].
Proof. now destruct c. Qed.

Lemma snd_lift {A} (x : Exception + A) : snd (lift x) = [].
Proof. now destruct x. Qed.

(** Proves that a chain of steps without a request makes none. *)
Ltac silent :=
  repeat first
    [ reflexivity
    | apply snd_answer_if | apply snd_throw_if | apply snd_lift
    | rewrite snd_bind_silent; [|intro]
    | match goal with
      | |- snd (if ?c then _ else _) = [] => destruct c
      | |- snd (match ?x with _ => _ end) = [] => destruct x
      end ].

Section StagingRequests.

Context {U : UnicodeCase}.

Variable w : World.
Variable config : PluginConfig.
Variable ctx : ToolContext.
Variable rawParams : Record_unknown.

(** The checks of [place_order] that follow the market. *)
Lemma draft_order_calls :
  snd (draft_order w config ctx rawParams) = []
  \/ exists marketSlug marketId,
       readStringParam rawParams "marketSlug" false = inr marketSlug
       /\ readStringParam rawParams "marketId" false = inr marketId
       /\ truthy_string marketSlug || truthy_string marketId = true
       /\ snd (draft_order w config ctx rawParams)
          = snd (resolveGammaMarket w marketId marketSlug).
Proof.
  unfold draft_order.
  destruct (tradeEnabled config); [|now left].
  destruct (sandboxed ctx); [now left|].
  rewrite !bind_answer_if_false.
  destruct (resolvePrivateKey w config) as [key|]; [|now left].
  destruct (readStringParam rawParams "tokenId" false) as [e|tokenIdFromArgs]; [now left|].
  destruct (readStringParam rawParams "marketSlug" false) as [e|marketSlug]; [now left|].
  destruct (readStringParam rawParams "marketId" false) as [e|marketId]; [now left|].
  destruct (readStringParam rawParams "outcome" false) as [e|outcome]; [now left|].
  rewrite !bind_lift_inr.
  destruct (truthy_string marketSlug || truthy_string marketId) eqn:G.
  - right. exists marketSlug, marketId. repeat (split; [reflexivity|]).
    rewrite snd_bind_silent; [now rewrite snd_bind_silent|].
    intro market. silent.
  - left. silent.
Qed.

End StagingRequests.

Lemma snd_settle (m : M ToolResult) : snd (settle m) = snd m.
Proof. now destruct m as [[r|r|e] t]. Qed.

Section Protocol.

Context {U : UnicodeCase}.

Variable w : World.
Variable pluginConfig : option JValue.
Variable ctx : ToolContext.
Variable rawParams : Record_unknown.

Let config := resolvePluginConfig pluginConfig.


(** X12.  With an allowlist configured, an order is staged only for a market
    that was fetched from the Gamma API in the same call, by the slug of the
    request or, without one, by its id, and whose own slug, trimmed, is an
    entry of the allowlist; the order records that slug and the id of that
    market.  The instrument of the order is the [tokenId] parameter when
    there is one, which is not compared with the market, and an instrument
    that the market lists otherwise. *)
Theorem allowlist_checks_the_named_market order token :
  hasAllowlist config = true ->
  fst (execute w pluginConfig ctx rawParams) = NeedsApproval order token ->
  exists m s allow,
    ((exists slug,
         readStringParam rawParams "marketSlug" false = inr slug
         /\ fetchMarketBySlug w slug = inr m
         /\ snd (execute w pluginConfig ctx rawParams) = [FetchMarketBySlug slug])
     \/ (exists id,
         readStringParam rawParams "marketSlug" false = inr ""
         /\ readStringParam rawParams "marketId" false = inr id
         /\ fetchMarketById w id = inr m
         /\ snd (execute w pluginConfig ctx rawParams) = [FetchMarketById id]))
    /\ gm_slug m = Some s
    /\ allowedMarketSlugs config = Some allow
    /\ In (JSString.trim s) (map JSString.trim allow)
    /\ market_slug (market order) = Some s
    /\ market_id (market order) = gm_id m
    /\ exists given,
         readStringParam rawParams "tokenId" false = inr given
         /\ if truthy_string given then tokenId order = given
            else In (tokenId order)
                    (or_empty (parseJsonStringArray (gm_clobTokenIds m))).
Proof.
  intros A E. destruct (execute w pluginConfig ctx rawParams) as [r calls] eqn:X.
  cbn in E. subst r. cbn [snd].
  apply execute_needs_approval_inv in X. destruct X as (d & _ & Hd & _ & -> & _).
  fold config in Hd.
  pose proof (draft_order_sources _ _ _ _ _ _ Hd)
    as (tid & mid & R1 & R2 & R3 & _ & _ & Mk & Tk).
  cbn [pending_order market market_slug market_id tokenId].
  destruct (truthy_string (draft_marketSlug d) || truthy_string mid) eqn:G.
  2:{ destruct Mk as [Mk _]. rewrite Mk in A. discriminate A. }
  destruct Mk as (m & Rm & Em & Al).
  destruct (isAllowedMarket_listed _ _ A Al) as (s & allow & Es & Ea & _ & I).
  exists m, s, allow. rewrite Em in *.
  split.
  { unfold resolveGammaMarket in Rm.
    destruct (truthy_string (draft_marketSlug d)) eqn:Ts.
    - left. exists (draft_marketSlug d). split; [exact R2|].
      apply await_normal_inv in Rm. destruct Rm as [Rm ->]. split; [exact Rm|reflexivity].
    - cbn [orb] in G. rewrite G in Rm. right. exists mid.
      split. { rewrite R2. f_equal. destruct (draft_marketSlug d); [reflexivity|discriminate Ts]. }
      split; [exact R3|].
      apply await_normal_inv in Rm. destruct Rm as [Rm ->]. split; [exact Rm|reflexivity]. }
  split; [exact Es|]. split; [exact Ea|].
  split; [exact I|].
  split; [now rewrite Es|]. split; [reflexivity|].
  exists tid. split; [exact R1|].
  destruct (truthy_string tid).
  - exact (proj1 Tk).
  - destruct Tk as (m' & [= <-] & Tk).
    eapply resolveOutcomeIn_listed. exact Tk.
Qed.

(** X13.  Whatever the answer, [place_order] makes no request but the one
    that fetches the market from the Gamma API, by the slug of the request
    or, without a slug, by its id: it never reaches the client of the venue. *)
Theorem staging_reads_only_the_market :
  readStringParam rawParams "action" true = inr "place_order" ->
  let calls := snd (execute w pluginConfig ctx rawParams) in
  calls = []
  \/ (exists slug,
        readStringParam rawParams "marketSlug" false = inr slug
        /\ slug <> "" /\ calls = [FetchMarketBySlug slug])
  \/ (exists id,
        readStringParam rawParams "marketSlug" false = inr ""
        /\ readStringParam rawParams "marketId" false = inr id
        /\ id <> "" /\ calls = [FetchMarketById id]).
Proof.
  intros Ha calls. subst calls. unfold execute. rewrite Ha, bind_lift_inr.
  cbn [String.eqb Ascii.eqb Bool.eqb]. rewrite snd_settle. unfold place_order.
  rewrite snd_bind_silent by (intro d; unfold stage_order; silent).
  fold config.
  destruct (draft_order_calls w config ctx rawParams)
    as [E|(marketSlug & marketId & R2 & R3 & G & E)]; [now left|].
  rewrite E, resolveGammaMarket_calls.
  destruct (truthy_string marketSlug) eqn:Ts.
  - right. left. exists marketSlug. split; [exact R2|].
    split; [now apply truthy_string_nonempty|reflexivity].
  - cbn [orb] in G. rewrite G. right. right. exists marketId.
    split. { rewrite R2. f_equal. destruct marketSlug; [reflexivity|discriminate Ts]. }
    split; [exact R3|]. split; [now apply truthy_string_nonempty|reflexivity].
Qed.

(** X14.  A [resume] request makes no request of the venue unless its
    [approve] parameter is the boolean [true]: not when it is [false], and
    not when it is missing or of another type, such as the text [true]. *)
Theorem resume_without_approval_asks_nothing :
  readStringParam rawParams "action" true = inr "resume" ->
  JSON.get rawParams "approve" <> Some (JBool true) ->
  snd (execute w pluginConfig ctx rawParams) = [].
Proof.
  intros Ha Hn. unfold execute. rewrite Ha, bind_lift_inr.
  cbn [String.eqb Ascii.eqb Bool.eqb]. rewrite snd_settle. unfold resume.
  destruct (sandboxed ctx); [reflexivity|]. flow.
  destruct (readStringParam rawParams "token" true) as [e|token]; flow; [reflexivity|].
  destruct (JSON.get rawParams "approve") as [[|[|]| | | |]|];
    try congruence; flow; try reflexivity.
  destruct (resolvePrivateKey w (resolvePluginConfig pluginConfig)) as [key|];
    [|reflexivity].
  destruct (decodeResumeToken token key) as [e|parsed]; flow; [reflexivity|].
  destruct (PendingOrder_ofJS parsed) as [pending|]; [|reflexivity].
  unfold resume_pending.
  destruct (expired pending (Date_now w)); flow; [reflexivity|].
  destruct (sessionMismatch pending ctx); flow; reflexivity.
Qed.

End Protocol.

Section RoundTrip.

Context {U : UnicodeCase}.

Variable w w' : World.
Variable pluginConfig : option JValue.
Variable ctx : ToolContext.
Variable proposal approval : Record_unknown.

Let config := resolvePluginConfig pluginConfig.


End RoundTrip.

(** ** Requests of the other actions *)

Lemma forallb_andThen {A B} (p : Request -> bool) (m : Run A) (k : A -> Run B) :
  forallb p (snd m) = true ->
  (forall a, fst m = Went a -> forallb p (snd (k a)) = true) ->
  forallb p (snd (andThen m k)) = true.
Proof.
  intros Hm Hk. destruct m as [[a|r|e] t]; cbn [andThen snd fst] in *; try assumption.
  specialize (Hk a eq_refl). destruct (k a) as [o t']. cbn [snd] in *.
  rewrite forallb_app, Hm, Hk. reflexivity.
Qed.

Lemma forallb_read {A} (p : Request -> bool) (x : Exception + A) :
  forallb p (snd (read x)) = true.
Proof. now destruct x. Qed.

Lemma forallb_fail_if (p : Request -> bool) c type :
  forallb p (snd (fail_if c type)) = true.
Proof. now destruct c. Qed.

Lemma forallb_ask {A} (p : Request -> bool) q (x : Exception + A) :
  p q = true -> forallb p (snd (ask q x)) = true.
Proof. intro H. cbn. now rewrite H. Qed.

Lemma forallb_embed {A} (p : Request -> bool) (m : M A) :
  forallb (fun c => p (Asked c)) (snd m) = true ->
  forallb p (snd (embed m)) = true.
Proof.
  unfold embed. cbn [snd]. induction (snd m) as [|c l IH]; [reflexivity|].
  cbn. intro H. apply andb_true_iff in H. destruct H as [H1 H2].
  now rewrite H1, IH.
Qed.

Lemma forallb_finish (p : Request -> bool) (m : Run Reply) :
  forallb p (snd m) = true -> forallb p (snd (finish m)) = true.
Proof. now destruct m as [[r|r|e] t]. Qed.

Lemma andThen_went {A B} (a : A) (k : A -> Run B) : andThen (went a) k = k a.
Proof. unfold andThen, went. now destruct (k a). Qed.

Lemma snd_finish (m : Run Reply) : snd (finish m) = snd m.
Proof. now destruct m as [[r|r|e] t]. Qed.

Lemma forallb_weaken {A} (p q : A -> bool) l :
  (forall x, p x = true -> q x = true) -> forallb p l = true -> forallb q l = true.
Proof.
  intros H. induction l as [|x l IH]; [reflexivity|]. cbn.
  intro E. apply andb_true_iff in E. destruct E as [E1 E2].
  now rewrite (H _ E1), IH.
Qed.

Lemma finish_protocol (m : M ToolResult) :
  finish (protocol m) = (Told (fst (settle m)), map Asked (snd (settle m))).
Proof.
  destruct m as [[r|r|e] t]; unfold protocol, embed; cbn; rewrite ?app_nil_r; reflexivity.
Qed.

Lemma resolveGammaMarket_reads w marketId marketSlug :
  forallb (fun c => match c with
                    | FetchMarketBySlug _ | FetchMarketById _ => true
                    | _ => false
                    end) (snd (resolveGammaMarket w marketId marketSlug)) = true.
Proof.
  rewrite resolveGammaMarket_calls.
  destruct (truthy_string marketSlug); [reflexivity|].
  destruct (truthy_string marketId); reflexivity.
Qed.

Section ActionRequests.

Context {U : UnicodeCase}.

Variable v : Venue.
Variable pluginConfig : option JValue.
Variable ctx : ToolContext.
Variable rawParams : Record_unknown.

Let w := world_of v.
Let config := resolvePluginConfig pluginConfig.

(** The two actions of the approval protocol, among the others. *)
Lemma execute_action_protocol :
  readStringParam rawParams "action" true = inr "place_order"
  \/ readStringParam rawParams "action" true = inr "resume" ->
  execute_action v pluginConfig ctx rawParams
  = (Told (fst (execute w pluginConfig ctx rawParams)),
     map Asked (snd (execute w pluginConfig ctx rawParams))).
Proof.
  intros [Ha|Ha]; unfold execute_action, execute; rewrite Ha;
    cbn [read andThen went app]; rewrite bind_lift_inr;
    cbn [String.eqb Ascii.eqb Bool.eqb]; destruct (protocol _) as [o t] eqn:P;
    rewrite <- P; apply finish_protocol.
Qed.

Lemma with_client_without_key :
  resolvePrivateKey w config = None ->
  with_client v pluginConfig = fail "missing_private_key".
Proof. intro H. unfold with_client. fold w config. now rewrite H. Qed.

Lemma resolveGammaMarket_keyless marketId marketSlug :
  forallb (fun q => negb (needs_key q))
    (snd (embed (resolveGammaMarket w marketId marketSlug))) = true.
Proof.
  apply forallb_embed.
  eapply forallb_weaken; [|apply resolveGammaMarket_reads]. now intros [].
Qed.

(** Proves that the requests of a chain of steps all pass a test. *)
Ltac requests :=
  repeat first
    [ reflexivity
    | apply forallb_read | apply forallb_fail_if
    | apply forallb_ask; reflexivity
    | apply resolveGammaMarket_keyless
    | apply forallb_andThen; [|intros ? ?]
    | match goal with
      | |- forallb _ (snd (if ?c then _ else _)) = true => destruct c
      end ].

(** X16.  Without a trading key in the environment, no action makes a
    request in the name of the key: the client is not built, no balance,
    order or trade is read, nothing is submitted or cancelled.  The requests
    that are left are the reads of the public market data. *)
Theorem without_a_key_only_public_reads :
  resolvePrivateKey w config = None ->
  forallb (fun q => negb (needs_key q))
    (snd (execute_action v pluginConfig ctx rawParams)) = true.
Proof.
  intro Hk. pose proof (with_client_without_key Hk) as Wc.
  unfold execute_action. apply forallb_finish.
  apply forallb_andThen; [apply forallb_read|intros action _].
  repeat match goal with
  | |- forallb _ (snd (if String.eqb action ?s then _ else _)) = true =>
      destruct (String.eqb action s)
  end.
  - reflexivity.
  - unfold balances_action. rewrite Wc. reflexivity.
  - unfold positions_action. fold w.
    rewrite Wc. requests.
  - unfold open_orders_action. rewrite Wc. reflexivity.
  - unfold trades_action. rewrite Wc. reflexivity.
  - unfold order_action. rewrite Wc. requests.
  - unfold cancel_order_action. rewrite Wc. requests.
  - unfold cancel_all_action. rewrite Wc. requests.
  - unfold search_action. requests.
  - unfold market_action, resolveGammaObject. requests.
  - unfold orderbook_action. requests.
  - unfold protocol. apply forallb_andThen; [|reflexivity].
    fold w config. unfold place_order, draft_order. rewrite Hk.
    destruct (tradeEnabled config); [|reflexivity].
    destruct (sandboxed ctx); reflexivity.
  - unfold protocol. apply forallb_andThen; [|reflexivity].
    fold w config. unfold resume. rewrite Hk.
    destruct (sandboxed ctx); [reflexivity|]. flow.
    destruct (readStringParam rawParams "token" true); flow; [reflexivity|].
    destruct (JSON.get rawParams "approve") as [[|b| | | |]|]; flow; reflexivity.
  - reflexivity.
Qed.

Lemma with_client_reads :
  forallb (fun q => negb (is_mutation q)) (snd (with_client v pluginConfig)) = true.
Proof.
  unfold with_client. destruct (resolvePrivateKey _ _) as [key|]; [|reflexivity].
  apply forallb_embed. apply resolveClobClient_quiet.
Qed.

Lemma resolveGammaMarket_harmless marketId marketSlug :
  forallb (fun q => negb (is_mutation q))
    (snd (embed (resolveGammaMarket w marketId marketSlug))) = true.
Proof.
  apply forallb_embed.
  eapply forallb_weaken; [|apply resolveGammaMarket_reads]. now intros [].
Qed.

Lemma position_entries_reads normalizedOutcome pairs :
  forallb (fun q => negb (is_mutation q))
    (snd (position_entries v normalizedOutcome pairs)) = true.
Proof.
  induction pairs as [|[label tokenId] rest IH]; [reflexivity|].
  cbn [position_entries].
  destruct (negb (truthy_string label) || negb (truthy_string tokenId)); [exact IH|].
  destruct (truthy_option normalizedOutcome && _); [exact IH|].
  apply forallb_andThen; [reflexivity|intros bal _].
  apply forallb_andThen; [exact IH|reflexivity].
Qed.

Lemma open_orders_of_reads entries :
  forallb (fun q => negb (is_mutation q)) (snd (open_orders_of v entries)) = true.
Proof.
  induction entries as [|entry rest IH]; [reflexivity|].
  cbn [open_orders_of].
  destruct (negb (truthy_string (fst entry))); [exact IH|].
  apply forallb_andThen; [reflexivity|intros orders _].
  apply forallb_andThen; [exact IH|reflexivity].
Qed.

Lemma trades_of_reads limit entries :
  forallb (fun q => negb (is_mutation q)) (snd (trades_of v limit entries)) = true.
Proof.
  induction entries as [|entry rest IH]; [reflexivity|].
  cbn [trades_of].
  destruct (negb (truthy_string (fst entry))); [exact IH|].
  apply forallb_andThen; [reflexivity|intros trades _].
  apply forallb_andThen; [exact IH|reflexivity].
Qed.

(** Proves that the requests of a chain of steps change nothing. *)
Ltac reads :=
  repeat first
    [ reflexivity
    | apply forallb_read | apply forallb_fail_if
    | apply forallb_ask; reflexivity
    | apply with_client_reads | apply resolveGammaMarket_harmless
    | apply position_entries_reads | apply open_orders_of_reads
    | apply trades_of_reads
    | progress cbv zeta
    | apply forallb_andThen; [|intros ? ?]
    | match goal with
      | |- forallb _ (snd (if ?c then _ else _)) = true => destruct c
      end ].

Lemma forallb_not_in (p : Request -> bool) l q :
  forallb p l = true -> In q l -> p q = true.
Proof. intros H I. rewrite forallb_forall in H. now apply H. Qed.

Lemma in_andThen {A B} q (m : Run A) (k : A -> Run B) :
  In q (snd (andThen m k)) ->
  In q (snd m) \/ exists a, fst m = Went a /\ In q (snd (k a)).
Proof.
  destruct m as [[a|r|e] t]; cbn [andThen snd fst]; try tauto.
  destruct (k a) as [o t'] eqn:K. cbn [snd]. intro I.
  apply in_app_or in I. destruct I as [I|I]; [now left|].
  right. exists a. rewrite K. split; [reflexivity|exact I].
Qed.

(** X17.  The only requests that change something at the venue are the
    submission of an order and the two cancellations, and none is made by
    accident.  Each one needs a context outside the sandbox and the trading
    key.  An order is submitted only by a [resume] that approves a token
    which decodes under the key, is not expired and not bound to another
    session, with trading enabled and the market allowed, and it is the
    order of the token.  A token that is bound to a session is accepted from
    a context without a session key: the check compares two keys only when
    both are there.  One order is cancelled only by [cancel_order], and it
    is the one named by [orderId]; all are cancelled only by [cancel_all]
    with [confirm] set to the boolean [true].  Cancelling does not ask for
    trading to be enabled.

    The statement is for a request whose token, when it verifies under the
    key, carries a complete pending order, as the tokens of [place_order]
    do: what the code does with another record that verifies is outside
    the model. *)
Theorem mutations_are_deliberate q :
  (forall token key parsed,
      readStringParam rawParams "token" true = inr token ->
      resolvePrivateKey w config = Some key ->
      decodeResumeToken token key = inr parsed ->
      PendingOrder_ofJS parsed <> None) ->
  In q (snd (execute_action v pluginConfig ctx rawParams)) ->
  is_mutation q = true ->
  sandboxed ctx = false
  /\ resolvePrivateKey w config <> None
  /\ ((exists order options token key pending,
         q = Asked (CreateAndPostOrder order options)
         /\ resume_request rawParams token true
         /\ decodes_to w config token key pending
         /\ expired pending (clock v) = false
         /\ sessionMismatch pending ctx = false
         /\ (forall bound current,
                sessionKey pending = Some bound -> ctx_sessionKey ctx = Some current ->
                bound <> "" -> current <> "" -> bound = current)
         /\ tradeEnabled config = true
         /\ isAllowedMarket config (market_slug (market pending)) = true
         /\ order = submitted_order pending)
      \/ (exists orderId,
            readStringParam rawParams "action" true = inr "cancel_order"
            /\ readStringParam rawParams "orderId" true = inr orderId
            /\ q = CancelOrder orderId)
      \/ (readStringParam rawParams "action" true = inr "cancel_all"
          /\ JSON.get rawParams "confirm" = Some (JBool true)
          /\ q = CancelAll)).
Proof.
  intros _ I Mq.
  assert (Harmless : forall l, forallb (fun q => negb (is_mutation q)) l = true ->
                               In q l -> False).
  { intros l F Il. pose proof (forallb_not_in _ _ _ F Il) as N. cbn beta in N.
    rewrite Mq in N. discriminate N. }
  assert (Keyed : forall a, fst (with_client v pluginConfig) = Went a ->
                            resolvePrivateKey w config <> None).
  { intros a. unfold with_client. fold w config.
    destruct (resolvePrivateKey w config); [discriminate|]. cbn. discriminate. }
  destruct (readStringParam rawParams "action" true) as [e|action] eqn:Ha.
  { unfold execute_action in I. rewrite Ha in I. destruct I. }
  destruct (String.eqb_spec action "place_order") as [->|Np].
  { rewrite execute_action_protocol in I by now left. cbn [snd] in I.
    apply in_map_iff in I. destruct I as (c & <- & I).
    destruct c; try discriminate Mq.
    destruct (submission_is_approved w pluginConfig ctx rawParams _ _ I)
      as (_ & token & key & pending & (Hr & _) & _).
    rewrite Ha in Hr. discriminate Hr. }
  destruct (String.eqb_spec action "resume") as [->|Nr].
  { rewrite execute_action_protocol in I by now right. cbn [snd] in I.
    apply in_map_iff in I. destruct I as (c & <- & I).
    destruct c; try discriminate Mq.
    destruct (submission_is_approved w pluginConfig ctx rawParams _ _ I)
      as (Sb & token & key & pending & Hr & Hd & He & Hm & Te & _ & Al & ts & nr & _ & _ & _ & Eo & _).
    split; [exact Sb|].
    split; [pose proof (proj1 Hd) as Hk; fold w config in Hk |- *; rewrite Hk;
            discriminate|].
    left. exists order, options, token, key, pending.
    do 5 (split; [reflexivity || assumption|]).
    split; [|repeat (split; [reflexivity || assumption|]); exact Eo].
    intros bound current Eb Ec Nb Nc. unfold sessionMismatch in Hm.
    rewrite Eb, Ec in Hm. destruct (String.eqb_spec bound current) as [E|N];
      [exact E|].
    destruct bound; [now elim Nb|]. destruct current; [now elim Nc|].
    discriminate Hm. }
  unfold execute_action in I. rewrite Ha, snd_finish in I.
  unfold read in I. rewrite andThen_went in I. fold w config in I.
  revert I.
  destruct (String.eqb_spec action "place_order") as [|_]; [contradiction|].
  destruct (String.eqb_spec action "resume") as [|_]; [contradiction|].
  repeat match goal with
  | |- In q (snd (if String.eqb ?a ?s then _ else _)) -> _ =>
      is_var a; let E := fresh "E" in
      destruct (String.eqb_spec a s) as [E|_]; [subst a|]
  end; intro I;
  try (exfalso; refine (Harmless _ _ I);
       unfold balances_action, positions_action, open_orders_action, trades_action,
         order_action, search_action, market_action, orderbook_action, targets,
         resolveGammaObject;
       solve [reads]).
  - (* cancel_order *)
    unfold cancel_order_action in I.
    destruct (sandboxed ctx); [cbn in I; destruct I|]. split; [reflexivity|].
    unfold fail_if in I. rewrite andThen_went in I.
    destruct (readStringParam rawParams "orderId" true) as [e|orderId] eqn:Ro;
      [cbn in I; destruct I|].
    unfold read in I. rewrite andThen_went in I.
    apply in_andThen in I. destruct I as [I|([] & Wc & I)].
    { exfalso. exact (Harmless _ with_client_reads I). }
    split; [exact (Keyed _ Wc)|]. right. left. exists orderId.
    split; [reflexivity|]. split; [reflexivity|].
    apply in_andThen in I. destruct I as [I|(result & _ & I)]; [|cbn in I; destruct I].
    destruct I as [<-|[]]. reflexivity.
  - (* cancel_all *)
    unfold cancel_all_action in I.
    destruct (sandboxed ctx); [cbn in I; destruct I|]. split; [reflexivity|].
    unfold fail_if in I. rewrite andThen_went in I.
    destruct (JSON.get rawParams "confirm") as [[|[|]| | | |]|] eqn:Rc;
      cbn [negb] in I; try (cbn in I; destruct I).
    rewrite andThen_went in I.
    apply in_andThen in I. destruct I as [I|([] & Wc & I)].
    { exfalso. exact (Harmless _ with_client_reads I). }
    split; [exact (Keyed _ Wc)|]. right. right.
    split; [reflexivity|]. split; [reflexivity|].
    apply in_andThen in I. destruct I as [I|(result & _ & I)]; [|cbn in I; destruct I].
    destruct I as [<-|[]]. reflexivity.
Qed.

End ActionRequests.

(** ** Answers of [status] and [market] *)

Section Status.

Context {U : UnicodeCase}.

Variable pluginConfig : option JValue.
Variable rawParams : Record_unknown.

Let config := resolvePluginConfig pluginConfig.

(** X18.  The answer of [status] shows whether a trading key is present and
    nothing else of it: two venues give the same answer, in any context, as
    soon as both have a key or both have none, whatever the keys, the clocks
    and the hosts are.  And [status] makes no request. *)
Theorem status_shows_only_the_presence_of_the_key v1 v2 ctx1 ctx2 :
  readStringParam rawParams "action" true = inr "status" ->
  (resolvePrivateKey (world_of v1) config = None
   <-> resolvePrivateKey (world_of v2) config = None) ->
  execute_action v1 pluginConfig ctx1 rawParams
  = execute_action v2 pluginConfig ctx2 rawParams
  /\ snd (execute_action v1 pluginConfig ctx1 rawParams) = [].
Proof.
  intros Ha Hk. unfold execute_action. rewrite Ha. unfold read.
  rewrite !andThen_went. cbn [String.eqb Ascii.eqb Bool.eqb].
  unfold status_action. fold config.
  split; [|reflexivity].
  destruct (resolvePrivateKey (world_of v1) config) as [k1|],
           (resolvePrivateKey (world_of v2) config) as [k2|]; try reflexivity.
  - destruct Hk as [_ Hk]. discriminate (Hk eq_refl).
  - destruct Hk as [Hk _]. discriminate (Hk eq_refl).
Qed.

End Status.

Lemma get_app_last ms k x k' :
  JSON.get (ms ++ [(k, x)]) k' = if String.eqb k k' then Some x else JSON.get ms k'.
Proof.
  induction ms as [|[k0 v0] ms IH]; cbn [app JSON.get].
  - reflexivity.
  - rewrite IH. destruct (String.eqb k k'); reflexivity.
Qed.

Lemma get_absent ms k :
  existsb (fun kv => String.eqb (fst kv) k) ms = false -> JSON.get ms k = None.
Proof.
  induction ms as [|[k0 v0] ms IH]; [reflexivity|]. cbn [existsb fst JSON.get].
  intro H. apply orb_false_elim in H. destruct H as [H1 H2].
  now rewrite (IH H2), H1.
Qed.

Lemma get_replaced ms k x k' :
  JSON.get (map (fun kv => if String.eqb (fst kv) k then (k, x) else kv) ms) k'
  = if String.eqb k k'
    then (if existsb (fun kv => String.eqb (fst kv) k) ms then Some x else None)
    else JSON.get ms k'.
Proof.
  induction ms as [|[k0 v0] ms IH]; cbn [map JSON.get existsb fst].
  - now destruct (String.eqb k k').
  - destruct (String.eqb k0 k) eqn:E0; cbn [JSON.get orb]; rewrite IH.
    + apply String.eqb_eq in E0. subst k0.
      destruct (String.eqb k k'); [|reflexivity]. now destruct (existsb _ ms).
    + destruct (String.eqb k k') eqn:E; [|reflexivity].
      apply String.eqb_eq in E. subst k'. rewrite E0.
      now destruct (existsb _ ms).
Qed.

(** A property read from [{ ...market, k: x }]. *)
Lemma get_assign ms k x k' :
  JSON.get (assign ms k x) k' = if String.eqb k k' then Some x else JSON.get ms k'.
Proof.
  unfold assign. destruct (existsb _ ms) eqn:E.
  - rewrite get_replaced, E. reflexivity.
  - apply get_app_last.
Qed.

Section Market.

Context {U : UnicodeCase}.

Variable v : Venue.
Variable rawParams : Record_unknown.

(** X19.  When [market] answers, it has made one request, for the object of
    the market by the slug that was given or, without a slug, by the id, and
    its answer carries every property of that object as it came, but for the
    three that it sets: [outcomesParsed], [outcomePricesParsed] and
    [clobTokenIdsParsed] are what [parseJsonStringArray] reads in
    [outcomes], [outcomePrices] and [clobTokenIds], or the empty list. *)
Theorem market_answer_keeps_the_properties r log :
  market_action v rawParams = (Went r, log) ->
  exists ms shown,
    ((exists slug,
         readStringParam rawParams "marketSlug" false = inr slug
         /\ slug <> "" /\ gammaMarketBySlug v slug = inr ms
         /\ log = [Asked (FetchMarketBySlug slug)])
     \/ (exists id,
         readStringParam rawParams "marketSlug" false = inr ""
         /\ readStringParam rawParams "marketId" false = inr id
         /\ id <> "" /\ gammaMarketById v id = inr ms
         /\ log = [Asked (FetchMarketById id)]))
    /\ r = ok [("market", JObject shown)]
    /\ forall k,
         JSON.get shown k
         = let parsed name :=
             Some (strings (or_empty (parseJsonStringArray (get_string ms name)))) in
           if String.eqb k "clobTokenIdsParsed" then parsed "clobTokenIds"
           else if String.eqb k "outcomePricesParsed" then parsed "outcomePrices"
           else if String.eqb k "outcomesParsed" then parsed "outcomes"
           else JSON.get ms k.
Proof.
  unfold market_action. intro H.
  destruct (readStringParam rawParams "marketSlug" false) as [e|marketSlug];
    [discriminate H|].
  destruct (readStringParam rawParams "marketId" false) as [e|marketId];
    [discriminate H|].
  unfold read in H. rewrite !andThen_went in H.
  assert (F : exists ms,
            resolveGammaObject v marketId marketSlug = (Went ms, log)
            /\ r = ok [("market",
                        JObject
                          (assign
                             (assign
                                (assign ms "outcomesParsed"
                                   (strings (or_empty (parseJsonStringArray
                                                         (get_string ms "outcomes")))))
                                "outcomePricesParsed"
                                (strings (or_empty (parseJsonStringArray
                                                      (get_string ms "outcomePrices")))))
                             "clobTokenIdsParsed"
                             (strings (or_empty (parseJsonStringArray
                                                   (get_string ms "clobTokenIds"))))))]).
  { destruct (resolveGammaObject v marketId marketSlug) as [[ms|r0|e] t];
      cbn in H; try discriminate H.
    injection H as <- <-. exists ms. rewrite app_nil_r. split; reflexivity. }
  destruct F as (ms & G & ->). exists ms. eexists. split; [|split; [reflexivity|]].
  - unfold resolveGammaObject in G.
    destruct (truthy_string marketSlug) eqn:Ts.
    + left. exists marketSlug. split; [reflexivity|].
      split; [now apply truthy_string_nonempty|].
      unfold ask in G. destruct (gammaMarketBySlug v marketSlug); [discriminate G|].
      injection G as <- <-. split; reflexivity.
    + destruct (truthy_string marketId) eqn:Ti; [|discriminate G].
      right. exists marketId.
      split; [f_equal; destruct marketSlug; [reflexivity|discriminate Ts]|].
      split; [reflexivity|]. split; [now apply truthy_string_nonempty|].
      unfold ask in G. destruct (gammaMarketById v marketId); [discriminate G|].
      injection G as <- <-. split; reflexivity.
  - intro k. cbv zeta. rewrite !get_assign.
    rewrite !(String.eqb_sym _ k). reflexivity.
Qed.

End Market.

(** ** Balances that [positions] reads *)

Lemma in_embed {A} q (m : M A) :
  In q (snd (embed m)) -> exists c, q = Asked c /\ In c (snd m).
Proof.
  unfold embed. cbn [snd]. intro I. apply in_map_iff in I.
  destruct I as (c & <- & I). exists c. split; [reflexivity|exact I].
Qed.

Lemma nth_nth_error (l : list string) i s :
  (i < List.length l)%nat -> nth i l "" = s -> nth_error l i = Some s.
Proof.
  revert i. induction l as [|x l IH]; intros [|i] L E; cbn in *; try lia.
  - now subst.
  - apply IH; [lia|exact E].
Qed.

Section Positions.

Context {U : UnicodeCase}.

Variable v : Venue.
Variable pluginConfig : option JValue.
Variable ctx : ToolContext.
Variable rawParams : Record_unknown.

Let w := world_of v.
Let config := resolvePluginConfig pluginConfig.

Lemma position_entries_in normalizedOutcome pairs q :
  In q (snd (position_entries v normalizedOutcome pairs)) ->
  exists label tokenId,
    q = GetBalanceAllowance CONDITIONAL (Some tokenId)
    /\ In (label, tokenId) pairs
    /\ label <> "" /\ tokenId <> ""
    /\ (truthy_option normalizedOutcome = true ->
        normalizedOutcome = Some (normalizeOutcomeLabel label)).
Proof.
  induction pairs as [|[label tokenId] rest IH]; [intros []|].
  cbn [position_entries].
  assert (Next : In q (snd (position_entries v normalizedOutcome rest)) ->
                 exists label0 tokenId0,
                   q = GetBalanceAllowance CONDITIONAL (Some tokenId0)
                   /\ In (label0, tokenId0) ((label, tokenId) :: rest)
                   /\ label0 <> "" /\ tokenId0 <> ""
                   /\ (truthy_option normalizedOutcome = true ->
                       normalizedOutcome = Some (normalizeOutcomeLabel label0))).
  { intro I. destruct (IH I) as (l0 & t0 & E & In0 & R).
    exists l0, t0. split; [exact E|]. split; [now right|exact R]. }
  destruct (negb (truthy_string label) || negb (truthy_string tokenId)) eqn:T;
    [exact Next|].
  apply orb_false_elim in T. destruct T as [Tl Tt].
  apply negb_false_iff in Tl, Tt.
  destruct (truthy_option normalizedOutcome && _) eqn:C; [exact Next|].
  intro I. apply in_andThen in I. destruct I as [I|(bal & _ & I)].
  - destruct I as [<-|[]]. exists label, tokenId.
    split; [reflexivity|]. split; [now left|].
    split; [now apply truthy_string_nonempty|].
    split; [now apply truthy_string_nonempty|].
    intro Tn. rewrite Tn in C. cbn [andb] in C. apply negb_false_iff in C.
    apply String.eqb_eq in C. destruct normalizedOutcome as [n|]; [|discriminate Tn].
    now rewrite C.
  - apply in_andThen in I. destruct I as [I|(entries & _ & [])]. exact (Next I).
Qed.

(** X20.  Every balance that [positions] reads is that of an instrument of
    the market it has just fetched: one that the market lists, with a label
    at the same place in the list of outcomes, the two lists being of the
    same length; and with an [outcome] parameter whose normal form is not
    empty, one whose label has the same normal form, trimmed and in lower
    case.  The balance of the collateral is not read. *)
Theorem positions_reads_listed_instruments asset_type token_id :
  readStringParam rawParams "action" true = inr "positions" ->
  In (GetBalanceAllowance asset_type token_id)
     (snd (execute_action v pluginConfig ctx rawParams)) ->
  exists marketSlug marketId outcome market tokenId label i,
    readStringParam rawParams "marketSlug" false = inr marketSlug
    /\ readStringParam rawParams "marketId" false = inr marketId
    /\ readStringParam rawParams "outcome" false = inr outcome
    /\ fst (resolveGammaMarket w marketId marketSlug) = Normal market
    /\ asset_type = CONDITIONAL /\ token_id = Some tokenId
    /\ nth_error (or_empty (parseJsonStringArray (gm_clobTokenIds market))) i
       = Some tokenId
    /\ nth_error (or_empty (parseJsonStringArray (gm_outcomes market))) i = Some label
    /\ List.length (or_empty (parseJsonStringArray (gm_outcomes market)))
       = List.length (or_empty (parseJsonStringArray (gm_clobTokenIds market)))
    /\ (outcome <> "" -> normalizeOutcomeLabel outcome <> "" ->
        normalizeOutcomeLabel label = normalizeOutcomeLabel outcome).
Proof.
  intros Ha I. unfold execute_action in I. rewrite Ha, snd_finish in I.
  unfold read in I. rewrite andThen_went in I.
  cbn [String.eqb Ascii.eqb Bool.eqb] in I. unfold positions_action in I.
  fold w in I.
  destruct (readStringParam rawParams "marketSlug" false) as [e|marketSlug];
    [destruct I|].
  destruct (readStringParam rawParams "marketId" false) as [e|marketId];
    [destruct I|].
  destruct (readStringParam rawParams "outcome" false) as [e|outcome];
    [destruct I|].
  unfold read in I. rewrite !andThen_went in I.
  apply in_andThen in I. destruct I as [I|(market & Fm & I)].
  { apply in_embed in I. destruct I as (c & E & _). discriminate E. }
  cbv zeta in I.
  set (outcomes := or_empty (parseJsonStringArray (gm_outcomes market))) in *.
  set (tokenIds := or_empty (parseJsonStringArray (gm_clobTokenIds market))) in *.
  apply in_andThen in I. destruct I as [I|([] & Fl & I)].
  { destruct (_ || _) in I; destruct I. }
  assert (L : List.length outcomes = List.length tokenIds).
  { unfold fail_if in Fl.
    destruct (Nat.eqb (List.length outcomes) (List.length tokenIds)) eqn:E.
    - now apply Nat.eqb_eq in E.
    - rewrite !orb_true_r in Fl. discriminate Fl. }
  apply in_andThen in I. destruct I as [I|([] & _ & I)].
  { exfalso. pose proof (forallb_not_in _ _ _ (with_client_reads v pluginConfig) I) as N.
    revert I. unfold with_client.
    destruct (resolvePrivateKey _ _) as [key|]; [|intros []].
    intro I. apply in_embed in I. destruct I as (c & E & _). discriminate E. }
  apply in_andThen in I. destruct I as [I|(entries & _ & [])].
  apply position_entries_in in I.
  destruct I as (label & tokenId & E & Ip & Nl & Nt & Mo).
  injection E as -> ->.
  unfold by_index in Ip. apply in_map_iff in Ip. destruct Ip as (i & Ei & Ii).
  injection Ei as El Et. apply in_seq in Ii. subst outcomes tokenIds.
  exists marketSlug, marketId, outcome, market, tokenId, label, i.
  repeat (split; [reflexivity|]).
  split.
  { unfold embed in Fm. cbn [fst] in Fm.
    destruct (fst (resolveGammaMarket w marketId marketSlug)); try discriminate Fm.
    now injection Fm as ->. }
  split; [reflexivity|]. split; [reflexivity|].
  split; [apply nth_nth_error; [lia|exact Et]|].
  split; [apply nth_nth_error; [lia|exact El]|].
  split; [exact L|].
  intros No Nn. destruct (truthy_string outcome) eqn:To.
  - cbn [truthy_option] in Mo.
    destruct (truthy_string (normalizeOutcomeLabel outcome)) eqn:Tn.
    + specialize (Mo eq_refl). now injection Mo as ->.
    + destruct (normalizeOutcomeLabel outcome); [contradiction|discriminate Tn].
  - destruct outcome; [contradiction|discriminate To].
Qed.

End Positions.

(** ** What the reading actions ask for *)

Lemma forallb_asked {A} (p : Request -> bool) (m : M A) :
  (forall c, p (Asked c) = true) -> forallb p (snd (embed m)) = true.
Proof.
  intro H. apply forallb_embed. apply forallb_forall. intros c _. apply H.
Qed.

Section Scope.

Context {U : UnicodeCase}.

Variable v : Venue.
Variable pluginConfig : option JValue.
Variable ctx : ToolContext.
Variable rawParams : Record_unknown.

Let w := world_of v.
Let config := resolvePluginConfig pluginConfig.
Let endpoints := resolveEndpoints pluginConfig.

Variable p : Request -> bool.
Hypothesis asked : forall c, p (Asked c) = true.

Lemma with_client_only : forallb p (snd (with_client v pluginConfig)) = true.
Proof.
  unfold with_client. destruct (resolvePrivateKey _ _); [|reflexivity].
  apply forallb_asked. exact asked.
Qed.

Lemma position_entries_only normalizedOutcome pairs :
  (forall t, p (GetBalanceAllowance CONDITIONAL t) = true) ->
  forallb p (snd (position_entries v normalizedOutcome pairs)) = true.
Proof.
  intro H. induction pairs as [|[label tokenId] rest IH]; [reflexivity|].
  cbn [position_entries].
  destruct (negb (truthy_string label) || negb (truthy_string tokenId)); [exact IH|].
  destruct (truthy_option normalizedOutcome && _); [exact IH|].
  apply forallb_andThen; [apply forallb_ask; apply H|intros bal _].
  apply forallb_andThen; [exact IH|reflexivity].
Qed.

Lemma open_orders_of_only entries :
  (forall t, p (GetOpenOrders t) = true) ->
  forallb p (snd (open_orders_of v entries)) = true.
Proof.
  intro H. induction entries as [|entry rest IH]; [reflexivity|].
  cbn [open_orders_of].
  destruct (negb (truthy_string (fst entry))); [exact IH|].
  apply forallb_andThen; [apply forallb_ask; apply H|intros orders _].
  apply forallb_andThen; [exact IH|reflexivity].
Qed.

Lemma trades_of_only limit entries :
  (forall t, p (GetTrades t) = true) ->
  forallb p (snd (trades_of v limit entries)) = true.
Proof.
  intro H. induction entries as [|entry rest IH]; [reflexivity|].
  cbn [trades_of].
  destruct (negb (truthy_string (fst entry))); [exact IH|].
  apply forallb_andThen; [apply forallb_ask; apply H|intros trades _].
  apply forallb_andThen; [exact IH|reflexivity].
Qed.

End Scope.

(** Proves that the requests of an action all pass the test [p], which the
    requests of the approval protocol pass. *)
Ltac frame asked :=
  repeat first
    [ reflexivity
    | apply forallb_read | apply forallb_fail_if
    | apply forallb_ask; reflexivity
    | apply with_client_only; exact asked
    | apply forallb_asked; exact asked
    | apply position_entries_only; intro; reflexivity
    | apply open_orders_of_only; intro; reflexivity
    | apply trades_of_only; intro; reflexivity
    | progress cbv zeta
    | apply forallb_andThen; [|intros ? ?]
    | match goal with
      | |- forallb _ (snd (if ?c then _ else _)) = true => destruct c
      end ].

(** Takes the log of the action of a request apart: one goal for each
    action, with [I] the request in the log of that action. *)
Ltac dispatch I Ha :=
  unfold execute_action in I;
  match type of Ha with
  | readStringParam _ "action" true = _ => rewrite Ha in I
  end;
  rewrite snd_finish in I; unfold read in I; rewrite andThen_went in I;
  revert I;
  repeat match goal with
  | |- In _ (snd (if String.eqb ?a ?s then _ else _)) -> _ =>
      is_var a; let E := fresh "E" in
      destruct (String.eqb_spec a s) as [E|_]; [subst a|]
  end; intro I.


Lemma fst_andThen_inv {A B} (m : Run A) (k : A -> Run B) b :
  fst (andThen m k) = Went b -> exists a, fst m = Went a /\ fst (k a) = Went b.
Proof.
  destruct m as [[a|r|e] t]; cbn [andThen fst]; try discriminate.
  destruct (k a) as [o t'] eqn:K. cbn [fst]. intros ->. exists a.
  rewrite K. split; reflexivity.
Qed.

Lemma forallb_bind {A B} (p : Call -> bool) (m : M A) (k : A -> M B) :
  forallb p (snd m) = true -> (forall a, forallb p (snd (k a)) = true) ->
  forallb p (snd (bind m k)) = true.
Proof.
  intros Hm Hk. destruct m as [[a|r|e] t]; cbn [bind snd] in *; try assumption.
  specialize (Hk a). destruct (k a) as [o t']. cbn [snd] in *.
  rewrite forallb_app, Hm, Hk. reflexivity.
Qed.

Lemma forallb_answer_if (p : Call -> bool) c r : forallb p (snd (answer_if c r)) = true.
Proof. now destruct c. Qed.

Lemma forallb_throw_if (p : Call -> bool) c msg : forallb p (snd (throw_if c msg)) = true.
Proof. now destruct c. Qed.

Lemma forallb_lift {A} (p : Call -> bool) (x : Exception + A) :
  forallb p (snd (lift x)) = true.
Proof. now destruct x. Qed.

Lemma forallb_await {A} (p : Call -> bool) c (x : Exception + A) :
  p c = true -> forallb p (snd (await c x)) = true.
Proof. intro H. cbn. now rewrite H. Qed.

(** Proves that the calls of a chain of steps of the approval protocol all
    pass a test. *)
Ltac calls :=
  repeat first
    [ reflexivity
    | apply forallb_answer_if | apply forallb_throw_if | apply forallb_lift
    | apply forallb_await; reflexivity
    | apply forallb_bind; [|intro]
    | match goal with
      | |- forallb _ (snd (if ?c then _ else _)) = true => destruct c
      | |- forallb _ (snd (match ?x with _ => _ end)) = true => destruct x
      end ].


Section Reads.

Context {U : UnicodeCase}.

Variable v : Venue.
Variable pluginConfig : option JValue.
Variable ctx : ToolContext.
Variable rawParams : Record_unknown.

Let w := world_of v.
Let config := resolvePluginConfig pluginConfig.
Let endpoints := resolveEndpoints pluginConfig.

Lemma open_orders_of_in entries q :
  In q (snd (open_orders_of v entries)) ->
  exists entry,
    In entry entries /\ fst entry <> "" /\ q = GetOpenOrders (Some (fst entry)).
Proof.
  induction entries as [|entry rest IH]; [intros []|].
  cbn [open_orders_of].
  assert (Next : In q (snd (open_orders_of v rest)) ->
                 exists e, In e (entry :: rest) /\ fst e <> ""
                           /\ q = GetOpenOrders (Some (fst e))).
  { intro I. destruct (IH I) as (e & Ie & R). exists e. split; [now right|exact R]. }
  destruct (truthy_string (fst entry)) eqn:T; cbn [negb]; [|exact Next].
  intro I. apply in_andThen in I. destruct I as [I|(orders & _ & I)].
  - destruct I as [<-|[]]. exists entry. split; [now left|].
    split; [now apply truthy_string_nonempty|reflexivity].
  - apply in_andThen in I. destruct I as [I|(results & _ & [])]. exact (Next I).
Qed.

Lemma trades_of_in limit entries q :
  In q (snd (trades_of v limit entries)) ->
  exists entry,
    In entry entries /\ fst entry <> "" /\ q = GetTrades (Some (fst entry)).
Proof.
  induction entries as [|entry rest IH]; [intros []|].
  cbn [trades_of].
  assert (Next : In q (snd (trades_of v limit rest)) ->
                 exists e, In e (entry :: rest) /\ fst e <> ""
                           /\ q = GetTrades (Some (fst e))).
  { intro I. destruct (IH I) as (e & Ie & R). exists e. split; [now right|exact R]. }
  destruct (truthy_string (fst entry)) eqn:T; cbn [negb]; [|exact Next].
  intro I. apply in_andThen in I. destruct I as [I|(trades & _ & I)].
  - destruct I as [<-|[]]. exists entry. split; [now left|].
    split; [now apply truthy_string_nonempty|reflexivity].
  - apply in_andThen in I. destruct I as [I|(results & _ & [])]. exact (Next I).
Qed.

Lemma targets_scope marketId marketSlug outcome found entry :
  fst (targets v marketId marketSlug outcome) = Went found ->
  In entry (snd found) ->
  in_scope_of w marketId marketSlug outcome (fst entry).
Proof.
  unfold targets. fold w. intros H I.
  apply fst_andThen_inv in H. destruct H as (market & Fm & H).
  apply fst_andThen_inv in H. destruct H as ([] & _ & H).
  exists market. split.
  { unfold embed in Fm. cbn [fst] in Fm.
    destruct (fst (resolveGammaMarket w marketId marketSlug)); try discriminate Fm.
    now injection Fm as ->. }
  destruct (truthy_string outcome).
  - apply fst_andThen_inv in H. destruct H as (resolved & R & H).
    injection H as <-. destruct I as [<-|[]].
    destruct (resolveOutcomeToken market (Some outcome)) as [e|[t label]];
      [discriminate R|].
    injection R as <-. exists label. reflexivity.
  - injection H as <-. cbn [snd] in I. apply in_map_iff in I.
    destruct I as (i & <- & Ii). apply in_seq in Ii. cbn [fst].
    apply nth_In. lia.
Qed.

Lemma targets_asks marketId marketSlug outcome q :
  In q (snd (targets v marketId marketSlug outcome)) -> exists c, q = Asked c.
Proof.
  intro I. destruct q; try (now eexists); exfalso;
    (assert (F : forallb (fun q => match q with Asked _ => true | _ => false end)
                   (snd (targets v marketId marketSlug outcome)) = true);
     [unfold targets;
      repeat first [ reflexivity | apply forallb_read | apply forallb_fail_if
                   | apply forallb_asked; reflexivity
                   | progress cbv zeta
                   | apply forallb_andThen; [|intros ? ?]
                   | match goal with
                     | |- forallb _ (snd (if ?c then _ else _)) = true => destruct c
                     end ]
     |pose proof (forallb_not_in _ _ _ F I) as N; discriminate N]).
Qed.

Lemma open_orders_scope q :
  In q (snd (open_orders_action v pluginConfig rawParams)) ->
  is_account_read q = true ->
  exists asset_id, q = GetOpenOrders asset_id /\ asset_in_scope w rawParams asset_id.
Proof.
  unfold open_orders_action. fold w. intros I Aq.
  apply in_andThen in I. destruct I as [I|([] & _ & I)].
  { exfalso. assert (F : forallb (fun q => negb (is_account_read q))
                           (snd (with_client v pluginConfig)) = true)
      by (apply with_client_only; reflexivity).
    pose proof (forallb_not_in _ _ _ F I) as N. cbn beta in N. now rewrite Aq in N. }
  destruct (readStringParam rawParams "tokenId" false) as [e|tokenId] eqn:R1;
    [destruct I|].
  destruct (readStringParam rawParams "marketSlug" false) as [e|marketSlug] eqn:R2;
    [destruct I|].
  destruct (readStringParam rawParams "marketId" false) as [e|marketId] eqn:R3;
    [destruct I|].
  destruct (readStringParam rawParams "outcome" false) as [e|outcome] eqn:R4;
    [destruct I|].
  unfold read in I. rewrite !andThen_went in I.
  assert (S : forall asset_id,
             (if truthy_string tokenId then asset_id = Some tokenId
              else if truthy_string marketSlug || truthy_string marketId
              then exists t, asset_id = Some t /\ t <> ""
                             /\ in_scope_of w marketId marketSlug outcome t
              else asset_id = None) ->
             asset_in_scope w rawParams asset_id).
  { intros a H. exists tokenId, marketSlug, marketId, outcome.
    repeat (split; [assumption|]). exact H. }
  destruct (truthy_string tokenId) eqn:Tt.
  - apply in_andThen in I. destruct I as [I|(orders & _ & [])].
    destruct I as [<-|[]]. eexists. split; [reflexivity|]. apply S. reflexivity.
  - destruct (truthy_string marketSlug || truthy_string marketId) eqn:Tm.
    + apply in_andThen in I. destruct I as [I|(found & Ft & I)].
      { apply targets_asks in I. destruct I as (c & ->). discriminate Aq. }
      apply in_andThen in I. destruct I as [I|(results & _ & [])].
      apply open_orders_of_in in I. destruct I as (entry & Ie & Ne & ->).
      eexists. split; [reflexivity|]. apply S.
      exists (fst entry). split; [reflexivity|]. split; [exact Ne|].
      exact (targets_scope _ _ _ _ _ Ft Ie).
    + apply in_andThen in I. destruct I as [I|(orders & _ & [])].
      destruct I as [<-|[]]. eexists. split; [reflexivity|]. apply S. reflexivity.
Qed.

Lemma trades_scope q :
  In q (snd (trades_action v pluginConfig rawParams)) ->
  is_account_read q = true ->
  exists asset_id, q = GetTrades asset_id /\ asset_in_scope w rawParams asset_id.
Proof.
  unfold trades_action. fold w. intros I Aq.
  apply in_andThen in I. destruct I as [I|([] & _ & I)].
  { exfalso. assert (F : forallb (fun q => negb (is_account_read q))
                           (snd (with_client v pluginConfig)) = true)
      by (apply with_client_only; reflexivity).
    pose proof (forallb_not_in _ _ _ F I) as N. cbn beta in N. now rewrite Aq in N. }
  destruct (readStringParam rawParams "tokenId" false) as [e|tokenId] eqn:R1;
    [destruct I|].
  destruct (readStringParam rawParams "marketSlug" false) as [e|marketSlug] eqn:R2;
    [destruct I|].
  destruct (readStringParam rawParams "marketId" false) as [e|marketId] eqn:R3;
    [destruct I|].
  destruct (readStringParam rawParams "outcome" false) as [e|outcome] eqn:R4;
    [destruct I|].
  unfold read in I. rewrite !andThen_went in I. cbv zeta in I.
  assert (S : forall asset_id,
             (if truthy_string tokenId then asset_id = Some tokenId
              else if truthy_string marketSlug || truthy_string marketId
              then exists t, asset_id = Some t /\ t <> ""
                             /\ in_scope_of w marketId marketSlug outcome t
              else asset_id = None) ->
             asset_in_scope w rawParams asset_id).
  { intros a H. exists tokenId, marketSlug, marketId, outcome.
    repeat (split; [assumption|]). exact H. }
  destruct (truthy_string tokenId) eqn:Tt.
  - apply in_andThen in I. destruct I as [I|(trades & _ & [])].
    destruct I as [<-|[]]. eexists. split; [reflexivity|]. apply S. reflexivity.
  - destruct (truthy_string marketSlug || truthy_string marketId) eqn:Tm.
    + apply in_andThen in I. destruct I as [I|(found & Ft & I)].
      { apply targets_asks in I. destruct I as (c & ->). discriminate Aq. }
      apply in_andThen in I. destruct I as [I|(results & _ & [])].
      apply trades_of_in in I. destruct I as (entry & Ie & Ne & ->).
      eexists. split; [reflexivity|]. apply S.
      exists (fst entry). split; [reflexivity|]. split; [exact Ne|].
      exact (targets_scope _ _ _ _ _ Ft Ie).
    + apply in_andThen in I. destruct I as [I|(trades & _ & [])].
      destruct I as [<-|[]]. eexists. split; [reflexivity|]. apply S. reflexivity.
Qed.

(** X21.  The account is read for what the request names, and by the action
    made for it.  An order is read only by [order], and it is the one of the
    [orderId] parameter; the balance of the collateral only by [balances];
    open orders only by [open_orders] and trades only by [trades], and then
    for the instrument of the [tokenId] parameter when there is one, else
    for instruments of the market that was named, those it lists or the one
    that [resolveOutcomeToken] finds for the [outcome] parameter, and for
    every instrument only when neither was named. *)
Theorem account_reads_are_scoped q :
  In q (snd (execute_action v pluginConfig ctx rawParams)) ->
  is_account_read q = true ->
  (exists orderId,
      readStringParam rawParams "action" true = inr "order"
      /\ readStringParam rawParams "orderId" true = inr orderId
      /\ q = GetOrder orderId)
  \/ (readStringParam rawParams "action" true = inr "balances"
      /\ q = GetBalanceAllowance COLLATERAL None)
  \/ (exists asset_id,
        readStringParam rawParams "action" true = inr "open_orders"
        /\ q = GetOpenOrders asset_id /\ asset_in_scope w rawParams asset_id)
  \/ (exists asset_id,
        readStringParam rawParams "action" true = inr "trades"
        /\ q = GetTrades asset_id /\ asset_in_scope w rawParams asset_id).
Proof.
  intros I Aq.
  assert (Other : forall l, forallb (fun q => negb (is_account_read q)) l = true ->
                            In q l -> False).
  { intros l F Il. pose proof (forallb_not_in _ _ _ F Il) as N. cbn beta in N.
    rewrite Aq in N. discriminate N. }
  assert (asked : forall c, negb (is_account_read (Asked c)) = true) by reflexivity.
  destruct (readStringParam rawParams "action" true) as [e|action] eqn:Ha.
  { unfold execute_action in I. rewrite Ha in I. destruct I. }
  dispatch I Ha; fold w config in I;
    try (exfalso; refine (Other _ _ I);
         unfold positions_action, cancel_order_action, cancel_all_action, search_action,
           market_action, orderbook_action, protocol, resolveGammaObject;
         solve [frame asked]).
  - (* balances *)
    right. left. split; [reflexivity|].
    unfold balances_action in I.
    apply in_andThen in I. destruct I as [I|([] & _ & I)].
    { exfalso. exact (Other _ (with_client_only v pluginConfig _ asked) I). }
    apply in_andThen in I. destruct I as [I|(collateral & _ & [])].
    destruct I as [<-|[]]. reflexivity.
  - (* open_orders *)
    right. right. left. destruct (open_orders_scope _ I Aq) as (a & -> & S).
    exists a. repeat split. exact S.
  - (* trades *)
    right. right. right. destruct (trades_scope _ I Aq) as (a & -> & S).
    exists a. repeat split. exact S.
  - (* order *)
    left. unfold order_action in I.
    destruct (readStringParam rawParams "orderId" true) as [e|orderId] eqn:Ro;
      [destruct I|].
    unfold read in I. rewrite andThen_went in I.
    apply in_andThen in I. destruct I as [I|([] & _ & I)].
    { exfalso. exact (Other _ (with_client_only v pluginConfig _ asked) I). }
    apply in_andThen in I. destruct I as [I|(order & _ & [])].
    destruct I as [<-|[]]. exists orderId. repeat split.
Qed.







End Reads.

(** ** The properties at the venue of the examples *)

Lemma normalizeLimit_is_a_page_size_witness :
  normalizeLimit (Some (JNumber (Number.ofZ 7))) = Number.ofZ 7
  /\ normalizeLimit (Some (JString "many")) = 5%float.
Proof.
  split.
  - apply (proj1 (proj2 normalizeLimit_is_a_page_size) 7). lia.
  - apply (proj2 (proj2 normalizeLimit_is_a_page_size) (Some (JString "many"))).
    vm_compute. reflexivity.
Defined.

Lemma staged_order_passed_every_check_witness :
  tradeEnabled (resolvePluginConfig Desk.pluginConfig) = true
  /\ sandboxed Scenario.ctx = false
  /\ (exists key,
         resolvePrivateKey (world_of Desk.desk) (resolvePluginConfig Desk.pluginConfig)
         = Some key
         /\ Desk.token = encodeResumeToken Desk.order key)
  /\ action Desk.order = "place_order"
  /\ sessionKey Desk.order = ctx_sessionKey Scenario.ctx
  /\ tokenId Desk.order <> ""
  /\ (side Desk.order = "buy" \/ side Desk.order = "sell")
  /\ readNumberParam Desk.propose "price" = inr (price Desk.order)
  /\ readNumberParam Desk.propose "size" = inr (size Desk.order)
  /\ Number.isFinite (price Desk.order) = true
  /\ (0 <? price Desk.order)%float = true
  /\ (price Desk.order <? 1)%float = true
  /\ Number.isFinite (size Desk.order) = true
  /\ (0 <? size Desk.order)%float = true
  /\ approxNotionalUsd Desk.order = (price Desk.order * size Desk.order)%float
  /\ ((0 <? maxNotionalUsd (resolvePluginConfig Desk.pluginConfig))%float = true ->
      (approxNotionalUsd Desk.order
       <=? maxNotionalUsd (resolvePluginConfig Desk.pluginConfig))%float = true).
Proof.
  apply (staged_order_passed_every_check (world_of Desk.desk) Desk.pluginConfig
           Scenario.ctx Desk.propose Desk.order Desk.token).
  vm_compute. reflexivity.
Defined.

Lemma allowlist_checks_the_named_market_witness :
  exists m s allow,
    ((exists slug,
         readStringParam Desk.propose "marketSlug" false = inr slug
         /\ fetchMarketBySlug (world_of Desk.desk) slug = inr m
         /\ snd (execute (world_of Desk.desk) Desk.pluginConfig Scenario.ctx Desk.propose)
            = [FetchMarketBySlug slug])
     \/ (exists id,
         readStringParam Desk.propose "marketSlug" false = inr ""
         /\ readStringParam Desk.propose "marketId" false = inr id
         /\ fetchMarketById (world_of Desk.desk) id = inr m
         /\ snd (execute (world_of Desk.desk) Desk.pluginConfig Scenario.ctx Desk.propose)
            = [FetchMarketById id]))
    /\ gm_slug m = Some s
    /\ allowedMarketSlugs (resolvePluginConfig Desk.pluginConfig) = Some allow
    /\ In (JSString.trim s) (map JSString.trim allow)
    /\ market_slug (market Desk.order) = Some s
    /\ market_id (market Desk.order) = gm_id m
    /\ exists given,
         readStringParam Desk.propose "tokenId" false = inr given
         /\ if truthy_string given then tokenId Desk.order = given
            else In (tokenId Desk.order)
                    (or_empty (parseJsonStringArray (gm_clobTokenIds m))).
Proof.
  apply (allowlist_checks_the_named_market (world_of Desk.desk) Desk.pluginConfig
           Scenario.ctx Desk.propose Desk.order Desk.token).
  - reflexivity.
  - vm_compute. reflexivity.
Defined.

Lemma staging_reads_only_the_market_witness :
  let calls := snd (execute (world_of Desk.desk) Desk.pluginConfig Scenario.ctx Desk.propose) in
  calls = []
  \/ (exists slug,
        readStringParam Desk.propose "marketSlug" false = inr slug
        /\ slug <> "" /\ calls = [FetchMarketBySlug slug])
  \/ (exists id,
        readStringParam Desk.propose "marketSlug" false = inr ""
        /\ readStringParam Desk.propose "marketId" false = inr id
        /\ id <> "" /\ calls = [FetchMarketById id]).
Proof.
  apply (staging_reads_only_the_market (world_of Desk.desk) Desk.pluginConfig
           Scenario.ctx Desk.propose).
  reflexivity.
Defined.

Lemma resume_without_approval_asks_nothing_witness :
  snd (execute (world_of Desk.later) Desk.pluginConfig Scenario.ctx Desk.unapproved) = [].
Proof.
  apply (resume_without_approval_asks_nothing (world_of Desk.later) Desk.pluginConfig
           Scenario.ctx Desk.unapproved).
  - reflexivity.
  - vm_compute. discriminate.
Defined.


Lemma without_a_key_only_public_reads_witness :
  forallb (fun q => negb (needs_key q))
    (snd (execute_action Desk.unkeyed Desk.pluginConfig Scenario.ctx Desk.positions))
  = true.
Proof.
  apply (without_a_key_only_public_reads Desk.unkeyed Desk.pluginConfig Scenario.ctx
           Desk.positions).
  vm_compute. reflexivity.
Defined.

Lemma mutations_are_deliberate_witness :
  sandboxed Scenario.no_session = false
  /\ resolvePrivateKey (world_of Desk.later) (resolvePluginConfig Desk.pluginConfig) <> None
  /\ ((exists order options token key pending,
         Asked (CreateAndPostOrder (submitted_order Desk.order)
                  {| tickSize := "0.01"; negRisk := false |})
         = Asked (CreateAndPostOrder order options)
         /\ resume_request (Scenario.resume_with Desk.token true) token true
         /\ decodes_to (world_of Desk.later) (resolvePluginConfig Desk.pluginConfig)
              token key pending
         /\ expired pending (clock Desk.later) = false
         /\ sessionMismatch pending Scenario.no_session = false
         /\ (forall bound current,
                sessionKey pending = Some bound ->
                ctx_sessionKey Scenario.no_session = Some current ->
                bound <> "" -> current <> "" -> bound = current)
         /\ tradeEnabled (resolvePluginConfig Desk.pluginConfig) = true
         /\ isAllowedMarket (resolvePluginConfig Desk.pluginConfig)
              (market_slug (market pending)) = true
         /\ order = submitted_order pending)
      \/ (exists orderId,
            readStringParam (Scenario.resume_with Desk.token true) "action" true
            = inr "cancel_order"
            /\ readStringParam (Scenario.resume_with Desk.token true) "orderId" true
               = inr orderId
            /\ Asked (CreateAndPostOrder (submitted_order Desk.order)
                        {| tickSize := "0.01"; negRisk := false |})
               = CancelOrder orderId)
      \/ (readStringParam (Scenario.resume_with Desk.token true) "action" true
          = inr "cancel_all"
          /\ JSON.get (Scenario.resume_with Desk.token true) "confirm" = Some (JBool true)
          /\ Asked (CreateAndPostOrder (submitted_order Desk.order)
                      {| tickSize := "0.01"; negRisk := false |})
             = CancelAll)).
Proof.
  apply (mutations_are_deliberate Desk.later Desk.pluginConfig Scenario.no_session
           (Scenario.resume_with Desk.token true)
           (Asked (CreateAndPostOrder (submitted_order Desk.order)
                     {| tickSize := "0.01"; negRisk := false |}))).
  - intros token key parsed Ht Hk Hd.
    vm_compute in Ht. injection Ht as <-.
    vm_compute in Hk. injection Hk as <-.
    vm_compute in Hd. injection Hd as <-.
    vm_compute. discriminate.
  - vm_compute. do 3 right. left. reflexivity.
  - reflexivity.
Defined.

Lemma status_shows_only_the_presence_of_the_key_witness :
  execute_action Desk.desk Desk.pluginConfig Scenario.ctx (Desk.request "status" [])
  = execute_action Desk.later Desk.pluginConfig Scenario.sandbox (Desk.request "status" [])
  /\ snd (execute_action Desk.desk Desk.pluginConfig Scenario.ctx (Desk.request "status" []))
     = [].
Proof.
  apply (status_shows_only_the_presence_of_the_key Desk.pluginConfig
           (Desk.request "status" []) Desk.desk Desk.later Scenario.ctx Scenario.sandbox).
  - reflexivity.
  - vm_compute. split; discriminate.
Defined.

Lemma market_answer_keeps_the_properties_witness :
  exists ms shown,
    ((exists slug,
         readStringParam Desk.market_by_id "marketSlug" false = inr slug
         /\ slug <> "" /\ gammaMarketBySlug Desk.desk slug = inr ms
         /\ [Asked (FetchMarketById "512")] = [Asked (FetchMarketBySlug slug)])
     \/ (exists id,
         readStringParam Desk.market_by_id "marketSlug" false = inr ""
         /\ readStringParam Desk.market_by_id "marketId" false = inr id
         /\ id <> "" /\ gammaMarketById Desk.desk id = inr ms
         /\ [Asked (FetchMarketById "512")] = [Asked (FetchMarketById id)]))
    /\ fst (finish (market_action Desk.desk Desk.market_by_id))
       = ok [("market", JObject shown)]
    /\ forall k,
         JSON.get shown k
         = let parsed name :=
             Some (strings (or_empty (parseJsonStringArray (get_string ms name)))) in
           if String.eqb k "clobTokenIdsParsed" then parsed "clobTokenIds"
           else if String.eqb k "outcomePricesParsed" then parsed "outcomePrices"
           else if String.eqb k "outcomesParsed" then parsed "outcomes"
           else JSON.get ms k.
Proof.
  apply (market_answer_keeps_the_properties Desk.desk Desk.market_by_id
           (fst (finish (market_action Desk.desk Desk.market_by_id)))
           [Asked (FetchMarketById "512")]).
  vm_compute. reflexivity.
Defined.

Lemma positions_reads_listed_instruments_witness :
  exists marketSlug marketId outcome market tokenId label i,
    readStringParam Desk.positions "marketSlug" false = inr marketSlug
    /\ readStringParam Desk.positions "marketId" false = inr marketId
    /\ readStringParam Desk.positions "outcome" false = inr outcome
    /\ fst (resolveGammaMarket (world_of Desk.desk) marketId marketSlug) = Normal market
    /\ CONDITIONAL = CONDITIONAL /\ Some "T2" = Some tokenId
    /\ nth_error (or_empty (parseJsonStringArray (gm_clobTokenIds market))) i
       = Some tokenId
    /\ nth_error (or_empty (parseJsonStringArray (gm_outcomes market))) i = Some label
    /\ List.length (or_empty (parseJsonStringArray (gm_outcomes market)))
       = List.length (or_empty (parseJsonStringArray (gm_clobTokenIds market)))
    /\ (outcome <> "" -> normalizeOutcomeLabel outcome <> "" ->
        normalizeOutcomeLabel label = normalizeOutcomeLabel outcome).
Proof.
  apply (positions_reads_listed_instruments Desk.desk Desk.pluginConfig Scenario.ctx
           Desk.positions CONDITIONAL (Some "T2")).
  - reflexivity.
  - vm_compute. right. right. left. reflexivity.
Defined.

Lemma account_reads_are_scoped_witness :
  (exists orderId,
      readStringParam Desk.trades "action" true = inr "order"
      /\ readStringParam Desk.trades "orderId" true = inr orderId
      /\ GetTrades (Some "T1") = GetOrder orderId)
  \/ (readStringParam Desk.trades "action" true = inr "balances"
      /\ GetTrades (Some "T1") = GetBalanceAllowance COLLATERAL None)
  \/ (exists asset_id,
        readStringParam Desk.trades "action" true = inr "open_orders"
        /\ GetTrades (Some "T1") = GetOpenOrders asset_id
        /\ asset_in_scope (world_of Desk.desk) Desk.trades asset_id)
  \/ (exists asset_id,
        readStringParam Desk.trades "action" true = inr "trades"
        /\ GetTrades (Some "T1") = GetTrades asset_id
        /\ asset_in_scope (world_of Desk.desk) Desk.trades asset_id).
Proof.
  apply (account_reads_are_scoped Desk.desk Desk.pluginConfig Scenario.sandbox
           Desk.trades (GetTrades (Some "T1"))).
  - vm_compute. right. right. left. reflexivity.
  - reflexivity.
Defined.

